(** * visu.py: coverage statistics and batch grid visualisation

    A shallow embedding of [visu.py].  The script has two passes over a
    dataset accessor [DATA]: the statistics pass (lines 95-208), which draws
    inputs, accumulates per-point and per-class counts and exports
    normalised tables, and the batch pass (lines 210-266), which tiles the
    scenes of successive batches on a grid or exports them one by one.

    Numeric model.  The arrays of the script are float64 numpy arrays.  They
    are embedded as lists of exact rationals; the one place where float
    arithmetic leaves the rationals, true division by zero, is kept: a
    quotient is an [npval], which is a rational, an infinity or nan.
    Rounding is modelled where a property rests on a cancellation, in the
    repositioning of scenes: [position_scene_fl] rounds every result, and
    the rounding is any function within a stated error.  Elsewhere values
    are exact.  A Python exception is modelled as [None]. *)

From Stdlib Require Import ZArith QArith Qminmax Qround Lia Lqa Ascii String.
From stdpp Require Import base option list strings gmap pretty.

Local Open Scope Q_scope.

(** ** numpy on one-dimensional arrays *)

(** [np.zeros(n)] *)
Definition np_zeros (n : nat) : list Q := replicate n 0.

(** [np.sum(a)] *)
Definition np_sum (a : list Q) : Q := fold_left Qplus a 0.

(** numpy broadcasting of a binary operator on two one-dimensional arrays:
    equal lengths combine pointwise, a length-one operand is stretched, and
    any other pair of shapes raises [ValueError]. *)
Definition np_broadcast (op : Q -> Q -> Q) (a b : list Q) : option (list Q) :=
  if (length a =? length b)%nat then Some (zip_with op a b)
  else match a, b with
       | [x], _ => Some (map (op x) b)
       | _, [y] => Some (map (fun x => op x y) a)
       | _, _ => None
       end.

(** [a += b] on a numpy array [a]: the shape of [a] is kept, so [b] must
    broadcast to it. *)
Definition np_iadd (a b : list Q) : option (list Q) :=
  if (length b =? length a)%nat then Some (zip_with Qplus a b)
  else match b with
       | [y] => Some (map (fun x => x + y) a)
       | _ => None
       end.

(** Python's [seq[f]] for a possibly negative index [f]: the position that
    is read or written, or [None] for [IndexError]. *)
Definition py_index (len : nat) (f : Z) : option nat :=
  if ((0 <=? f)%Z && (f <? Z.of_nat len)%Z)%bool then Some (Z.to_nat f)
  else if ((- Z.of_nat len <=? f)%Z && (f <? 0)%Z)%bool
       then Some (Z.to_nat (f + Z.of_nat len))
       else None.

(** [range(n)] has [max(n, 0)] elements. *)
Definition range_len (n : Z) : nat := Z.to_nat n.

(** ** The statistics pass: accumulation (lines 138-158) *)

(** One result of [DATA.next_input(DROPOUT, True, False, True)]:
    [f, input_mask, input_label_hist, seed_idx]. *)
Record Draw (Seed : Type) := mkDraw {
  d_scene : Z;
  d_mask : list Q;
  d_label_hist : list Q;
  d_seed : Seed
}.
Arguments mkDraw {Seed}.
Arguments d_scene {Seed}.
Arguments d_mask {Seed}.
Arguments d_label_hist {Seed}.
Arguments d_seed {Seed}.

(** The accumulators of the statistics pass. *)
Record Stats (Seed : Type) := mkStats {
  hist_list : list (list Q);
  seeds_list : list (list Seed);
  label_hist : list Q;
  scene_counters : list Q
}.
Arguments mkStats {Seed}.
Arguments hist_list {Seed}.
Arguments seeds_list {Seed}.
Arguments label_hist {Seed}.
Arguments scene_counters {Seed}.

Section Accumulation.
Context {Seed : Type}.

(** The dataset accessor [DATA] is external and stateful: [Accessor] is its
    state, [next_input] one call of the sampling primitive. *)
Variable Accessor : Type.
Variable next_input : Accessor -> Draw Seed * Accessor.

(** [DATA.get_data_filenames()], [DATA.get_scene_shape(f)[0]],
    [DATA.num_classes] and the option [--nps]. *)
Variable filenames : list string.
Variable get_scene_shape : nat -> nat.
Variable NUM_CLASSES : nat.
Variable STAT_INPUT_NB : Z.

(** Lines 140-148. *)
Definition stats_init : Stats Seed :=
  {| hist_list := (fun f => np_zeros (get_scene_shape f)) <$> seq 0 (length filenames);
     seeds_list := (fun _ => []) <$> seq 0 (length filenames);
     label_hist := np_zeros NUM_CLASSES;
     scene_counters := np_zeros (length filenames) |}.

(** The body of the loop at line 151, after the call at line 154. *)
Definition stats_step (st : Stats Seed) (d : Draw Seed) : option (Stats Seed) :=
  fh ← py_index (length (hist_list st)) (d_scene d);
  h ← hist_list st !! fh;
  h' ← np_iadd h (d_mask d);
  fc ← py_index (length (scene_counters st)) (d_scene d);
  c ← scene_counters st !! fc;
  fs ← py_index (length (seeds_list st)) (d_scene d);
  s ← seeds_list st !! fs;
  lh ← np_iadd (label_hist st) (d_label_hist d);
  Some {| hist_list := <[fh := h']> (hist_list st);
          seeds_list := <[fs := s ++ [d_seed d]]> (seeds_list st);
          label_hist := lh;
          scene_counters := <[fc := c + 1]> (scene_counters st) |}.

(** [n] iterations of the loop at line 151. *)
Fixpoint stats_loop (n : nat) (st : Stats Seed) (a : Accessor)
  : option (Stats Seed * Accessor) :=
  match n with
  | O => Some (st, a)
  | S n' =>
      let '(d, a') := next_input a in
      st' ← stats_step st d;
      stats_loop n' st' a'
  end.

(** Lines 143-158: [range(STAT_INPUT_NB*len(filenames))]. *)
Definition stats_pass (a : Accessor) : option (Stats Seed * Accessor) :=
  stats_loop (range_len (STAT_INPUT_NB * Z.of_nat (length filenames))) stats_init a.

(** The accessor after [n] calls of [next_input], and what they returned. *)
Fixpoint calls (n : nat) (a : Accessor) : Accessor :=
  match n with
  | O => a
  | S n' => calls n' (snd (next_input a))
  end.

Fixpoint draw_seq (n : nat) (a : Accessor) : list (Draw Seed) :=
  match n with
  | O => []
  | S n' => fst (next_input a) :: draw_seq n' (snd (next_input a))
  end.

(** The draws of a sequence that fall on scene [f]. *)
Definition on_scene (f : nat) (d : Draw Seed) : bool :=
  bool_decide (py_index (length filenames) (d_scene d) = Some f).

Definition draws_on (f : nat) (ds : list (Draw Seed)) : list (Draw Seed) :=
  List.filter (on_scene f) ds.

(** Elementwise sum of vectors of length [n]. *)
Definition vsum (n : nat) (vs : list (list Q)) : list Q :=
  fold_left (zip_with Qplus) vs (np_zeros n).

(** A draw the accessor may return: the scene index is in range, the mask
    has one entry per point of that scene, the class counts one per class. *)
Definition wf_draw (d : Draw Seed) : Prop :=
  exists f, py_index (length filenames) (d_scene d) = Some f
            /\ length (d_mask d) = get_scene_shape f
            /\ length (d_label_hist d) = NUM_CLASSES.

(** What the accumulators hold after the draws [ds]. *)
Definition accumulated (st : Stats Seed) (ds : list (Draw Seed)) : Prop :=
  label_hist st = vsum NUM_CLASSES (d_label_hist <$> ds)
  /\ length (hist_list st) = length filenames
  /\ length (scene_counters st) = length filenames
  /\ length (seeds_list st) = length filenames
  /\ forall f, (f < length filenames)%nat ->
       hist_list st !! f = Some (vsum (get_scene_shape f) (d_mask <$> draws_on f ds))
       /\ scene_counters st !! f = Some (inject_Z (Z.of_nat (length (draws_on f ds))))
       /\ seeds_list st !! f = Some (d_seed <$> draws_on f ds).

End Accumulation.

Arguments vsum : simpl never.

(** ** Quotients, histograms and paths *)

(** A float64 that may have left the rationals. *)
Inductive npval : Type :=
  | Fin (q : Q)
  | PInf
  | NInf
  | NaN.

(** numpy's true division of two finite floats: dividing by zero does not
    raise, it gives nan for [0/0] and a signed infinity otherwise. *)
Definition np_div (a b : Q) : npval :=
  if Qeq_bool b 0 then
    (if Qeq_bool a 0 then NaN else if Qle_bool a 0 then NInf else PInf)
  else Fin (a / b).

Definition is_finite (v : npval) : bool :=
  match v with Fin _ => true | _ => false end.

(** [v > 0] *)
Definition np_gt0 (v : npval) : bool :=
  match v with
  | Fin q => negb (Qle_bool q 0)
  | PInf => true
  | NInf | NaN => false
  end.

(** The finite entries of an array, or [None] when one is not finite. *)
Fixpoint finite_values (a : list npval) : option (list Q) :=
  match a with
  | [] => Some []
  | Fin q :: a' => (fun l => q :: l) <$> finite_values a'
  | _ :: _ => None
  end.

(** [label_hist/np.sum(label_hist)] (lines 128 and 162). *)
Definition class_density (h : list Q) : list npval :=
  map (fun b => np_div b (np_sum h)) h.

(** The bin of [x] among [bins] equal-width bins over [[lo, hi]]: numpy
    truncates the scaled offset and puts the right edge in the last bin. *)
Definition bin_index (bins : nat) (lo hi x : Q) : nat :=
  let i := Z.to_nat (Qfloor ((x - lo) / (hi - lo) * inject_Z (Z.of_nat bins))) in
  if (i =? bins)%nat then (bins - 1)%nat else i.

(** The range numpy picks for [np.histogram(a, bins)]: [(0, 1)] for an empty
    array, else [(min, max)], widened by a half on both sides when the two
    are equal. *)
Definition hist_range (a : list Q) : Q * Q :=
  let '(lo, hi) := match a with
                   | [] => (0, 1)
                   | x :: l => (fold_left Qmin l x, fold_left Qmax l x)
                   end in
  if Qeq_bool lo hi then (lo - (1 # 2), hi + (1 # 2)) else (lo, hi).

Definition np_histogram (bins : nat) (a : list Q) : list nat :=
  let '(lo, hi) := hist_range a in
  (fun k => length (List.filter (fun x => (bin_index bins lo hi x =? k)%nat) a))
    <$> seq 0 bins.

(** [plt.hist(density, bins=...)]: a range that is not finite raises. *)
Definition plt_hist (bins : nat) (density : list npval) : option (list nat) :=
  np_histogram bins <$> finite_values density.

Fixpoint has_slash (s : string) : bool :=
  match s with
  | EmptyString => false
  | String c s' => if Ascii.eqb c "/"%char then true else has_slash s'
  end.

(** [os.path.basename] *)
Fixpoint basename (s : string) : string :=
  match s with
  | EmptyString => EmptyString
  | String c s' =>
      if has_slash s' then basename s'
      else if Ascii.eqb c "/"%char then s' else String c s'
  end.

Fixpoint ends_with_slash (s : string) : bool :=
  match s with
  | EmptyString => false
  | String c EmptyString => Ascii.eqb c "/"%char
  | String _ s' => ends_with_slash s'
  end.

(** [os.path.join(dir, name)]: an absolute [name] replaces [dir], and the
    separator is added unless [dir] is empty or ends with it. *)
Definition path_join (dir name : string) : string :=
  match name with
  | String "/"%char _ => name
  | _ =>
      match dir with
      | EmptyString => name
      | _ => if ends_with_slash dir then (dir ++ name)%string
             else (dir ++ "/" ++ name)%string
      end
  end.

(** [for i, x in enumerate(l)], starting at index [i]: what the iterations
    emitted, and whether the loop ran to its end ([false]: an iteration
    raised, after the output of the earlier ones). *)
Fixpoint enum_loop {A B : Type} (body : nat -> A -> option (list B))
  (i : nat) (l : list A) : list B * bool :=
  match l with
  | [] => ([], true)
  | x :: l' =>
      match body i x with
      | None => ([], false)
      | Some out =>
          let '(rest, ok) := enum_loop body (S i) l' in (out ++ rest, ok)
      end
  end.

(** ** The statistics pass: histograms and export (lines 160-208) *)

Definition MAX_EXPORT : nat := 20.

(** One saved occurrence histogram: the figure it was drawn on, the values
    that were binned, the bin counts and the file. *)
Record Plot := mkPlot {
  plot_figure : nat;
  plot_values : list npval;
  plot_counts : list nat;
  plot_file : string
}.

(** What [np.savetxt] is given. *)
Inductive FileData (Seed : Type) : Type :=
  | Rows (rows : list (list npval))
  | SeedRows (seeds : list Seed).
Arguments Rows {Seed}.
Arguments SeedRows {Seed}.

(** [np.hstack((point_cloud, density.reshape((-1,1))))] *)
Definition np_hstack_col (cloud : list (list Q)) (col : list npval)
  : option (list (list npval)) :=
  if (length cloud =? length col)%nat
  then Some (zip_with (fun r d => (Fin <$> r) ++ [d]) cloud col)
  else None.

(** [table[mask]] for a boolean [mask] as long as the table. *)
Definition np_select {A : Type} (table : list A) (mask : list bool) : list A :=
  fst <$> List.filter snd (zip table mask).

(** No entry of a written table is an infinity or nan. *)
Definition file_finite {Seed : Type} (d : FileData Seed) : bool :=
  match d with
  | Rows rows => forallb (forallb is_finite) rows
  | SeedRows _ => true
  end.

Section ExportPass.
Context {Seed : Type}.

Variable filenames : list string.
(** [DATA.get_scene(f)]: the rows of scene [f]. *)
Variable get_scene : nat -> list (list Q).
(** [--set] and [--dataset]. *)
Variable SET : string.
Variable DATASET_NAME : string.

Definition OUTPUT_DIR : string := path_join "visu" (DATASET_NAME ++ "_" ++ SET).
Definition OUTPUT_DIR_HIST : string := path_join OUTPUT_DIR "hist".
Definition OUTPUT_DIR_STATS : string := path_join OUTPUT_DIR "color_proba_selection".
Definition OUTPUT_DIR_SEEDS : string := path_join OUTPUT_DIR "seeds".
Definition OUTPUT_DIR_BATCHES : string := path_join OUTPUT_DIR "grouped_by_batches".

(** Line 176. *)
Definition filenamesForExport : list string :=
  take (Nat.min (length filenames) MAX_EXPORT) filenames.

(** [100*hist_list[f]/scene_counters[f]] (line 184). *)
Definition occurrence_density (h : list Q) (c : Q) : list npval :=
  map (fun x => np_div (100 * x) c) h.

(** The body of the loop at line 177. *)
Definition occurrence_scene (st : Stats Seed) (f : nat) (filename : string)
  : option (list Plot) :=
  c ← scene_counters st !! f;
  if Qeq_bool c 0 then Some []
  else
    let fig := if (length filenames <? 4)%nat then (3 + f)%nat else 3%nat in
    h ← hist_list st !! f;
    let density := occurrence_density h c in
    counts ← plt_hist 20 density;
    Some [ {| plot_figure := fig;
              plot_values := density;
              plot_counts := counts;
              plot_file := path_join OUTPUT_DIR_HIST
                             ("proba_scene_" ++ pretty f ++ ".png") |} ].

Definition occurrence_loop (st : Stats Seed) : list Plot * bool :=
  enum_loop (occurrence_scene st) 0 filenamesForExport.

(** [hist_list[f]/np.sum(hist_list[f])] (line 200). *)
Definition export_density (h : list Q) : list npval :=
  map (fun x => np_div x (np_sum h)) h.

Definition stats_file (filename kind : string) : string :=
  (SET ++ "_" ++ basename filename ++ "_" ++ kind ++ ".txt")%string.

(** The body of the loop at line 197. *)
Definition export_scene (st : Stats Seed) (f : nat) (filename : string)
  : option (list (string * FileData Seed)) :=
  h ← hist_list st !! f;
  if Qeq_bool (np_sum h) 0 then Some []
  else
    let density := export_density h in
    let point_cloud := get_scene f in
    table ← np_hstack_col point_cloud density;
    let mask := np_gt0 <$> density in
    seeds ← seeds_list st !! f;
    Some [ (path_join OUTPUT_DIR_STATS (stats_file filename "appearance_density"),
            Rows table);
           (path_join OUTPUT_DIR_STATS (stats_file filename "appearance_density_cleaned"),
            Rows (np_select table mask));
           (path_join OUTPUT_DIR_SEEDS (stats_file filename "seeds"),
            SeedRows seeds) ].

Definition export_loop (st : Stats Seed) : list (string * FileData Seed) * bool :=
  enum_loop (export_scene st) 0 filenamesForExport.

(** Line 162: the sampled-input class histogram. *)
Definition input_density_hist (st : Stats Seed) : list npval :=
  class_density (label_hist st).

End ExportPass.

(** ** numpy on two-dimensional arrays

    A two-dimensional array is the list of its rows. *)

(** [a.reshape((-1,3))] of the flattened array [l]. *)
Fixpoint reshape3 (l : list Q) : option (list (list Q)) :=
  match l with
  | [] => Some []
  | a :: b :: c :: l' => (fun rows => [a; b; c] :: rows) <$> reshape3 l'
  | _ => None
  end.

(** [np.min(a, axis=0)] and [np.max(a, axis=0)]: an array without rows has
    no minimum and raises. *)
Definition np_min_axis0 (rows : list (list Q)) : option (list Q) :=
  match rows with
  | [] => None
  | r :: rs => Some (fold_left (zip_with Qmin) rs r)
  end.

Definition np_max_axis0 (rows : list (list Q)) : option (list Q) :=
  match rows with
  | [] => None
  | r :: rs => Some (fold_left (zip_with Qmax) rs r)
  end.

(** [a op v] for a two-dimensional [a] and a one-dimensional [v]: [v] is
    broadcast against every row. *)
Definition np_rows (op : Q -> Q -> Q) (a : list (list Q)) (v : list Q)
  : option (list (list Q)) :=
  mapM (fun r => np_broadcast op r v) a.

Definition row_width (a : list (list Q)) : nat :=
  match a with
  | [] => 0%nat
  | r :: _ => length r
  end.

(** [np.vstack(arrays)]: needs at least one array, and one width. *)
Definition np_vstack (arrays : list (list (list Q))) : option (list (list Q)) :=
  match arrays with
  | [] => None
  | a :: _ =>
      if forallb (fun r => (length r =? row_width a)%nat) (concat arrays)
      then Some (concat arrays)
      else None
  end.

(** [np.hstack(arrays)] of one-dimensional arrays. *)
Definition np_hstack {A : Type} (arrays : list (list A)) : option (list A) :=
  match arrays with
  | [] => None
  | _ => Some (concat arrays)
  end.

Arguments np_vstack : simpl never.
Arguments np_hstack : simpl never.

(** [a[:,lo:hi]] *)
Definition columns (lo hi : nat) (a : list (list Q)) : list (list Q) :=
  (fun r => drop lo (take hi r)) <$> a.

(** [x.astype(int)]: truncation towards zero. *)
Definition astype_int (x : Q) : Z := Z.quot (Qnum x) (Zpos (Qden x)).

(** ** The batch pass (lines 210-266) *)

(** One result of [DATA.next_batch(BATCH_SIZE, AUGMENT, DROPOUT)]: the scenes
    and their label rows (the third component is not used). *)
Record Batch := mkBatch {
  b_data : list (list (list Q));
  b_labels : list (list Z)
}.

(** The composite of grid mode. *)
Record Composite := mkComposite {
  visu_cloud : list (list Q);
  visu_labels : list Z
}.

(** What [pc_util.write_ply_true_color] and [pc_util.write_ply_color] are
    given, apart from the path. *)
Inductive Ply : Type :=
  | TrueColor (points colors : list (list Q))
  | LabelColor (points : list (list Q)) (labels : list Z) (num_classes : nat).

(** The files on disk: writing a path again replaces what was there. *)
Definition write_all (log : list (string * Ply)) (disk : gmap string Ply)
  : gmap string Ply :=
  fold_left (fun d w => <[fst w := snd w]> d) log disk.

(** Lines 219-225: the cell spacing, from the first scene of the probe
    batch. *)
Definition grid_probe (data : list (list (list Q))) : option (Q * Q) :=
  scene ← data !! 0%nat;
  pts ← reshape3 (concat (take 3 <$> scene));
  mn ← np_min_axis0 pts;
  mx ← np_max_axis0 pts;
  match mn, mx with
  | [xmin; ymin; _], [xmax; ymax; _] => Some (xmax - xmin + 15, ymax - ymin + 15)
  | _, _ => None
  end.

(** Lines 226-231.  The one-dimensional initial cloud is one row for
    [np.vstack]. *)
Definition grid_init (use_color : bool) : Composite :=
  {| visu_cloud := [if use_color then [0; 0; 0; 0; 0; 0] else [0; 0; 0]];
     visu_labels := [0%Z] |}.

(** Lines 240-242. *)
Definition cell_origin (xsize ysize : Q) (i j : nat) : list Q :=
  [inject_Z (Z.of_nat j) * xsize; inject_Z (Z.of_nat i) * ysize; 0].

(** Lines 243-246. *)
Definition position_scene (use_color : bool) (xsize ysize : Q) (i j : nat)
  (scene : list (list Q)) : option (list (list Q)) :=
  mn ← np_min_axis0 scene;
  if use_color then
    shifted ← np_rows Qplus scene (cell_origin xsize ysize i j ++ [0; 0; 0]);
    base ← np_broadcast Qmult mn [1; 1; 1; 0; 0; 0];
    np_rows Qminus shifted base
  else
    shifted ← np_rows Qplus scene (cell_origin xsize ysize i j);
    np_rows Qminus shifted mn.

(** Lines 238-247: the repositioned scenes of batch [i], stacked. *)
Definition batch_points (use_color : bool) (xsize ysize : Q) (i : nat)
  (data : list (list (list Q))) : option (list (list Q)) :=
  positioned ← mapM (fun js => position_scene use_color xsize ysize i (fst js) (snd js))
                    (imap pair data);
  np_vstack positioned.

(** Lines 237-250: one iteration of the main loop in grid mode. *)
Definition grid_step (use_color : bool) (xsize ysize : Q) (i : nat)
  (st : Composite) (b : Batch) : option Composite :=
  pts ← batch_points use_color xsize ysize i (b_data b);
  cloud ← np_vstack [visu_cloud st; pts];
  batch_labels ← np_hstack (b_labels b);
  labels ← np_hstack [visu_labels st; batch_labels];
  Some {| visu_cloud := cloud; visu_labels := labels |}.

(** [(255*cloud[:,3:6]).astype(int)] and [np.zeros(cloud[:,0:3].shape)]. *)
Definition color_channels (cloud : list (list Q)) : list (list Q) :=
  map (map (fun c : Q => inject_Z (astype_int (255 * c)))) (columns 3 6 cloud).

Definition zero_channels (cloud : list (list Q)) : list (list Q) :=
  map (map (fun _ : Q => 0)) (columns 0 3 cloud).

(** The arguments of [write_ply_true_color] for a cloud. *)
Definition true_color_ply (use_color : bool) (cloud : list (list Q)) : Ply :=
  if use_color
  then TrueColor (columns 0 3 cloud) (color_channels cloud)
  else TrueColor (columns 0 3 cloud) (zero_channels cloud).

Section Batches.
Variable Accessor : Type.
Variable next_batch : Accessor -> Batch * Accessor.

Variable SET : string.
Variable DATASET_NAME : string.
Variable NUM_CLASSES : nat.
(** [PARAMS['use_color']] and the option [--n]. *)
Variable use_color : bool.
Variable NBATCH : Z.

Definition batches_dir : string := OUTPUT_DIR_BATCHES SET DATASET_NAME.

(** The accessor after [n] calls of [next_batch], and what they returned. *)
Fixpoint batch_calls (n : nat) (a : Accessor) : Accessor :=
  match n with
  | O => a
  | S n' => batch_calls n' (snd (next_batch a))
  end.

Fixpoint batch_seq (n : nat) (a : Accessor) : list Batch :=
  match n with
  | O => []
  | S n' => fst (next_batch a) :: batch_seq n' (snd (next_batch a))
  end.

(** [n] iterations of the loop at line 233 in grid mode, from batch
    index [i]. *)
Fixpoint grid_loop (xsize ysize : Q) (n i : nat) (st : Composite) (a : Accessor)
  : option (Composite * Accessor) :=
  match n with
  | O => Some (st, a)
  | S n' =>
      let '(b, a') := next_batch a in
      st' ← grid_step use_color xsize ysize i st b;
      grid_loop xsize ysize n' (S i) st' a'
  end.

(** Lines 261-266. *)
Definition grid_export (st : Composite) : list (string * Ply) :=
  [ ((batches_dir ++ "/" ++ SET ++ "_" ++ "trueColors" ++ ".txt")%string,
     true_color_ply use_color (visu_cloud st));
    ((batches_dir ++ "/" ++ SET ++ "_" ++ "labelColors" ++ ".txt")%string,
     LabelColor (columns 0 3 (visu_cloud st)) (visu_labels st) NUM_CLASSES) ].

(** The batch pass with [GROUP_BY_BATCHES = True]: the probe, the main
    loop and the export. *)
Definition grid_pass (a : Accessor) : option (list (string * Ply) * Accessor) :=
  if (0 <? NBATCH)%Z then
    let '(probe, a1) := next_batch a in
    '(xsize, ysize) ← grid_probe (b_data probe);
    '(st, a2) ← grid_loop xsize ysize (range_len NBATCH) 0 (grid_init use_color) a1;
    Some (grid_export st, a2)
  else Some ([], a).

(** Lines 253-259: the exports of scene [j] of a batch. *)
Definition scene_export (b : Batch) (j : nat) (scene : list (list Q))
  : option (list (string * Ply)) :=
  labels ← b_labels b !! j;
  Some [ ((batches_dir ++ "/" ++ SET ++ "_" ++ "trueColors" ++ "_" ++ pretty j ++ ".txt")%string,
          true_color_ply use_color scene);
         ((batches_dir ++ "/" ++ SET ++ "_" ++ "labelColors" ++ "_" ++ pretty j ++ ".txt")%string,
          LabelColor (columns 0 3 scene) labels NUM_CLASSES) ].

(** [n] iterations of the loop at line 233 with [GROUP_BY_BATCHES = False]:
    the writes made, in order, and whether the loop ran to its end. *)
Fixpoint fallback_loop (n : nat) (a : Accessor) : list (string * Ply) * bool :=
  match n with
  | O => ([], true)
  | S n' =>
      let '(b, a') := next_batch a in
      match enum_loop (scene_export b) 0 (b_data b) with
      | (out, false) => (out, false)
      | (out, true) =>
          let '(rest, ok) := fallback_loop n' a' in (out ++ rest, ok)
      end
  end.

Definition fallback_pass (a : Accessor) : list (string * Ply) * bool :=
  fallback_loop (range_len NBATCH) a.

End Batches.

(** ** Bounding boxes

    The axis-aligned bounding box of a cloud over its three spatial axes,
    and whether two boxes have a point in common. *)

Definition intervals_meet (lo1 hi1 lo2 hi2 : Q) : bool :=
  (Qle_bool lo1 hi2 && Qle_bool lo2 hi1)%bool.

Definition boxes_overlap (a b : list (list Q)) : option bool :=
  mn1 ← np_min_axis0 a; mx1 ← np_max_axis0 a;
  mn2 ← np_min_axis0 b; mx2 ← np_max_axis0 b;
  match mn1, mx1, mn2, mx2 with
  | x1 :: y1 :: z1 :: _, X1 :: Y1 :: Z1 :: _,
    x2 :: y2 :: z2 :: _, X2 :: Y2 :: Z2 :: _ =>
      Some (intervals_meet x1 X1 x2 X2 && intervals_meet y1 Y1 y2 Y2
            && intervals_meet z1 Z1 z2 Z2)%bool
  | _, _, _, _ => None
  end.

(** The extent of a cloud along its first two axes. *)
Definition extent_xy (a : list (list Q)) : option (Q * Q) :=
  mn ← np_min_axis0 a; mx ← np_max_axis0 a;
  match mn, mx with
  | x :: y :: _, X :: Y :: _ => Some (X - x, Y - y)
  | _, _ => None
  end.

(** A batch whose scenes are not empty, have rows of width [w], and have one
    label per point. *)
Definition wf_scene (w : nat) (scene : list (list Q)) : Prop :=
  scene <> [] /\ Forall (fun r => length r = w) scene.

Definition labels_match (b : Batch) : Prop :=
  Forall2 (fun scene labels => length scene = length labels) (b_data b) (b_labels b).

Definition wf_batch (w : nat) (b : Batch) : Prop :=
  b_data b <> [] /\ Forall (wf_scene w) (b_data b).

(** The row width the grid expects. *)
Definition grid_width (use_color : bool) : nat := if use_color then 6%nat else 3%nat.

(** ** Scripted accessors

    An accessor that replays a fixed script of results, and the scenario of
    two scenes with four and two points, three inputs per scene. *)

Definition scripted {A : Type} (dflt : A) (script : list A) : A * list A :=
  match script with
  | [] => (dflt, [])
  | x :: rest => (x, rest)
  end.

Definition idle_draw : Draw nat :=
  {| d_scene := 0; d_mask := []; d_label_hist := []; d_seed := 0%nat |}.

Definition two_scenes : list string := ["scenes/a.npy"; "scenes/b.npy"]%string.

Definition two_scenes_shape (f : nat) : nat :=
  match f with
  | O => 4%nat
  | _ => 2%nat
  end.

Definition two_scenes_draws : list (Draw nat) :=
  [ {| d_scene := 0; d_mask := [1; 0; 1; 0]; d_label_hist := [2; 0]; d_seed := 0%nat |};
    {| d_scene := 0; d_mask := [0; 1; 0; 0]; d_label_hist := [0; 1]; d_seed := 1%nat |};
    {| d_scene := 0; d_mask := [1; 0; 0; 0]; d_label_hist := [1; 0]; d_seed := 0%nat |};
    {| d_scene := 1; d_mask := [1; 1]; d_label_hist := [1; 1]; d_seed := 0%nat |};
    {| d_scene := 1; d_mask := [0; 0]; d_label_hist := [0; 0]; d_seed := 1%nat |};
    {| d_scene := 1; d_mask := [1; 0]; d_label_hist := [0; 1]; d_seed := 0%nat |} ].

(** The rows [DATA.get_scene(f)] of the two scenes: unit squares of points. *)
Definition two_scenes_cloud (f : nat) : list (list Q) :=
  match f with
  | O => [[0; 0; 0]; [1; 0; 0]; [0; 1; 0]; [1; 1; 0]]
  | _ => [[0; 0; 1]; [1; 0; 1]]
  end.

(** The accumulators after the six draws of the scenario. *)
Definition two_scenes_stats : Stats nat :=
  Eval vm_compute in
    match stats_pass (list (Draw nat)) (scripted idle_draw)
            two_scenes two_scenes_shape 2 3 two_scenes_draws with
    | Some (st, _) => st
    | None => stats_init two_scenes two_scenes_shape 2
    end.

(** Batches of two scenes of extent ten by ten with two points each, and an
    accessor state that returns three of them. *)
Definition idle_batch : Batch := {| b_data := []; b_labels := [] |}.

Definition square_batch : Batch :=
  {| b_data := [ [[2; 3; 0]; [12; 13; 1]]; [[-5; 0; 0]; [5; 10; 2]] ];
     b_labels := [ [1; 2]%Z; [0; 3]%Z ] |}.

Definition square_batches : list Batch := [square_batch; square_batch; square_batch].

(** A batch whose first scene is thirty wide, three times the extent the
    probe of [square_batches] measures. *)
Definition wide_batch : Batch :=
  {| b_data := [ [[0; 0; 0]; [30; 10; 0]]; [[0; 0; 0]; [10; 10; 0]] ];
     b_labels := [ [1; 2]%Z; [0; 3]%Z ] |}.


(** ** Shapes and acceptable draws

    The shapes the accumulators are created with at lines 143-148, and the
    draws that the body of the accumulation loop takes without raising: the
    scene index is in range for Python, and the mask and the class counts
    either have the length of their accumulator or a single entry that numpy
    stretches. *)

Definition stats_shaped {Seed : Type} (filenames : list string)
  (get_scene_shape : nat -> nat) (NUM_CLASSES : nat) (st : Stats Seed) : Prop :=
  length (hist_list st) = length filenames
  /\ length (scene_counters st) = length filenames
  /\ length (seeds_list st) = length filenames
  /\ length (label_hist st) = NUM_CLASSES
  /\ forall f h, hist_list st !! f = Some h -> length h = get_scene_shape f.

Definition draw_ok {Seed : Type} (filenames : list string)
  (get_scene_shape : nat -> nat) (NUM_CLASSES : nat) (d : Draw Seed) : bool :=
  match py_index (length filenames) (d_scene d) with
  | None => false
  | Some f =>
      ((length (d_mask d) =? get_scene_shape f)%nat || (length (d_mask d) =? 1)%nat)
      && ((length (d_label_hist d) =? NUM_CLASSES)%nat
          || (length (d_label_hist d) =? 1)%nat)
  end%bool.

(** ** The bins of the occurrence histogram

    What [plt.hist(density, bins=20)] of line 186 counts, by numpy's
    account of [np.histogram]: [bins] bins of equal width between the least
    and the greatest value, widened by one half on each side when the two
    are equal, and from 0 to 1 when there is no value; a value belongs to
    the bin whose left edge it reaches without reaching the right edge, the
    last bin keeping its right edge too. *)




(** ** Repositioning in rounded arithmetic

    Lines 240-246 on float64 arrays: each product, sum and difference is
    rounded to a number the format has, which [rnd] stands for; the minimum
    of a column is one of its entries and takes no rounding, and the third
    coordinate of the cell origin is the literal 0.  With the identity for
    [rnd] this is [position_scene]. *)

Section Rounded.
Variable rnd : Q -> Q.

Definition fl_add (a b : Q) : Q := rnd (a + b).
Definition fl_sub (a b : Q) : Q := rnd (a - b).
Definition fl_mul (a b : Q) : Q := rnd (a * b).

(** Lines 240-242. *)
Definition cell_origin_fl (xsize ysize : Q) (i j : nat) : list Q :=
  [fl_mul (inject_Z (Z.of_nat j)) xsize; fl_mul (inject_Z (Z.of_nat i)) ysize; 0].

(** Lines 243-246. *)
Definition position_scene_fl (use_color : bool) (xsize ysize : Q) (i j : nat)
  (scene : list (list Q)) : option (list (list Q)) :=
  mn ← np_min_axis0 scene;
  if use_color then
    shifted ← np_rows fl_add scene (cell_origin_fl xsize ysize i j ++ [0; 0; 0]);
    base ← np_broadcast fl_mul mn [1; 1; 1; 0; 0; 0];
    np_rows fl_sub shifted base
  else
    shifted ← np_rows fl_add scene (cell_origin_fl xsize ysize i j);
    np_rows fl_sub shifted mn.

End Rounded.

(** The rounding [rnd] moves no number between [-bound] and [bound] by more
    than [eps]; for float64 and numbers below the overflow threshold,
    [eps] can be [bound / 2^53]. *)
Definition rounds_within (rnd : Q -> Q) (eps bound : Q) : Prop :=
  forall v, - bound <= v <= bound -> v - eps <= rnd v <= v + eps.

(** Every entry of the cloud is between [-B] and [B]. *)
Definition coords_within (B : Q) (cloud : list (list Q)) : Prop :=
  Forall (Forall (fun c => - B <= c <= B)) cloud.

(** The origin of cell [(i, j)] has its coordinates between [-B] and [B]. *)
Definition cell_within (B xsize ysize : Q) (i j : nat) : Prop :=
  - B <= inject_Z (Z.of_nat j) * xsize <= B
  /\ - B <= inject_Z (Z.of_nat i) * ysize <= B.

(** Rounding down to a multiple of one eighth. *)
Definition round_eighths (v : Q) : Q := inject_Z (Qfloor (8 * v)) / 8.

(** ** Further scenarios *)

(** An accessor whose second scene has lost its rows since the shapes were
    read. *)
Definition truncated_cloud (f : nat) : list (list Q) :=
  match f with
  | O => two_scenes_cloud 0
  | _ => []
  end.

(** A batch whose scenes carry a fourth column beside the coordinates. *)
Definition four_column_batch : Batch :=
  {| b_data := [ [[2; 3; 0; 7]; [12; 13; 1; 8]] ];
     b_labels := [ [1; 2]%Z ] |}.

(** The composite after the two batches that follow the probe in
    [square_batches]. *)
Definition square_composite : Composite :=
  Eval vm_compute in
    match grid_loop (list Batch) (scripted idle_batch) false 25 25 2 0 (grid_init false)
            (tail square_batches) with
    | Some (st, _) => st
    | None => grid_init false
    end.

(** The paths the fallback mode can write for batches of at most [m]
    scenes (lines 256-259). *)
Definition fallback_paths (SET DATASET_NAME : string) (m : nat) : list string :=
  flat_map
    (fun j : nat =>
       [ (batches_dir SET DATASET_NAME ++ "/" ++ SET ++ "_" ++ "trueColors" ++ "_"
            ++ pretty j ++ ".txt")%string;
         (batches_dir SET DATASET_NAME ++ "/" ++ SET ++ "_" ++ "labelColors" ++ "_"
            ++ pretty j ++ ".txt")%string ])
    (seq 0 m).

(** ** Parameters (lines 51-55 and 80-82) *)

Section Params.
(** The values of a JSON object. *)
Variable Json : Type.

(** [PARAMS.update(CUSTOM)] on [PARAMS] read from [default.json]. *)
Definition merge_params (default custom : gmap string Json) : gmap string Json :=
  custom ∪ default.

(** The five subscripts [PARAMS['...']] of lines 80-82, in the order they
    are evaluated; a missing key raises [KeyError]. *)
Definition dataset_params (params : gmap string Json)
  : option (Json * Json * Json * Json * Json) :=
  box_size ← params !! "box_size"%string;
  use_color ← params !! "use_color"%string;
  input_dropout ← params !! "input_dropout"%string;
  data_path ← params !! "data_path"%string;
  use_z_feature ← params !! "use_z_feature"%string;
  Some (box_size, use_color, input_dropout, data_path, use_z_feature).

Definition dataset_keys : list string :=
  ["box_size"; "use_color"; "input_dropout"; "data_path"; "use_z_feature"]%string.

End Params.

(** A default configuration with the five keys, and a custom one that
    gives another box size. *)
Definition default_params : gmap string nat :=
  list_to_map [("box_size", 10); ("use_color", 0); ("input_dropout", 0);
               ("data_path", 1); ("use_z_feature", 0)]%string%nat.

Definition custom_params : gmap string nat :=
  {[ "box_size"%string := 50%nat ]}.

(** * Properties *)

(** ** Arithmetic and indexing *)

Lemma py_index_lt len f i : py_index len f = Some i -> (i < len)%nat.
Proof.
  unfold py_index.
  destruct ((0 <=? f)%Z && (f <? Z.of_nat len)%Z)%bool eqn:E1.
  - intros [= <-]. apply andb_prop in E1 as [H1 H2]. lia.
  - destruct ((- Z.of_nat len <=? f)%Z && (f <? 0)%Z)%bool eqn:E2; [|done].
    intros [= <-]. apply andb_prop in E2 as [H1 H2]. lia.
Qed.

Lemma py_index_nat len (f : nat) : (f < len)%nat -> py_index len (Z.of_nat f) = Some f.
Proof.
  intros H. unfold py_index.
  replace ((0 <=? Z.of_nat f)%Z && (Z.of_nat f <? Z.of_nat len)%Z)%bool with true.
  - by rewrite Nat2Z.id.
  - symmetry. apply andb_true_intro. split; lia.
Qed.

Lemma np_iadd_same a b :
  length b = length a -> np_iadd a b = Some (zip_with Qplus a b).
Proof. intros H. unfold np_iadd. by rewrite H, Nat.eqb_refl. Qed.

Lemma inject_Z_succ (k : nat) :
  inject_Z (Z.of_nat k) + 1 = inject_Z (Z.of_nat (S k)).
Proof. unfold Qplus, inject_Z. simpl Qnum. simpl Qden. f_equal. lia. Qed.

Lemma length_np_zeros n : length (np_zeros n) = n.
Proof. apply length_replicate. Qed.

Lemma length_zip_with_same (a b : list Q) :
  length b = length a -> length (zip_with Qplus a b) = length a.
Proof. intros H. rewrite length_zip_with. lia. Qed.

Lemma length_fold_zip (vs : list (list Q)) (acc : list Q) :
  Forall (fun v => length v = length acc) vs ->
  length (fold_left (zip_with Qplus) vs acc) = length acc.
Proof.
  revert acc. induction vs as [|v vs IH]; intros acc Hvs; [done|].
  inversion Hvs as [|? ? Hv Hrest]; subst. simpl.
  rewrite IH.
  - by apply length_zip_with_same.
  - rewrite length_zip_with_same by done. done.
Qed.

Lemma length_vsum n vs :
  Forall (fun v => length v = n) vs -> length (vsum n vs) = n.
Proof.
  intros H. unfold vsum. rewrite length_fold_zip; rewrite length_np_zeros; done.
Qed.

Lemma vsum_snoc n vs v : vsum n (vs ++ [v]) = zip_with Qplus (vsum n vs) v.
Proof. unfold vsum. by rewrite fold_left_app. Qed.

(** ** Accumulation *)

Section AccumulationFacts.
Context {Seed : Type}.
Variable Accessor : Type.
Variable next_input : Accessor -> Draw Seed * Accessor.
Variable filenames : list string.
Variable get_scene_shape : nat -> nat.
Variable NUM_CLASSES : nat.

Abbreviation wf := (@wf_draw Seed filenames get_scene_shape NUM_CLASSES).
Abbreviation acc := (@accumulated Seed filenames get_scene_shape NUM_CLASSES).
Abbreviation init := (@stats_init Seed filenames get_scene_shape NUM_CLASSES).
Abbreviation on := (@draws_on Seed filenames).

Lemma draws_on_snoc f (ds : list (Draw Seed)) d :
  on f (ds ++ [d]) = on f ds ++ (if on_scene filenames f d then [d] else []).
Proof. unfold draws_on. rewrite List.filter_app. simpl. by destruct (on_scene _ _ _). Qed.

Lemma draws_on_wf f (ds : list (Draw Seed)) :
  Forall wf ds ->
  Forall (fun v => length v = get_scene_shape f) (d_mask <$> on f ds).
Proof.
  induction 1 as [|d ds Hd _ IH]; [constructor|].
  unfold draws_on. simpl. destruct (on_scene filenames f d) eqn:E; [|exact IH].
  simpl. constructor; [|exact IH].
  unfold on_scene in E. apply bool_decide_eq_true in E.
  destruct Hd as (f' & Hf' & Hm & _). congruence.
Qed.

Lemma stats_init_accumulated : acc init [].
Proof.
  unfold accumulated, stats_init. simpl.
  rewrite !length_fmap, !length_seq, length_np_zeros.
  repeat split; try done.
  - rewrite list_lookup_fmap, lookup_seq_lt by done. done.
  - unfold np_zeros. by rewrite lookup_replicate_2.
  - rewrite list_lookup_fmap, lookup_seq_lt by done. done.
Qed.

Lemma stats_step_accumulated st ds d :
  Forall wf ds -> wf d -> acc st ds ->
  exists st', stats_step st d = Some st' /\ acc st' (ds ++ [d]).
Proof.
  intros Hds (f & Hf & Hm & Hl) (Hlab & Lh & Lc & Ls & Hsc).
  pose proof (py_index_lt _ _ _ Hf) as Hlt.
  destruct (Hsc f Hlt) as (Hh & Hc & Hs).
  unfold stats_step. rewrite Lh, Lc, Ls, Hf. simpl.
  rewrite Hh, Hc, Hs. simpl.
  rewrite (np_iadd_same _ (d_mask d)).
  2:{ rewrite Hm. symmetry. apply length_vsum. by apply draws_on_wf. }
  simpl. rewrite (np_iadd_same _ (d_label_hist d)).
  2:{ rewrite Hl, Hlab. symmetry. apply length_vsum.
      apply Forall_fmap. eapply Forall_impl; [exact Hds|].
      intros x (? & _ & _ & Hx). exact Hx. }
  simpl. eexists. split; [reflexivity|].
  unfold accumulated. simpl. rewrite !length_insert.
  repeat split; try done.
  - rewrite fmap_app. simpl. by rewrite vsum_snoc, Hlab.
  - rename H into Hf0. rewrite draws_on_snoc. unfold on_scene.
    destruct (decide (f0 = f)) as [->|Hne].
    + rewrite bool_decide_eq_true_2 by done.
      rewrite list_lookup_insert_eq by lia.
      rewrite fmap_app. simpl. by rewrite vsum_snoc.
    + rewrite bool_decide_eq_false_2 by congruence.
      rewrite list_lookup_insert_ne by done. rewrite app_nil_r.
      by destruct (Hsc f0 Hf0) as (? & _).
  - rename H into Hf0. rewrite draws_on_snoc. unfold on_scene.
    destruct (decide (f0 = f)) as [->|Hne].
    + rewrite bool_decide_eq_true_2 by done.
      rewrite list_lookup_insert_eq by lia.
      rewrite length_app. simpl. rewrite Nat.add_1_r. by rewrite inject_Z_succ.
    + rewrite bool_decide_eq_false_2 by congruence.
      rewrite list_lookup_insert_ne by done. rewrite app_nil_r.
      by destruct (Hsc f0 Hf0) as (_ & ? & _).
  - rename H into Hf0. rewrite draws_on_snoc. unfold on_scene.
    destruct (decide (f0 = f)) as [->|Hne].
    + rewrite bool_decide_eq_true_2 by done.
      rewrite list_lookup_insert_eq by lia.
      by rewrite fmap_app.
    + rewrite bool_decide_eq_false_2 by congruence.
      rewrite list_lookup_insert_ne by done. rewrite app_nil_r.
      by destruct (Hsc f0 Hf0) as (_ & _ & ?).
Qed.

Lemma stats_loop_from n : forall st ds0 a,
  Forall wf ds0 -> Forall wf (draw_seq Accessor next_input n a) ->
  acc st ds0 ->
  exists st', stats_loop Accessor next_input n st a
              = Some (st', calls Accessor next_input n a)
              /\ acc st' (ds0 ++ draw_seq Accessor next_input n a).
Proof.
  induction n as [|n IH]; intros st ds0 a Hds0 Hds Hacc.
  - exists st. simpl. by rewrite app_nil_r.
  - simpl in *. destruct (next_input a) as [d a'] eqn:E. simpl in *.
    inversion Hds as [|? ? Hd Hrest]; subst.
    destruct (stats_step_accumulated st ds0 d Hds0 Hd Hacc) as (st1 & Hstep & Hacc1).
    rewrite Hstep. simpl.
    destruct (IH st1 (ds0 ++ [d]) a') as (st' & Hloop & Hacc'); try done.
    { apply Forall_app. split; [done|by constructor]. }
    exists st'. split; [done|]. by rewrite <- app_assoc in Hacc'.
Qed.

Lemma stats_loop_accumulated n a :
  Forall wf (draw_seq Accessor next_input n a) ->
  exists st, stats_loop Accessor next_input n init a
             = Some (st, calls Accessor next_input n a)
             /\ acc st (draw_seq Accessor next_input n a).
Proof.
  intros H.
  destruct (stats_loop_from n init [] a) as (st & ? & ?); try done.
  - apply stats_init_accumulated.
  - by exists st.
Qed.

Lemma length_draw_seq n a : length (draw_seq Accessor next_input n a) = n.
Proof. revert a. induction n as [|n IH]; intros a; simpl; [done|by rewrite IH]. Qed.

Lemma draw_seq_take n m a : (n <= m)%nat ->
  draw_seq Accessor next_input n a = take n (draw_seq Accessor next_input m a).
Proof.
  revert m a. induction n as [|n IH]; intros m a Hle; [done|].
  destruct m as [|m]; [lia|]. simpl. f_equal. apply IH. lia.
Qed.

(** C1.  With a non-negative number [STAT_INPUT_NB] of inputs per scene and
    draws that name a scene of the dataset with a mask as long as that
    scene and class counts as long as the class list, the accumulation
    loop calls the sampling primitive exactly
    [STAT_INPUT_NB * len(filenames)] times and ends without error; after
    any number [N] of those draws, [label_hist] is the elementwise sum of
    the [N] class-count vectors drawn, and for every scene [f],
    [hist_list[f]] is the elementwise sum of the masks drawn for [f],
    [scene_counters[f]] their number and [seeds_list[f]] their seeds in
    the order drawn. *)
Theorem stats_accumulation_correct (STAT_INPUT_NB : Z) (a : Accessor) :
  (0 <= STAT_INPUT_NB)%Z ->
  let total := (Z.to_nat STAT_INPUT_NB * length filenames)%nat in
  Forall wf (draw_seq Accessor next_input total a) ->
  (exists st,
      stats_pass Accessor next_input filenames get_scene_shape NUM_CLASSES
        STAT_INPUT_NB a
      = Some (st, calls Accessor next_input total a)
      /\ length (draw_seq Accessor next_input total a) = total
      /\ acc st (draw_seq Accessor next_input total a))
  /\ (forall N, (N <= total)%nat ->
       exists st,
         stats_loop Accessor next_input N init a
         = Some (st, calls Accessor next_input N a)
         /\ acc st (draw_seq Accessor next_input N a)).
Proof.
  intros HS total Hwf. split.
  - destruct (stats_loop_accumulated total a Hwf) as (st & Hloop & Hacc).
    exists st. split; [|split; [|exact Hacc]].
    + unfold stats_pass, range_len.
      replace (Z.to_nat (STAT_INPUT_NB * Z.of_nat (length filenames))) with total
        by (unfold total; lia).
      exact Hloop.
    + apply length_draw_seq.
  - intros N HN. apply stats_loop_accumulated.
    rewrite (draw_seq_take N total) by done. by apply Forall_take.
Qed.

End AccumulationFacts.

Lemma two_scenes_draws_wf :
  Forall (wf_draw two_scenes two_scenes_shape 2)
    (draw_seq (list (Draw nat)) (scripted idle_draw) 6 two_scenes_draws).
Proof.
  repeat (constructor; [eexists; repeat split; reflexivity|]). constructor.
Defined.

Lemma stats_accumulation_witness :
  (0 <= 3)%Z
  /\ Forall (wf_draw two_scenes two_scenes_shape 2)
       (draw_seq (list (Draw nat)) (scripted idle_draw) 6 two_scenes_draws)
  /\ ((exists st,
        stats_pass (list (Draw nat)) (scripted idle_draw) two_scenes two_scenes_shape 2
          3 two_scenes_draws
        = Some (st, calls (list (Draw nat)) (scripted idle_draw) 6 two_scenes_draws)
        /\ length (draw_seq (list (Draw nat)) (scripted idle_draw) 6 two_scenes_draws) = 6%nat
        /\ accumulated two_scenes two_scenes_shape 2 st
             (draw_seq (list (Draw nat)) (scripted idle_draw) 6 two_scenes_draws))
     /\ (forall N, (N <= 6)%nat ->
         exists st,
           stats_loop (list (Draw nat)) (scripted idle_draw) N
             (stats_init two_scenes two_scenes_shape 2) two_scenes_draws
           = Some (st, calls (list (Draw nat)) (scripted idle_draw) N two_scenes_draws)
           /\ accumulated two_scenes two_scenes_shape 2 st
                (draw_seq (list (Draw nat)) (scripted idle_draw) N two_scenes_draws))).
Proof.
  split; [lia|]. split; [exact two_scenes_draws_wf|].
  apply (stats_accumulation_correct (list (Draw nat)) (scripted idle_draw)
           two_scenes two_scenes_shape 2 3 two_scenes_draws);
    [lia | exact two_scenes_draws_wf].
Defined.

(** ** Quotients and loops over a list *)

Lemma np_div_nonzero a b : ~ b == 0 -> np_div a b = Fin (a / b).
Proof.
  intros H. unfold np_div.
  destruct (Qeq_bool b 0) eqn:E; [|done].
  apply Qeq_bool_iff in E. contradiction.
Qed.

Lemma fold_left_Qplus_Qeq (l : list Q) (a a' : Q) :
  a == a' -> fold_left Qplus l a == fold_left Qplus l a'.
Proof.
  revert a a'. induction l as [|x l IH]; intros a a' H; simpl; [done|].
  apply IH. by rewrite H.
Qed.

Lemma fold_left_Qplus_div (l : list Q) (t a : Q) :
  ~ t == 0 ->
  fold_left Qplus (map (fun c => c / t) l) (a / t) == fold_left Qplus l a / t.
Proof.
  intros Ht. revert a. induction l as [|x l IH]; intros a; simpl; [reflexivity|].
  rewrite <- IH. apply fold_left_Qplus_Qeq. field. exact Ht.
Qed.

Lemma np_sum_normalised (h : list Q) :
  ~ np_sum h == 0 -> np_sum (map (fun c => c / np_sum h) h) == 1.
Proof.
  intros Ht. unfold np_sum at 1.
  rewrite (fold_left_Qplus_Qeq _ 0 (0 / np_sum h)) by (field; exact Ht).
  rewrite fold_left_Qplus_div by exact Ht.
  fold (np_sum h). field. exact Ht.
Qed.

Lemma np_sum_zeros n : np_sum (np_zeros n) = 0.
Proof.
  unfold np_sum, np_zeros. induction n as [|n IH]; [done|]. simpl. exact IH.
Qed.

Lemma enum_loop_total {A B : Type} (body : nat -> A -> option (list B)) (l : list A) :
  forall i,
    (forall k x, l !! k = Some x -> is_Some (body (i + k)%nat x)) ->
    enum_loop body i l
    = (concat (imap (fun k x => default [] (body (i + k)%nat x)) l), true).
Proof.
  induction l as [|x l IH]; intros i H; [done|].
  simpl. destruct (H 0%nat x eq_refl) as [out Hout].
  rewrite Nat.add_0_r in Hout. rewrite Hout.
  rewrite (IH (S i)).
  - rewrite Nat.add_0_r, Hout. simpl. do 3 f_equal.
    apply imap_ext. intros k y _. simpl. by rewrite Nat.add_succ_r.
  - intros k y Hk. rewrite Nat.add_succ_l, <- Nat.add_succ_r. by apply (H (S k)).
Qed.

(** ** Export of the per-scene densities *)

Section ExportFacts.
Context {Seed : Type}.
Variable filenames : list string.
Variable get_scene : nat -> list (list Q).
Variable SET : string.
Variable DATASET_NAME : string.

Abbreviation visited := (filenamesForExport filenames).
Abbreviation exported := (@export_scene Seed get_scene SET DATASET_NAME).
Abbreviation stats_dir := (OUTPUT_DIR_STATS SET DATASET_NAME).
Abbreviation seeds_dir := (OUTPUT_DIR_SEEDS SET DATASET_NAME).

Lemma visited_lookup f name :
  visited !! f = Some name <->
  (f < Nat.min (length filenames) MAX_EXPORT)%nat /\ filenames !! f = Some name.
Proof.
  unfold filenamesForExport. rewrite lookup_take_Some.
  split; intros [H1 H2]; split; assumption.
Qed.

Lemma export_density_finite (h : list Q) :
  ~ np_sum h == 0 ->
  export_density h = map (fun c => Fin (c / np_sum h)) h.
Proof.
  intros Ht. unfold export_density. apply map_ext. intros c.
  by apply np_div_nonzero.
Qed.

Lemma export_scene_skipped (st : Stats Seed) f name h :
  hist_list st !! f = Some h -> np_sum h == 0 -> exported st f name = Some [].
Proof.
  intros Hh H0. unfold export_scene. rewrite Hh. simpl.
  apply Qeq_bool_iff in H0. by rewrite H0.
Qed.

Lemma export_scene_written (st : Stats Seed) f name h seeds :
  hist_list st !! f = Some h -> seeds_list st !! f = Some seeds ->
  length (get_scene f) = length h ->
  ~ np_sum h == 0 ->
  let density := map (fun c => Fin (c / np_sum h)) h in
  let table := zip_with (fun r d => (Fin <$> r) ++ [d]) (get_scene f) density in
  exported st f name
  = Some [ (path_join stats_dir (stats_file SET name "appearance_density"),
            Rows table);
           (path_join stats_dir (stats_file SET name "appearance_density_cleaned"),
            Rows (np_select table (np_gt0 <$> density)));
           (path_join seeds_dir (stats_file SET name "seeds"), SeedRows seeds) ].
Proof.
  intros Hh Hs Hlen Ht density table. unfold export_scene. rewrite Hh. simpl.
  destruct (Qeq_bool (np_sum h) 0) eqn:E.
  { apply Qeq_bool_iff in E. contradiction. }
  rewrite export_density_finite by done. fold density.
  unfold np_hstack_col.
  replace (length (get_scene f) =? length density)%nat with true.
  2:{ symmetry. apply Nat.eqb_eq. unfold density. by rewrite length_map. }
  simpl. by rewrite Hs.
Qed.

(** C2.  When every scene the export loop visits has its counters, its
    seeds and as many rows as counters, the loop ends without error and
    writes, scene by scene over the first [min(len(filenames), 20)]
    scenes, what the loop body gives.  For a visited scene whose selection
    counts [h] sum to more than zero the body writes three files: the
    rows of the scene with the column [h[p] / sum(h)], the rows of that
    table whose density is positive, and the seeds; the density column
    sums to one.  For a visited scene whose counts sum to zero the body
    writes nothing. *)
Theorem export_density_normalised (st : Stats Seed) :
  (forall f, (f < Nat.min (length filenames) MAX_EXPORT)%nat ->
     exists h seeds, hist_list st !! f = Some h
                     /\ seeds_list st !! f = Some seeds
                     /\ length (get_scene f) = length h) ->
  export_loop filenames get_scene SET DATASET_NAME st
  = (concat (imap (fun f name => default [] (exported st f name)) visited), true)
  /\ forall f name h seeds,
       visited !! f = Some name ->
       hist_list st !! f = Some h -> seeds_list st !! f = Some seeds ->
       (0 < np_sum h ->
          let density := map (fun c => Fin (c / np_sum h)) h in
          let table := zip_with (fun r d => (Fin <$> r) ++ [d]) (get_scene f) density in
          exported st f name
          = Some [ (path_join stats_dir (stats_file SET name "appearance_density"),
                    Rows table);
                   (path_join stats_dir (stats_file SET name "appearance_density_cleaned"),
                    Rows (np_select table (np_gt0 <$> density)));
                   (path_join seeds_dir (stats_file SET name "seeds"), SeedRows seeds) ]
          /\ np_sum (map (fun c => c / np_sum h) h) == 1)
       /\ (np_sum h == 0 -> exported st f name = Some []).
Proof.
  intros Hready. split.
  - unfold export_loop. apply (enum_loop_total (exported st) visited 0%nat).
    intros k name Hk. simpl. apply visited_lookup in Hk as [Hlt _].
    destruct (Hready k Hlt) as (h & seeds & Hh & Hs & Hlen).
    destruct (Qeq_dec (np_sum h) 0) as [H0|Hn0].
    + rewrite (export_scene_skipped st k name h Hh H0). by eexists.
    + rewrite (export_scene_written st k name h seeds Hh Hs Hlen Hn0). by eexists.
  - intros f name h seeds Hv Hh Hs. apply visited_lookup in Hv as [Hlt _].
    destruct (Hready f Hlt) as (h' & seeds' & Hh' & Hs' & Hlen).
    assert (h' = h) as -> by congruence.
    split.
    + intros Hpos. assert (~ np_sum h == 0) as Hn0 by lra. split.
      * by apply export_scene_written.
      * by apply np_sum_normalised.
    + intros H0. by apply (export_scene_skipped st f name h).
Qed.

End ExportFacts.

Lemma two_scenes_export_ready f :
  (f < Nat.min (length two_scenes) MAX_EXPORT)%nat ->
  exists h seeds, hist_list two_scenes_stats !! f = Some h
                  /\ seeds_list two_scenes_stats !! f = Some seeds
                  /\ length (two_scenes_cloud f) = length h.
Proof.
  intros Hf. destruct f as [|[|f]].
  - by eexists _, _.
  - by eexists _, _.
  - simpl in Hf. lia.
Defined.

Lemma export_density_witness :
  (forall f, (f < Nat.min (length two_scenes) MAX_EXPORT)%nat ->
     exists h seeds, hist_list two_scenes_stats !! f = Some h
                     /\ seeds_list two_scenes_stats !! f = Some seeds
                     /\ length (two_scenes_cloud f) = length h)
  /\ filenamesForExport two_scenes !! 0%nat = Some "scenes/a.npy"%string
  /\ 0 < np_sum [2; 1; 1; 0]
  /\ snd (export_loop two_scenes two_scenes_cloud "train" "semantic" two_scenes_stats) = true
  /\ np_sum (map (fun c => c / np_sum [2; 1; 1; 0]) [2; 1; 1; 0]) == 1.
Proof.
  split; [exact two_scenes_export_ready|].
  split; [reflexivity|]. split; [reflexivity|].
  destruct (export_density_normalised two_scenes two_scenes_cloud "train" "semantic"
              two_scenes_stats two_scenes_export_ready) as [Hloop Hscene].
  split; [by rewrite Hloop|].
  destruct (Hscene 0%nat "scenes/a.npy"%string [2; 1; 1; 0] [0; 1; 0]%nat
              eq_refl eq_refl eq_refl) as [Hpos _].
  apply Hpos. reflexivity.
Defined.

(** ** The export after the accumulation *)

Lemma inject_Z_of_nat_zero (n : nat) : inject_Z (Z.of_nat n) == 0 -> n = 0%nat.
Proof. unfold Qeq. simpl. lia. Qed.

Lemma row_finite (r : list Q) (d : npval) :
  is_finite d = true -> forallb is_finite ((Fin <$> r) ++ [d]) = true.
Proof. intros Hd. induction r as [|x r IH]; simpl; [by rewrite Hd|exact IH]. Qed.

Lemma table_finite (cloud : list (list Q)) : forall ds : list npval,
  forallb is_finite ds = true ->
  forallb (forallb is_finite)
    (zip_with (fun r d => (Fin <$> r) ++ [d]) cloud ds) = true.
Proof.
  induction cloud as [|r cloud IH]; intros [|d ds] H; try done.
  simpl in H. apply andb_prop in H as [Hd Hds].
  simpl zip_with. cbn [forallb]. rewrite row_finite by done. simpl. by apply IH.
Qed.

Lemma map_Fin_finite (g : Q -> Q) (h : list Q) :
  forallb is_finite (map (fun c => Fin (g c)) h) = true.
Proof. induction h as [|x h IH]; [done|exact IH]. Qed.

Lemma np_select_forallb {A : Type} (P : A -> bool) (table : list A) :
  forall mask, forallb P table = true -> forallb P (np_select table mask) = true.
Proof.
  unfold np_select.
  induction table as [|x table IH]; intros [|b mask] H; try done.
  simpl in *. apply andb_prop in H as [Hx Ht].
  destruct b; simpl; [rewrite Hx|]; by apply IH.
Qed.

Lemma finite_values_Fin (qs : list Q) : finite_values (map Fin qs) = Some qs.
Proof. induction qs as [|q qs IH]; [done|]. simpl. by rewrite IH. Qed.

Lemma length_np_histogram bins a : length (np_histogram bins a) = bins.
Proof.
  unfold np_histogram. destruct (hist_range a). by rewrite length_fmap, length_seq.
Qed.

(** ** The bins of the occurrence histogram *)

Lemma fold_Qmin_bounds (l : list Q) : forall acc,
  fold_left Qmin l acc <= acc /\ Forall (fun y => fold_left Qmin l acc <= y) l.
Proof.
  induction l as [|y l IH]; intros acc; simpl.
  - split; [apply Qle_refl|constructor].
  - destruct (IH (Qmin acc y)) as [Hacc Hall]. split; [|constructor; [|done]].
    + eapply Qle_trans; [exact Hacc|apply Q.le_min_l].
    + eapply Qle_trans; [exact Hacc|apply Q.le_min_r].
Qed.

Lemma fold_Qmax_bounds (l : list Q) : forall acc,
  acc <= fold_left Qmax l acc /\ Forall (fun y => y <= fold_left Qmax l acc) l.
Proof.
  induction l as [|y l IH]; intros acc; simpl.
  - split; [apply Qle_refl|constructor].
  - destruct (IH (Qmax acc y)) as [Hacc Hall]. split; [|constructor; [|done]].
    + eapply Qle_trans; [apply Q.le_max_l|exact Hacc].
    + eapply Qle_trans; [apply Q.le_max_r|exact Hacc].
Qed.

Lemma hist_range_bounds (a : list Q) lo hi :
  hist_range a = (lo, hi) ->
  lo < hi /\ Forall (fun x => lo <= x /\ x <= hi) a.
Proof.
  unfold hist_range. destruct a as [|x l].
  - simpl. intros [= <- <-]. split; [reflexivity|constructor].
  - destruct (fold_Qmin_bounds l x) as [Hlo Hlos].
    destruct (fold_Qmax_bounds l x) as [Hhi Hhis].
    assert (Forall (fun y => fold_left Qmin l x <= y /\ y <= fold_left Qmax l x) (x :: l))
      as Hall.
    { constructor; [done|]. apply Forall_forall. intros y Hy.
      rewrite Forall_forall in Hlos, Hhis. split; [by apply Hlos|by apply Hhis]. }
    destruct (Qeq_bool (fold_left Qmin l x) (fold_left Qmax l x)) eqn:E; intros [= <- <-].
    + apply Qeq_bool_iff in E. split; [lra|].
      eapply Forall_impl; [exact Hall|]. simpl. intros y [? ?]. split; lra.
    + split; [|exact Hall].
      apply Qeq_bool_neq in E. lra.
Qed.

Lemma bin_index_lt (bins : nat) (lo hi x : Q) :
  (0 < bins)%nat -> lo < hi -> lo <= x -> x <= hi ->
  (bin_index bins lo hi x < bins)%nat.
Proof.
  intros Hb Hlh Hlo Hhi. unfold bin_index.
  set (t := (x - lo) / (hi - lo) * inject_Z (Z.of_nat bins)).
  assert (t <= inject_Z (Z.of_nat bins)) as Ht.
  { unfold t.
    assert ((x - lo) / (hi - lo) <= 1) as H1 by (apply Qle_shift_div_r; lra).
    assert (0 <= inject_Z (Z.of_nat bins)) as H0 by (unfold Qle; simpl; lia).
    assert (0 <= (1 - (x - lo) / (hi - lo)) * inject_Z (Z.of_nat bins)) as Hp
      by (apply Qmult_le_0_compat; lra).
    lra. }
  apply Qfloor_resp_le in Ht. rewrite Qfloor_Z in Ht.
  destruct (Z.to_nat (Qfloor t) =? bins)%nat eqn:E; [lia|].
  apply Nat.eqb_neq in E. lia.
Qed.

Lemma sum_list_fmap_add {A : Type} (f g : A -> nat) (l : list A) :
  sum_list ((fun k => f k + g k)%nat <$> l)
  = (sum_list (f <$> l) + sum_list (g <$> l))%nat.
Proof. induction l as [|x l IH]; csimpl; [done|]. rewrite IH. lia. Qed.

Lemma sum_indicator (m n : nat) :
  sum_list ((fun k => if (m =? k)%nat then 1 else 0)%nat <$> seq 0 n)
  = if (m <? n)%nat then 1%nat else 0%nat.
Proof.
  induction n as [|n IH]; [done|].
  rewrite seq_S, fmap_app, sum_list_with_app, IH.
  change (sum_list ((fun k => if (m =? k)%nat then 1%nat else 0%nat) <$> [(0 + n)%nat]))
    with ((if (m =? n)%nat then 1 else 0) + 0)%nat.
  destruct (Nat.eqb_spec m n), (Nat.ltb_spec m n), (Nat.ltb_spec m (S n)); lia.
Qed.

Lemma bin_counts_total {A : Type} (g : A -> nat) (n : nat) (a : list A) :
  Forall (fun x => (g x < n)%nat) a ->
  sum_list ((fun k => length (List.filter (fun x => (g x =? k)%nat) a)) <$> seq 0 n)
  = length a.
Proof.
  induction 1 as [|x a Hx _ IH]; simpl.
  - induction (seq 0 n) as [|? ? IH]; [done|exact IH].
  - transitivity (sum_list ((fun k => (if (g x =? k)%nat then 1 else 0)
                               + length (List.filter (fun y => (g y =? k)%nat) a))%nat
                              <$> seq 0 n)).
    + f_equal. apply list_fmap_ext. intros _ k _. by destruct (g x =? k)%nat.
    + rewrite (sum_list_fmap_add (fun k => if (g x =? k)%nat then 1%nat else 0%nat)
                 (fun k => length (List.filter (fun y => (g y =? k)%nat) a))).
      rewrite sum_indicator, IH.
      apply Nat.ltb_lt in Hx. by rewrite Hx.
Qed.

Lemma np_histogram_total (bins : nat) (a : list Q) :
  (0 < bins)%nat -> sum_list (np_histogram bins a) = length a.
Proof.
  intros Hb. unfold np_histogram. destruct (hist_range a) as [lo hi] eqn:E.
  apply hist_range_bounds in E as [Hlh Hall].
  apply bin_counts_total. eapply Forall_impl; [exact Hall|].
  intros x [? ?]. by apply bin_index_lt.
Qed.









Section RunFacts.
Context {Seed : Type}.
Variable Accessor : Type.
Variable next_input : Accessor -> Draw Seed * Accessor.
Variable filenames : list string.
Variable get_scene_shape : nat -> nat.
Variable NUM_CLASSES : nat.
Variable get_scene : nat -> list (list Q).
Variable SET : string.
Variable DATASET_NAME : string.

Abbreviation wf := (@wf_draw Seed filenames get_scene_shape NUM_CLASSES).
Abbreviation acc := (@accumulated Seed filenames get_scene_shape NUM_CLASSES).
Abbreviation init := (@stats_init Seed filenames get_scene_shape NUM_CLASSES).
Abbreviation visited := (filenamesForExport filenames).
Abbreviation exported := (@export_scene Seed get_scene SET DATASET_NAME).
Abbreviation plotted := (@occurrence_scene Seed filenames SET DATASET_NAME).
Abbreviation stats_dir := (OUTPUT_DIR_STATS SET DATASET_NAME).
Abbreviation seeds_dir := (OUTPUT_DIR_SEEDS SET DATASET_NAME).

Lemma accumulated_after_loop N a st a' :
  Forall wf (draw_seq Accessor next_input N a) ->
  stats_loop Accessor next_input N init a = Some (st, a') ->
  acc st (draw_seq Accessor next_input N a).
Proof.
  intros Hwf Hloop.
  destruct (stats_loop_accumulated Accessor next_input filenames get_scene_shape
              NUM_CLASSES N a Hwf) as (st0 & Hloop0 & Hacc).
  congruence.
Qed.

Lemma accumulated_lookup st ds f :
  Forall wf ds -> acc st ds -> (f < length filenames)%nat ->
  exists h c seeds,
    hist_list st !! f = Some h /\ scene_counters st !! f = Some c
    /\ seeds_list st !! f = Some seeds
    /\ length h = get_scene_shape f
    /\ 0 <= c
    /\ (c == 0 -> h = np_zeros (get_scene_shape f) /\ seeds = []).
Proof.
  intros Hwf (_ & _ & _ & _ & Hsc) Hf.
  destruct (Hsc f Hf) as (Hh & Hc & Hs).
  exists (vsum (get_scene_shape f) (d_mask <$> draws_on filenames f ds)),
    (inject_Z (Z.of_nat (length (draws_on filenames f ds)))),
    (d_seed <$> draws_on filenames f ds).
  split; [done|]. split; [done|]. split; [done|]. split; [|split].
  - apply length_vsum. by apply (draws_on_wf filenames get_scene_shape NUM_CLASSES).
  - unfold Qle. simpl. lia.
  - intros H0. apply inject_Z_of_nat_zero in H0.
    apply length_zero_iff_nil in H0. by rewrite H0.
Qed.

(** C3, as amended.  After the accumulation loop, for every scene [f] the
    export loop visits (with as many rows as the accessor announced), the
    loop body ends without error and every value it writes is finite.  A
    scene with [scene_counters[f] == 0] is skipped: nothing is written.  A
    scene whose selection counts [h] sum to more than zero is written with
    the density [h[p] / sum(h)]: the divisor is the total selection count
    of the scene. *)
Theorem export_density_by_selection_total N a st a' :
  Forall wf (draw_seq Accessor next_input N a) ->
  stats_loop Accessor next_input N init a = Some (st, a') ->
  forall f name,
    visited !! f = Some name ->
    length (get_scene f) = get_scene_shape f ->
    exists h c seeds out,
      hist_list st !! f = Some h /\ scene_counters st !! f = Some c
      /\ seeds_list st !! f = Some seeds
      /\ exported st f name = Some out
      /\ Forall (fun w => file_finite (snd w) = true) out
      /\ (c == 0 -> out = [])
      /\ (0 < np_sum h ->
          let density := map (fun x => Fin (x / np_sum h)) h in
          let table := zip_with (fun r d => (Fin <$> r) ++ [d]) (get_scene f) density in
          out = [ (path_join stats_dir (stats_file SET name "appearance_density"),
                   Rows table);
                  (path_join stats_dir (stats_file SET name "appearance_density_cleaned"),
                   Rows (np_select table (np_gt0 <$> density)));
                  (path_join seeds_dir (stats_file SET name "seeds"), SeedRows seeds) ]).
Proof.
  intros Hwf Hloop f name Hv Hrows.
  pose proof (accumulated_after_loop N a st a' Hwf Hloop) as Hacc.
  apply visited_lookup in Hv as [Hlt _].
  assert (f < length filenames)%nat as Hf by lia.
  destruct (accumulated_lookup st _ f Hwf Hacc Hf)
    as (h & c & seeds & Hh & Hc & Hs & Hlen & Hc0 & Hzero).
  exists h, c, seeds.
  destruct (Qeq_dec (np_sum h) 0) as [H0|Hn0].
  - exists []. repeat split; try done.
    + by apply (export_scene_skipped get_scene SET DATASET_NAME st f name h).
    + intros Hpos. rewrite H0 in Hpos. lra.
  - eexists. split; [done|]. split; [done|]. split; [done|].
    split; [apply export_scene_written; try done; congruence|].
    split; [|split].
    + repeat constructor; simpl.
      * apply table_finite, map_Fin_finite.
      * apply np_select_forallb, table_finite, map_Fin_finite.
    + intros Hcz. destruct (Hzero Hcz) as [-> _].
      rewrite np_sum_zeros in Hn0. by destruct Hn0.
    + done.
Qed.




End RunFacts.

Lemma two_scenes_run :
  stats_loop (list (Draw nat)) (scripted idle_draw) 6
    (stats_init two_scenes two_scenes_shape 2) two_scenes_draws
  = Some (two_scenes_stats, []).
Proof. vm_compute. reflexivity. Defined.

Lemma export_density_by_selection_total_witness :
  Forall (wf_draw two_scenes two_scenes_shape 2)
    (draw_seq (list (Draw nat)) (scripted idle_draw) 6 two_scenes_draws)
  /\ stats_loop (list (Draw nat)) (scripted idle_draw) 6
       (stats_init two_scenes two_scenes_shape 2) two_scenes_draws
     = Some (two_scenes_stats, [])
  /\ filenamesForExport two_scenes !! 0%nat = Some "scenes/a.npy"%string
  /\ length (two_scenes_cloud 0) = two_scenes_shape 0
  /\ exists h c seeds out,
       hist_list two_scenes_stats !! 0%nat = Some h
       /\ scene_counters two_scenes_stats !! 0%nat = Some c
       /\ seeds_list two_scenes_stats !! 0%nat = Some seeds
       /\ export_scene two_scenes_cloud "train" "semantic" two_scenes_stats 0
            "scenes/a.npy" = Some out
       /\ Forall (fun w => file_finite (snd w) = true) out
       /\ (c == 0 -> out = [])
       /\ (0 < np_sum h ->
           let density := map (fun x => Fin (x / np_sum h)) h in
           let table := zip_with (fun r d => (Fin <$> r) ++ [d]) (two_scenes_cloud 0) density in
           out = [ (path_join (OUTPUT_DIR_STATS "train" "semantic")
                      (stats_file "train" "scenes/a.npy" "appearance_density"),
                    Rows table);
                   (path_join (OUTPUT_DIR_STATS "train" "semantic")
                      (stats_file "train" "scenes/a.npy" "appearance_density_cleaned"),
                    Rows (np_select table (np_gt0 <$> density)));
                   (path_join (OUTPUT_DIR_SEEDS "train" "semantic")
                      (stats_file "train" "scenes/a.npy" "seeds"), SeedRows seeds) ]).
Proof.
  split; [exact two_scenes_draws_wf|]. split; [exact two_scenes_run|].
  split; [reflexivity|]. split; [reflexivity|].
  apply (export_density_by_selection_total (list (Draw nat)) (scripted idle_draw)
           two_scenes two_scenes_shape 2 two_scenes_cloud "train" "semantic"
           6 two_scenes_draws two_scenes_stats [] two_scenes_draws_wf two_scenes_run
           0%nat "scenes/a.npy"%string); reflexivity.
Defined.

(** The scenario refutes C3 as stated: scene 0 was drawn three times and its
    first point selected twice, and the density written for that point is
    2/4, the share of the four selections of the scene, not 2/3. *)
Lemma density_by_draw_count_counterexample :
  stats_pass (list (Draw nat)) (scripted idle_draw) two_scenes two_scenes_shape 2 3
    two_scenes_draws = Some (two_scenes_stats, [])
  /\ scene_counters two_scenes_stats !! 0%nat = Some 3
  /\ hist_list two_scenes_stats !! 0%nat = Some [2; 1; 1; 0]
  /\ exists table rest,
       export_scene two_scenes_cloud "train" "semantic" two_scenes_stats 0 "scenes/a.npy"
       = Some ((path_join (OUTPUT_DIR_STATS "train" "semantic")
                  (stats_file "train" "scenes/a.npy" "appearance_density"),
                Rows table) :: rest)
       /\ table !! 0%nat = Some [Fin 0; Fin 0; Fin 0; Fin (2 # 4)]
       /\ ~ (2 # 4) == 2 / 3.
Proof.
  split; [vm_compute; reflexivity|]. split; [reflexivity|]. split; [reflexivity|].
  eexists _, _. split; [vm_compute; reflexivity|]. split; [reflexivity|].
  intros H. vm_compute in H. discriminate H.
Qed.


(** ** The class histograms *)

Lemma class_density_zeros n : class_density (np_zeros n) = replicate n NaN.
Proof.
  unfold class_density. rewrite np_sum_zeros. unfold np_zeros.
  induction n as [|n IH]; [done|]. simpl. by rewrite IH.
Qed.

(** C4 fails on the code.  When the accumulation loop has no iteration (no
    scene, or no input per scene), [label_hist] is still all zeros at
    line 162, its sum is zero, and the division, which no test guards,
    gives nan in every bin of the sampled-input histogram.  The decimated
    histogram of line 128 is the same expression on [DATA.get_hist()]. *)
Theorem class_density_unguarded {Seed : Type} (Accessor : Type)
  (next_input : Accessor -> Draw Seed * Accessor) (filenames : list string)
  (get_scene_shape : nat -> nat) (NUM_CLASSES : nat) (STAT_INPUT_NB : Z)
  (a : Accessor) :
  (STAT_INPUT_NB * Z.of_nat (length filenames) <= 0)%Z ->
  exists st,
    stats_pass Accessor next_input filenames get_scene_shape NUM_CLASSES STAT_INPUT_NB a
    = Some (st, a)
    /\ input_density_hist st = replicate NUM_CLASSES NaN
    /\ class_density (np_zeros NUM_CLASSES) = replicate NUM_CLASSES NaN.
Proof.
  intros H. eexists. split; [|split].
  - unfold stats_pass, range_len.
    replace (Z.to_nat (STAT_INPUT_NB * Z.of_nat (length filenames))) with 0%nat by lia.
    reflexivity.
  - unfold input_density_hist. simpl. apply class_density_zeros.
  - apply class_density_zeros.
Qed.

Lemma class_density_unguarded_witness :
  (0 * Z.of_nat (length two_scenes) <= 0)%Z
  /\ exists st,
       stats_pass (list (Draw nat)) (scripted idle_draw) two_scenes two_scenes_shape 2 0
         two_scenes_draws = Some (st, two_scenes_draws)
       /\ input_density_hist st = [NaN; NaN]
       /\ class_density (np_zeros 2) = [NaN; NaN].
Proof.
  split; [simpl; lia|].
  apply (class_density_unguarded (list (Draw nat)) (scripted idle_draw) two_scenes
           two_scenes_shape 2 0 two_scenes_draws).
  simpl. lia.
Defined.

(** ** numpy on rows *)

Lemma np_broadcast_same op (a b : list Q) :
  length a = length b -> np_broadcast op a b = Some (zip_with op a b).
Proof. intros H. unfold np_broadcast. by rewrite H, Nat.eqb_refl. Qed.

Lemma np_rows_same op (a : list (list Q)) (v : list Q) :
  Forall (fun r => length r = length v) a ->
  np_rows op a v = Some (map (fun r => zip_with op r v) a).
Proof.
  intros H. unfold np_rows. apply mapM_Some. induction H as [|r a Hr _ IH]; simpl.
  - constructor.
  - constructor; [by apply np_broadcast_same|exact IH].
Qed.

Lemma np_rows_length op (a : list (list Q)) (v : list Q) out :
  np_rows op a v = Some out -> length out = length a.
Proof. intros H. symmetry. by apply (length_mapM _ _ _ H). Qed.

Lemma length_fold_zip_with (op : Q -> Q -> Q) (rows : list (list Q)) : forall r0,
  Forall (fun r => length r = length r0) rows ->
  length (fold_left (zip_with op) rows r0) = length r0.
Proof.
  induction rows as [|r rows IH]; intros r0 H; [done|].
  inversion H as [|? ? Hr Hrest]; subst. simpl.
  assert (length (zip_with op r0 r) = length r0) as Hz
    by (rewrite length_zip_with; lia).
  rewrite IH; [done|]. by rewrite Hz.
Qed.

Lemma np_vstack_concat arrays out : np_vstack arrays = Some out -> out = concat arrays.
Proof.
  unfold np_vstack. destruct arrays as [|a rest]; [done|].
  destruct (forallb _ _); [|done]. by intros [= <-].
Qed.

Lemma np_vstack_same (w : nat) (arrays : list (list (list Q))) :
  arrays <> [] ->
  Forall (fun a => a <> [] /\ Forall (fun r => length r = w) a) arrays ->
  np_vstack arrays = Some (concat arrays).
Proof.
  intros Hne H. unfold np_vstack. destruct arrays as [|a rest]; [done|].
  assert (row_width a = w) as ->.
  { inversion H as [|? ? [Ha Hw] _]; subst.
    destruct a as [|r a]; [done|]. simpl. by inversion Hw. }
  replace (forallb (fun r => (length r =? w)%nat) (concat (a :: rest))) with true; [done|].
  symmetry. apply forallb_forall. intros r Hr. apply Nat.eqb_eq.
  apply in_concat in Hr as (arr & Harr & Hr).
  rewrite Forall_forall in H. apply list_elem_of_In in Harr.
  destruct (H arr Harr) as [_ Hw]. rewrite Forall_forall in Hw.
  apply Hw. by apply list_elem_of_In.
Qed.

Lemma np_hstack_concat {A : Type} (arrays : list (list A)) out :
  np_hstack arrays = Some out -> out = concat arrays.
Proof. unfold np_hstack. destruct arrays; [done|]. by intros [= <-]. Qed.

(** ** Repositioning one scene *)

Lemma np_min_axis0_wf w scene :
  wf_scene w scene -> exists mn, np_min_axis0 scene = Some mn /\ length mn = w.
Proof.
  intros [Hne Hw]. destruct scene as [|r rs]; [done|].
  inversion Hw as [|? ? Hr Hrs]; subst.
  eexists. split; [reflexivity|].
  apply length_fold_zip_with. eapply Forall_impl; [exact Hrs|]. intros; congruence.
Qed.


(** The offset added to and the base subtracted from every row (lines 244
    and 246). *)
Lemma position_scene_length use_color xsize ysize i j scene ps :
  position_scene use_color xsize ysize i j scene = Some ps ->
  length ps = length scene.
Proof.
  unfold position_scene. destruct (np_min_axis0 scene) as [mn|]; [|done]. simpl.
  destruct use_color.
  - destruct (np_rows Qplus scene _) as [sh|] eqn:E1; [|done]. simpl.
    destruct (np_broadcast Qmult mn _) as [base|]; [|done]. simpl.
    intros E2. apply np_rows_length in E1, E2. congruence.
  - destruct (np_rows Qplus scene _) as [sh|] eqn:E1; [|done]. simpl.
    intros E2. apply np_rows_length in E1, E2. congruence.
Qed.

Lemma position_scene_wf use_color xsize ysize i j scene :
  wf_scene (grid_width use_color) scene ->
  exists mn,
    np_min_axis0 scene = Some mn /\ length mn = grid_width use_color
    /\ position_scene use_color xsize ysize i j scene
       = Some (map (fun r =>
                      zip_with Qminus
                        (zip_with Qplus r
                           (if use_color then cell_origin xsize ysize i j ++ [0; 0; 0]
                            else cell_origin xsize ysize i j))
                        (if use_color then zip_with Qmult mn [1; 1; 1; 0; 0; 0] else mn))
                   scene).
Proof.
  intros Hwf. destruct (np_min_axis0_wf _ _ Hwf) as (mn & Hmn & Hlen).
  exists mn. split; [done|]. split; [done|].
  destruct Hwf as [Hne Hw].
  unfold position_scene. rewrite Hmn. simpl.
  destruct use_color; simpl in *.
  - rewrite np_rows_same by done. simpl.
    rewrite np_broadcast_same by done. simpl.
    rewrite np_rows_same.
    + by rewrite map_map.
    + apply Forall_forall. intros r Hr. apply list_elem_of_In, in_map_iff in Hr as (r0 & <- & Hr0).
      rewrite !length_zip_with. simpl.
      rewrite Forall_forall in Hw. rewrite (Hw r0) by (by apply list_elem_of_In). by rewrite Hlen.
  - rewrite np_rows_same by done. simpl.
    rewrite np_rows_same.
    + by rewrite map_map.
    + apply Forall_forall. intros r Hr. apply list_elem_of_In, in_map_iff in Hr as (r0 & <- & Hr0).
      rewrite !length_zip_with. simpl.
      rewrite Forall_forall in Hw. rewrite (Hw r0) by (by apply list_elem_of_In). by rewrite Hlen.
Qed.

Lemma position_scene_keeps_wf use_color xsize ysize i j scene ps :
  wf_scene (grid_width use_color) scene ->
  position_scene use_color xsize ysize i j scene = Some ps ->
  wf_scene (grid_width use_color) ps.
Proof.
  intros Hwf Hps.
  destruct (position_scene_wf use_color xsize ysize i j scene Hwf) as (mn & _ & Hlen & Heq).
  rewrite Heq in Hps. injection Hps as <-.
  destruct Hwf as [Hne Hw]. split.
  - destruct scene; [done|]. done.
  - apply Forall_forall. intros r Hr. apply list_elem_of_In, in_map_iff in Hr as (r0 & <- & Hr0).
    rewrite !length_zip_with.
    rewrite Forall_forall in Hw. rewrite (Hw r0) by (by apply list_elem_of_In).
    destruct use_color; simpl in *; rewrite ?length_zip_with, Hlen; reflexivity.
Qed.

(** ** One batch on the grid *)

Lemma imap_pair_snd {A B : Type} (g : nat -> B) (l : list A) :
  (imap (fun k x => (g k, x)) l).*2 = l.
Proof.
  revert g. induction l as [|x l IH]; intros g; [done|].
  simpl. f_equal. apply (IH (g ∘ S)).
Qed.

Lemma concat_length_Forall2 {A B : Type} (l : list (list A)) (k : list (list B)) :
  Forall2 (fun x y => length x = length y) l k ->
  length (concat l) = length (concat k).
Proof.
  induction 1 as [|x y l k Hxy _ IH]; [done|].
  simpl. rewrite !length_app. lia.
Qed.

Lemma batch_points_length use_color xsize ysize i data pts :
  batch_points use_color xsize ysize i data = Some pts ->
  length pts = length (concat data).
Proof.
  unfold batch_points.
  destruct (mapM _ _) as [positioned|] eqn:E; [|done]. simpl.
  intros Hv. apply np_vstack_concat in Hv as ->.
  apply mapM_Some in E.
  rewrite <- (imap_pair_snd (fun k => k) data).
  apply concat_length_Forall2. rewrite Forall2_fmap_r. apply Forall2_flip.
  eapply Forall2_impl; [exact E|].
  intros [j scene] ps Hps. simpl in *. by apply position_scene_length in Hps.
Qed.

Lemma batch_points_wf use_color xsize ysize i data :
  data <> [] -> Forall (wf_scene (grid_width use_color)) data ->
  exists pts,
    batch_points use_color xsize ysize i data = Some pts
    /\ pts <> [] /\ Forall (fun r => length r = grid_width use_color) pts.
Proof.
  intros Hne Hwf. unfold batch_points.
  destruct (mapM (fun js => position_scene use_color xsize ysize i js.1 js.2)
              (imap pair data)) as [positioned|] eqn:E.
  2:{ apply mapM_None in E. apply Exists_exists in E as ([j scene] & Hin & Hnone).
      apply list_elem_of_lookup in Hin as [k Hk].
      rewrite list_lookup_imap in Hk.
      destruct (data !! k) as [s|] eqn:Hs; [|done]. injection Hk as <- <-.
      assert (wf_scene (grid_width use_color) s) as Hws.
      { rewrite Forall_forall in Hwf. apply Hwf. by apply list_elem_of_lookup_2 in Hs. }
      destruct (position_scene_wf use_color xsize ysize i k s Hws) as (? & _ & _ & Heq).
      simpl in Hnone. congruence. }
  simpl. apply mapM_Some in E.
  assert (Forall (wf_scene (grid_width use_color)) positioned) as Hpos.
  { apply Forall_forall. intros ps Hin.
    apply list_elem_of_lookup in Hin as [k Hk].
    destruct (Forall2_lookup_r _ _ _ _ _ E Hk) as ([j scene] & Hjs & Hps).
    rewrite list_lookup_imap in Hjs.
    destruct (data !! k) as [s|] eqn:Hs; [|done]. injection Hjs as <- <-.
    simpl in Hps. eapply position_scene_keeps_wf; [|exact Hps].
    rewrite Forall_forall in Hwf. apply Hwf. by apply list_elem_of_lookup_2 in Hs. }
  assert (positioned <> []) as Hpne.
  { apply Forall2_length in E. rewrite length_imap in E.
    destruct positioned; [|done]. destruct data; [done|]. done. }
  exists (concat positioned). split; [|split].
  - apply (np_vstack_same (grid_width use_color)); [done|].
    eapply Forall_impl; [exact Hpos|]. by intros ? [? ?].
  - destruct positioned as [|p ps]; [done|].
    inversion Hpos as [|? ? [Hp _] _]; subst. simpl.
    destruct p; [done|]. done.
  - apply Forall_concat. eapply Forall_impl; [exact Hpos|]. by intros ? [? ?].
Qed.

Lemma grid_step_inv use_color xsize ysize i st b st' :
  grid_step use_color xsize ysize i st b = Some st' ->
  exists pts,
    batch_points use_color xsize ysize i (b_data b) = Some pts
    /\ visu_cloud st' = visu_cloud st ++ pts
    /\ visu_labels st' = visu_labels st ++ concat (b_labels b).
Proof.
  unfold grid_step. intros H.
  apply bind_Some in H as (pts & Hpts & H).
  apply bind_Some in H as (cloud & Ec & H).
  apply bind_Some in H as (bl & Eb & H).
  apply bind_Some in H as (labels & El & H).
  injection H as <-. exists pts. simpl.
  apply np_vstack_concat in Ec. apply np_hstack_concat in Eb, El.
  simpl in Ec, El. rewrite app_nil_r in Ec, El. by subst.
Qed.

Lemma labels_match_length b :
  labels_match b -> length (concat (b_data b)) = length (concat (b_labels b)).
Proof. apply concat_length_Forall2. Qed.

Lemma grid_step_wf use_color xsize ysize i st b :
  wf_batch (grid_width use_color) b -> labels_match b ->
  wf_scene (grid_width use_color) (visu_cloud st) ->
  exists st',
    grid_step use_color xsize ysize i st b = Some st'
    /\ wf_scene (grid_width use_color) (visu_cloud st').
Proof.
  intros [Hne Hwf] Hlab [Hcne Hcw].
  destruct (batch_points_wf use_color xsize ysize i (b_data b) Hne Hwf)
    as (pts & Hpts & Hpne & Hpw).
  unfold grid_step. rewrite Hpts. simpl.
  rewrite (np_vstack_same (grid_width use_color)); [|done|by repeat constructor].
  simpl. rewrite app_nil_r.
  assert (b_labels b <> []) as Hlne.
  { intros Hnil. unfold labels_match in Hlab. rewrite Hnil in Hlab.
    apply Forall2_nil_inv_r in Hlab. done. }
  unfold np_hstack at 1.
  destruct (b_labels b) as [|l ls] eqn:El; [done|]. simpl.
  eexists. split; [reflexivity|]. simpl. split.
  - destruct (visu_cloud st); [done|]. done.
  - by apply Forall_app.
Qed.

Section GridFacts.
Variable Accessor : Type.
Variable next_batch : Accessor -> Batch * Accessor.
Variable use_color : bool.
Variables xsize ysize : Q.

Abbreviation batches := (batch_seq Accessor next_batch).
Abbreviation loop := (grid_loop Accessor next_batch use_color xsize ysize).
Abbreviation width := (grid_width use_color).

Lemma grid_loop_lengths n : forall i st a st' a',
  loop n i st a = Some (st', a') ->
  Forall labels_match (batches n a) ->
  length (visu_cloud st) = length (visu_labels st) ->
  length (visu_cloud st') = length (visu_labels st').
Proof.
  induction n as [|n IH]; intros i st a st' a' Hloop Hlab Hlen.
  - simpl in Hloop. by injection Hloop as <- <-.
  - simpl in *. destruct (next_batch a) as [b a1] eqn:E. simpl in *.
    destruct (grid_step use_color xsize ysize i st b) as [st1|] eqn:Es; [|done].
    simpl in Hloop. inversion Hlab as [|? ? Hb Hrest]; subst.
    apply (IH (S i) st1 a1 st' a' Hloop Hrest).
    apply grid_step_inv in Es as (pts & Hpts & -> & ->).
    apply batch_points_length in Hpts.
    rewrite !length_app, Hpts, (labels_match_length b Hb). lia.
Qed.

Lemma grid_loop_wf n : forall i st a,
  Forall (wf_batch width) (batches n a) ->
  Forall labels_match (batches n a) ->
  wf_scene width (visu_cloud st) ->
  exists st' contribs,
    loop n i st a = Some (st', batch_calls Accessor next_batch n a)
    /\ Forall2 (fun ib pts => batch_points use_color xsize ysize ib.1 (b_data ib.2) = Some pts)
         (zip (seq i n) (batches n a)) contribs
    /\ visu_cloud st' = visu_cloud st ++ concat contribs
    /\ visu_labels st' = visu_labels st ++ concat (concat (b_labels <$> batches n a)).
Proof.
  induction n as [|n IH]; intros i st a Hwf Hlab Hst.
  - exists st, []. simpl. rewrite !app_nil_r. repeat split. constructor.
  - simpl in *. destruct (next_batch a) as [b a1] eqn:E. simpl in *.
    inversion Hwf as [|? ? Hb Hrest]; subst.
    inversion Hlab as [|? ? Hlb Hlrest]; subst.
    destruct (grid_step_wf use_color xsize ysize i st b Hb Hlb Hst) as (st1 & Hs & Hst1).
    rewrite Hs. simpl.
    destruct (IH (S i) st1 a1 Hrest Hlrest Hst1) as (st' & contribs & Hloop & Hc & Hcl & Hl).
    apply grid_step_inv in Hs as (pts & Hpts & Hcloud & Hlabels).
    exists st', (pts :: contribs). split; [done|]. split; [|split].
    + by constructor.
    + simpl. by rewrite Hcl, Hcloud, <- app_assoc.
    + simpl. by rewrite concat_app, Hl, Hlabels, <- app_assoc.
Qed.

(** C8.  In grid mode, when every batch returned by [next_batch] has one
    label per point of every scene, the composite cloud and the composite
    label vector have the same length after any number [n] of iterations
    of the main loop, whenever the loop reaches that point; and it does
    reach it, without error, when the batches are not empty and their
    scenes are not empty and have rows of the width the grid expects
    (three, or six with color). *)
Theorem composite_parallel_arrays (a : Accessor) (n : nat) :
  Forall labels_match (batches n a) ->
  (forall st a',
      loop n 0 (grid_init use_color) a = Some (st, a') ->
      length (visu_cloud st) = length (visu_labels st))
  /\ (Forall (wf_batch width) (batches n a) ->
      exists st,
        loop n 0 (grid_init use_color) a
        = Some (st, batch_calls Accessor next_batch n a)
        /\ length (visu_cloud st) = length (visu_labels st)).
Proof.
  intros Hlab.
  assert (forall st a',
             loop n 0 (grid_init use_color) a = Some (st, a') ->
             length (visu_cloud st) = length (visu_labels st)) as Hinv.
  { intros st a' Hloop.
    by apply (grid_loop_lengths n 0 (grid_init use_color) a st a' Hloop Hlab). }
  split; [exact Hinv|].
  intros Hwf.
  destruct (grid_loop_wf n 0 (grid_init use_color) a Hwf Hlab)
    as (st & contribs & Hloop & _).
  { split; [done|]. unfold grid_init. simpl. by destruct use_color; repeat constructor. }
  exists st. split; [exact Hloop|]. by apply (Hinv st _ Hloop).
Qed.

End GridFacts.

Lemma square_batches_match :
  Forall labels_match (batch_seq (list Batch) (scripted idle_batch) 2 (tail square_batches)).
Proof. repeat constructor. Defined.

Lemma square_batches_wf :
  Forall (wf_batch (grid_width false))
    (batch_seq (list Batch) (scripted idle_batch) 2 (tail square_batches)).
Proof. repeat (constructor; try done). Defined.

Lemma composite_parallel_arrays_witness :
  Forall labels_match (batch_seq (list Batch) (scripted idle_batch) 2 (tail square_batches))
  /\ Forall (wf_batch (grid_width false))
       (batch_seq (list Batch) (scripted idle_batch) 2 (tail square_batches))
  /\ exists st,
       grid_loop (list Batch) (scripted idle_batch) false 25 25 2 0 (grid_init false)
         (tail square_batches)
       = Some (st, batch_calls (list Batch) (scripted idle_batch) 2 (tail square_batches))
       /\ length (visu_cloud st) = length (visu_labels st).
Proof.
  split; [exact square_batches_match|]. split; [exact square_batches_wf|].
  destruct (composite_parallel_arrays (list Batch) (scripted idle_batch) false 25 25
              (tail square_batches) 2 square_batches_match) as [_ Hrun].
  exact (Hrun square_batches_wf).
Defined.

(** ** The grid pass *)

Lemma length_batch_seq (Accessor : Type) (next_batch : Accessor -> Batch * Accessor) n :
  forall a, length (batch_seq Accessor next_batch n a) = n.
Proof. induction n as [|n IH]; intros a; simpl; [done|by rewrite IH]. Qed.

Lemma contributions_length use_color xsize ysize
  (l : list (nat * Batch)) (contribs : list (list (list Q))) :
  Forall2 (fun ib pts => batch_points use_color xsize ysize ib.1 (b_data ib.2) = Some pts)
    l contribs ->
  length (concat contribs) = length (concat (concat (b_data <$> l.*2))).
Proof.
  induction 1 as [|[i b] pts l contribs Hpts _ IH]; [done|].
  simpl in *. rewrite concat_app, !length_app, IH.
  by rewrite (batch_points_length _ _ _ _ _ _ Hpts).
Qed.

Section GridPassFacts.
Variable Accessor : Type.
Variable next_batch : Accessor -> Batch * Accessor.
Variable SET : string.
Variable DATASET_NAME : string.
Variable NUM_CLASSES : nat.
Variable use_color : bool.
Variable NBATCH : Z.

Abbreviation batches := (batch_seq Accessor next_batch).
Abbreviation width := (grid_width use_color).

(** C10.  A grid-mode run with at least one batch, a probe that gives a
    cell spacing and well-shaped batches with one label per point ends
    without error, and the composite it exports is one all-zero row
    followed by the repositioned points of the batches in order, with the
    label 0 followed by the labels of the batches in order: one point and
    one label more than the batches contributed, the extra row coming
    from the initialisation and from no scene.  The run writes two files:
    the true-colour cloud, whose first point is the origin with the colour
    (0, 0, 0), and the label-colour cloud of the same points with the
    labels of the composite. *)
Theorem composite_origin_row (a : Accessor) (xsize ysize : Q) :
  (0 < NBATCH)%Z ->
  grid_probe (b_data (fst (next_batch a))) = Some (xsize, ysize) ->
  let a1 := snd (next_batch a) in
  let n := Z.to_nat NBATCH in
  Forall (wf_batch width) (batches n a1) ->
  Forall labels_match (batches n a1) ->
  exists st contribs,
    grid_pass Accessor next_batch SET DATASET_NAME NUM_CLASSES use_color NBATCH a
    = Some (grid_export SET DATASET_NAME NUM_CLASSES use_color st,
            batch_calls Accessor next_batch n a1)
    /\ Forall2 (fun ib pts =>
                 batch_points use_color xsize ysize ib.1 (b_data ib.2) = Some pts)
         (zip (seq 0 n) (batches n a1)) contribs
    /\ visu_cloud st = replicate width 0 :: concat contribs
    /\ visu_labels st = 0%Z :: concat (concat (b_labels <$> batches n a1))
    /\ length (visu_cloud st)
       = S (length (concat (concat (b_data <$> batches n a1))))
    /\ length (visu_labels st)
       = S (length (concat (concat (b_labels <$> batches n a1))))
    /\ exists points colors,
         grid_pass Accessor next_batch SET DATASET_NAME NUM_CLASSES use_color NBATCH a
         = Some ([ ((batches_dir SET DATASET_NAME ++ "/" ++ SET ++ "_" ++ "trueColors"
                       ++ ".txt")%string,
                    TrueColor points colors);
                   ((batches_dir SET DATASET_NAME ++ "/" ++ SET ++ "_" ++ "labelColors"
                       ++ ".txt")%string,
                    LabelColor points
                      (0%Z :: concat (concat (b_labels <$> batches n a1)))
                      NUM_CLASSES) ],
                 batch_calls Accessor next_batch n a1)
         /\ points = [0; 0; 0] :: (take 3 <$> concat contribs)
         /\ colors = [0; 0; 0] :: (if use_color then color_channels (concat contribs)
                                   else zero_channels (concat contribs))
         /\ length points = S (length (concat (concat (b_data <$> batches n a1))))
         /\ length colors = S (length (concat (concat (b_data <$> batches n a1)))).
Proof.
  intros Hpos Hprobe a1 n Hwf Hlab.
  destruct (grid_loop_wf Accessor next_batch use_color xsize ysize n 0
              (grid_init use_color) a1 Hwf Hlab)
    as (st & contribs & Hloop & Hc & Hcloud & Hlabels).
  { split; [done|]. unfold grid_init. simpl. by destruct use_color; repeat constructor. }
  assert (grid_pass Accessor next_batch SET DATASET_NAME NUM_CLASSES use_color NBATCH a
          = Some (grid_export SET DATASET_NAME NUM_CLASSES use_color st,
                  batch_calls Accessor next_batch n a1)) as Hpass.
  { unfold grid_pass. replace (0 <? NBATCH)%Z with true by lia.
    destruct (next_batch a) as [probe a1'] eqn:E. simpl in *.
    rewrite Hprobe. simpl. unfold range_len. fold n. subst a1. by rewrite Hloop. }
  assert (visu_cloud st = replicate width 0 :: concat contribs) as Hc1.
  { rewrite Hcloud. unfold grid_init. simpl. by destruct use_color. }
  assert (visu_labels st = 0%Z :: concat (concat (b_labels <$> batches n a1))) as Hl1.
  { by rewrite Hlabels. }
  assert (length (concat contribs)
          = length (concat (concat (b_data <$> batches n a1)))) as Hn.
  { rewrite (contributions_length _ _ _ _ _ Hc).
    rewrite snd_zip; [done|]. by rewrite length_seq, length_batch_seq. }
  exists st, contribs. split; [exact Hpass|]. split; [exact Hc|].
  split; [exact Hc1|]. split; [exact Hl1|]. split; [|split].
  - rewrite Hc1. simpl. by rewrite Hn.
  - by rewrite Hl1.
  - exists ([0; 0; 0] :: (take 3 <$> concat contribs)),
      ([0; 0; 0] :: (if use_color then color_channels (concat contribs)
                     else zero_channels (concat contribs))).
    split; [|split; [done|split; [done|split]]].
    + rewrite Hpass. unfold grid_export, true_color_ply. rewrite Hc1, Hl1.
      by destruct use_color.
    + simpl. by rewrite length_fmap, Hn.
    + simpl. f_equal. rewrite <- Hn.
      destruct use_color; unfold color_channels, zero_channels, columns;
        by rewrite !length_map, ?length_fmap.
Qed.

End GridPassFacts.

Lemma composite_origin_row_witness :
  (0 < 2)%Z
  /\ grid_probe (b_data (fst (scripted idle_batch square_batches))) = Some (25, 25)
  /\ Forall (wf_batch (grid_width false))
       (batch_seq (list Batch) (scripted idle_batch) 2 (tail square_batches))
  /\ Forall labels_match
       (batch_seq (list Batch) (scripted idle_batch) 2 (tail square_batches))
  /\ exists st contribs,
       grid_pass (list Batch) (scripted idle_batch) "train" "semantic" 4 false 2
         square_batches
       = Some (grid_export "train" "semantic" 4 false st,
               batch_calls (list Batch) (scripted idle_batch) 2 (tail square_batches))
       /\ Forall2 (fun ib pts => batch_points false 25 25 ib.1 (b_data ib.2) = Some pts)
            (zip (seq 0 2)
               (batch_seq (list Batch) (scripted idle_batch) 2 (tail square_batches)))
            contribs
       /\ visu_cloud st = replicate 3 0 :: concat contribs
       /\ visu_labels st
          = 0%Z :: concat (concat (b_labels <$>
                     batch_seq (list Batch) (scripted idle_batch) 2 (tail square_batches)))
       /\ length (visu_cloud st) = 9%nat
       /\ length (visu_labels st) = 9%nat
       /\ exists points colors,
            grid_pass (list Batch) (scripted idle_batch) "train" "semantic" 4 false 2
              square_batches
            = Some ([ ((batches_dir "train" "semantic" ++ "/" ++ "train" ++ "_"
                          ++ "trueColors" ++ ".txt")%string,
                       TrueColor points colors);
                      ((batches_dir "train" "semantic" ++ "/" ++ "train" ++ "_"
                          ++ "labelColors" ++ ".txt")%string,
                       LabelColor points
                         (0%Z :: concat (concat (b_labels <$>
                            batch_seq (list Batch) (scripted idle_batch) 2
                              (tail square_batches))))
                         4) ],
                    batch_calls (list Batch) (scripted idle_batch) 2 (tail square_batches))
            /\ points = [0; 0; 0] :: (take 3 <$> concat contribs)
            /\ colors = [0; 0; 0] :: zero_channels (concat contribs)
            /\ length points = 9%nat
            /\ length colors = 9%nat.
Proof.
  split; [lia|]. split; [reflexivity|].
  split; [exact square_batches_wf|]. split; [exact square_batches_match|].
  exact (composite_origin_row (list Batch) (scripted idle_batch) "train" "semantic" 4
           false 2 square_batches 25 25 eq_refl eq_refl
           square_batches_wf square_batches_match).
Defined.

(** ** The cell spacing and the repositioning *)







(** ** Bounding boxes of repositioned scenes *)

Section ColumnFold.
(** [op] is [Qmin] with [R] the order, or [Qmax] with [R] its converse. *)
Variable op : Q -> Q -> Q.
Variable R : Q -> Q -> Prop.
Hypothesis R_refl : forall x, R x x.
Hypothesis R_trans : forall x y z, R x y -> R y z -> R x z.
Hypothesis op_l : forall x y, R (op x y) x.
Hypothesis op_r : forall x y, R (op x y) y.
Hypothesis op_glb : forall x y z, R z x -> R z y -> R z (op x y).

Lemma fold_column_bound (k : nat) (rows : list (list Q)) : forall acc a,
  Forall (fun r => length r = length acc) rows ->
  acc !! k = Some a ->
  exists m,
    fold_left (zip_with op) rows acc !! k = Some m
    /\ R m a
    /\ (forall r v, r ∈ rows -> r !! k = Some v -> R m v)
    /\ (forall b, R b a -> (forall r v, r ∈ rows -> r !! k = Some v -> R b v) -> R b m).
Proof.
  induction rows as [|r rows IH]; intros acc a Hlen Ha.
  - exists a. simpl. split; [done|]. split; [apply R_refl|]. split.
    + intros r v Hr. by apply elem_of_nil in Hr.
    + intros b Hb _. exact Hb.
  - inversion Hlen as [|? ? Hr Hrest]; subst. simpl.
    assert (k < length r)%nat as Hk.
    { rewrite Hr. apply lookup_lt_is_Some. by eexists. }
    destruct (lookup_lt_is_Some_2 r k Hk) as [v Hv].
    assert (zip_with op acc r !! k = Some (op a v)) as Hz.
    { rewrite lookup_zip_with, Ha. simpl. by rewrite Hv. }
    destruct (IH (zip_with op acc r) (op a v)) as (m & Hm & Hma & Hrows & Hglb).
    { eapply Forall_impl; [exact Hrest|]. intros r' Hr'. simpl in Hr'.
      rewrite length_zip_with. lia. }
    { exact Hz. }
    exists m. split; [exact Hm|]. split; [|split].
    + eapply R_trans; [exact Hma|apply op_l].
    + intros r' v' Hin Hv'. apply elem_of_cons in Hin as [->|Hin].
      * assert (v' = v) as -> by congruence.
        eapply R_trans; [exact Hma|apply op_r].
      * by apply (Hrows r' v').
    + intros b Hb Hall. apply Hglb.
      * apply op_glb; [exact Hb|]. apply (Hall r v); [apply list_elem_of_here|exact Hv].
      * intros r' v' Hin Hv'. apply (Hall r' v'); [by apply list_elem_of_further|exact Hv'].
Qed.

End ColumnFold.

Lemma np_min_axis0_column (k : nat) (cloud : list (list Q)) (w : nat) :
  wf_scene w cloud -> (k < w)%nat ->
  exists mn m,
    np_min_axis0 cloud = Some mn /\ mn !! k = Some m
    /\ (forall r v, r ∈ cloud -> r !! k = Some v -> m <= v)
    /\ (forall b, (forall r v, r ∈ cloud -> r !! k = Some v -> b <= v) -> b <= m).
Proof.
  intros [Hne Hw] Hk. destruct cloud as [|r0 rows]; [done|].
  inversion Hw as [|? ? Hr0 Hrows]; subst.
  destruct (lookup_lt_is_Some_2 r0 k Hk) as [a Ha].
  destruct (fold_column_bound Qmin Qle Qle_refl Qle_trans Q.le_min_l Q.le_min_r
              (fun x y z => Q.min_glb x y z) k rows r0 a)
    as (m & Hm & Hma & Hall & Hglb); [done|done|].
  exists (fold_left (zip_with Qmin) rows r0), m.
  split; [done|]. split; [done|]. split.
  - intros r v Hin Hv. apply elem_of_cons in Hin as [->|Hin].
    + assert (v = a) as -> by congruence. exact Hma.
    + by apply (Hall r v).
  - intros b Hb. apply Hglb.
    + apply (Hb r0 a); [apply list_elem_of_here|exact Ha].
    + intros r v Hin Hv. apply (Hb r v); [by apply list_elem_of_further|exact Hv].
Qed.

Lemma np_max_axis0_column (k : nat) (cloud : list (list Q)) (w : nat) :
  wf_scene w cloud -> (k < w)%nat ->
  exists mx m,
    np_max_axis0 cloud = Some mx /\ mx !! k = Some m
    /\ (forall r v, r ∈ cloud -> r !! k = Some v -> v <= m)
    /\ (forall b, (forall r v, r ∈ cloud -> r !! k = Some v -> v <= b) -> m <= b).
Proof.
  intros [Hne Hw] Hk. destruct cloud as [|r0 rows]; [done|].
  inversion Hw as [|? ? Hr0 Hrows]; subst.
  destruct (lookup_lt_is_Some_2 r0 k Hk) as [a Ha].
  destruct (fold_column_bound Qmax (fun x y => y <= x) Qle_refl
              (fun x y z Hxy Hyz => Qle_trans z y x Hyz Hxy)
              Q.le_max_l Q.le_max_r (fun x y z => Q.max_lub x y z) k rows r0 a)
    as (m & Hm & Hma & Hall & Hglb); [done|done|].
  exists (fold_left (zip_with Qmax) rows r0), m.
  split; [done|]. split; [done|]. split.
  - intros r v Hin Hv. apply elem_of_cons in Hin as [->|Hin].
    + assert (v = a) as -> by congruence. exact Hma.
    + by apply (Hall r v).
  - intros b Hb. apply Hglb.
    + apply (Hb r0 a); [apply list_elem_of_here|exact Ha].
    + intros r v Hin Hv. apply (Hb r v); [by apply list_elem_of_further|exact Hv].
Qed.

Lemma grid_width_ge use_color : (3 <= grid_width use_color)%nat.
Proof. destruct use_color; simpl; lia. Qed.

Lemma cell_gap (j1 j2 : nat) (size e : Q) :
  (j1 < j2)%nat -> 0 <= e -> e < size ->
  inject_Z (Z.of_nat j1) * size + e < inject_Z (Z.of_nat j2) * size.
Proof.
  intros Hj He Hs.
  assert (inject_Z (Z.of_nat j1) + 1 <= inject_Z (Z.of_nat j2)) as Hstep.
  { unfold Qle. simpl. lia. }
  assert (0 <= (inject_Z (Z.of_nat j2) - inject_Z (Z.of_nat j1) - 1) * size) as Hprod.
  { apply Qmult_le_0_compat; lra. }
  lra.
Qed.

Lemma intervals_apart_l lo1 hi1 lo2 hi2 : hi1 < lo2 -> intervals_meet lo1 hi1 lo2 hi2 = false.
Proof.
  intros H. unfold intervals_meet.
  destruct (Qle_bool lo2 hi1) eqn:E; [|by rewrite andb_false_r].
  apply Qle_bool_iff in E. lra.
Qed.

Lemma intervals_apart_r lo1 hi1 lo2 hi2 : hi2 < lo1 -> intervals_meet lo1 hi1 lo2 hi2 = false.
Proof.
  intros H. unfold intervals_meet.
  destruct (Qle_bool lo1 hi2) eqn:E; [|done].
  apply Qle_bool_iff in E. lra.
Qed.

(** ** Repositioning in rounded arithmetic *)

Lemma position_scene_exact use_color xsize ysize i j scene :
  position_scene_fl (fun v => v) use_color xsize ysize i j scene
  = position_scene use_color xsize ysize i j scene.
Proof. reflexivity. Qed.

Lemma round_eighths_within (bound : Q) : rounds_within round_eighths (1 # 8) bound.
Proof.
  intros v _. unfold round_eighths.
  pose proof (Qfloor_le (8 * v)) as Hlo. pose proof (Qlt_floor (8 * v)) as Hhi.
  rewrite inject_Z_plus in Hhi.
  set (f := inject_Z (Qfloor (8 * v))) in *.
  assert (f / 8 == f * (1 # 8)) as -> by (field).
  change (inject_Z 1) with 1 in Hhi.
  split; lra.
Qed.

Lemma rounded_coordinate rnd eps B (c m off o base : Q) :
  0 <= eps -> eps <= B -> rounds_within rnd eps (6 * B) ->
  - B <= c <= B -> - B <= m <= B -> - B <= off <= B ->
  off - eps <= o <= off + eps -> m - eps <= base <= m + eps ->
  c + (off - m) - 4 * eps <= fl_sub rnd (fl_add rnd c o) base <= c + (off - m) + 4 * eps.
Proof.
  intros He HeB Hr [? ?] [? ?] [? ?] [? ?] [? ?]. unfold fl_sub, fl_add.
  destruct (Hr (c + o)) as [? ?]; [split; lra|].
  destruct (Hr (rnd (c + o) - base)) as [? ?]; [split; lra|].
  split; lra.
Qed.

Lemma shifted_column (k w : nat) (scene ps : list (list Q)) (c e : Q) :
  wf_scene w scene -> wf_scene w ps -> (k < w)%nat ->
  length ps = length scene ->
  (forall p r r' v v',
      scene !! p = Some r -> ps !! p = Some r' ->
      r !! k = Some v -> r' !! k = Some v' -> v + c - e <= v' <= v + c + e) ->
  exists mn m mx M mn' m' mx' M',
    np_min_axis0 scene = Some mn /\ mn !! k = Some m
    /\ np_max_axis0 scene = Some mx /\ mx !! k = Some M
    /\ np_min_axis0 ps = Some mn' /\ mn' !! k = Some m'
    /\ np_max_axis0 ps = Some mx' /\ mx' !! k = Some M'
    /\ m <= M
    /\ m + c - e <= m' <= m + c + e /\ M + c - e <= M' <= M + c + e.
Proof.
  intros Hwf Hwfp Hk Hlen Hrows.
  destruct (np_min_axis0_column k scene w Hwf Hk) as (mn & m & Hmn & Hm & Hlo & Hglb).
  destruct (np_max_axis0_column k scene w Hwf Hk) as (mx & M & Hmx & HM & Hhi & Hlub).
  destruct (np_min_axis0_column k ps w Hwfp Hk) as (mn' & m' & Hmn' & Hm' & Hlo' & Hglb').
  destruct (np_max_axis0_column k ps w Hwfp Hk) as (mx' & M' & Hmx' & HM' & Hhi' & Hlub').
  exists mn, m, mx, M, mn', m', mx', M'. repeat (split; [done|]).
  assert (forall r v, r ∈ scene -> r !! k = Some v ->
            exists r' v', r' ∈ ps /\ r' !! k = Some v' /\ v + c - e <= v' <= v + c + e)
    as Hfwd.
  { intros r v Hr Hv. apply list_elem_of_lookup in Hr as [p Hp].
    destruct (lookup_lt_is_Some_2 ps p) as [r' Hr'].
    { rewrite Hlen. by apply lookup_lt_Some in Hp. }
    assert (k < length r')%nat as Hk'.
    { destruct Hwfp as [_ Hl]. rewrite Forall_forall in Hl.
      rewrite (Hl r' (list_elem_of_lookup_2 _ _ _ Hr')). done. }
    destruct (lookup_lt_is_Some_2 r' k Hk') as [v' Hv'].
    exists r', v'. split; [by apply list_elem_of_lookup_2 in Hr'|]. split; [done|].
    by apply (Hrows p r r' v v'). }
  assert (forall r' v', r' ∈ ps -> r' !! k = Some v' ->
            exists r v, r ∈ scene /\ r !! k = Some v /\ v + c - e <= v' <= v + c + e)
    as Hbwd.
  { intros r' v' Hr' Hv'. apply list_elem_of_lookup in Hr' as [p Hp].
    destruct (lookup_lt_is_Some_2 scene p) as [r Hr].
    { rewrite <- Hlen. by apply lookup_lt_Some in Hp. }
    assert (k < length r)%nat as Hk'.
    { destruct Hwf as [_ Hl]. rewrite Forall_forall in Hl.
      rewrite (Hl r (list_elem_of_lookup_2 _ _ _ Hr)). done. }
    destruct (lookup_lt_is_Some_2 r k Hk') as [v Hv].
    exists r, v. split; [by apply list_elem_of_lookup_2 in Hr|]. split; [done|].
    by apply (Hrows p r r' v v'). }
  split; [|split; [split|split]].
  - destruct Hwf as [Hne Hl]. destruct scene as [|r0 rows]; [done|].
    assert (k < length r0)%nat as Hk0.
    { rewrite Forall_forall in Hl. rewrite (Hl r0); [done|apply list_elem_of_here]. }
    destruct (lookup_lt_is_Some_2 r0 k Hk0) as [v Hv].
    pose proof (Hlo r0 v (list_elem_of_here _ _) Hv).
    pose proof (Hhi r0 v (list_elem_of_here _ _) Hv). lra.
  - apply Hglb'. intros r' v' Hr' Hv'.
    destruct (Hbwd r' v' Hr' Hv') as (r & v & Hr & Hv & [? ?]).
    pose proof (Hlo r v Hr Hv). lra.
  - assert (m' - c - e <= m) as H; [|lra]. apply Hglb. intros r v Hr Hv.
    destruct (Hfwd r v Hr Hv) as (r' & v' & Hr' & Hv' & [? ?]).
    pose proof (Hlo' r' v' Hr' Hv'). lra.
  - assert (M <= M' - c + e) as H; [|lra]. apply Hlub. intros r v Hr Hv.
    destruct (Hfwd r v Hr Hv) as (r' & v' & Hr' & Hv' & [? ?]).
    pose proof (Hhi' r' v' Hr' Hv'). lra.
  - apply Hlub'. intros r' v' Hr' Hv'.
    destruct (Hbwd r' v' Hr' Hv') as (r & v & Hr & Hv & [? ?]).
    pose proof (Hhi r v Hr Hv). lra.
Qed.

Lemma position_scene_fl_wf rnd use_color xsize ysize i j scene :
  wf_scene (grid_width use_color) scene ->
  exists mn,
    np_min_axis0 scene = Some mn /\ length mn = grid_width use_color
    /\ position_scene_fl rnd use_color xsize ysize i j scene
       = Some (map (fun r =>
                      zip_with (fl_sub rnd)
                        (zip_with (fl_add rnd) r
                           (if use_color then cell_origin_fl rnd xsize ysize i j ++ [0; 0; 0]
                            else cell_origin_fl rnd xsize ysize i j))
                        (if use_color then zip_with (fl_mul rnd) mn [1; 1; 1; 0; 0; 0]
                         else mn))
                   scene).
Proof.
  intros Hwf. destruct (np_min_axis0_wf _ _ Hwf) as (mn & Hmn & Hlen).
  exists mn. split; [done|]. split; [done|].
  destruct Hwf as [Hne Hw].
  unfold position_scene_fl. rewrite Hmn. simpl.
  destruct use_color; simpl in *.
  - rewrite np_rows_same by done. simpl.
    rewrite np_broadcast_same by done. simpl.
    rewrite np_rows_same.
    + by rewrite map_map.
    + apply Forall_forall. intros r Hr. apply list_elem_of_In, in_map_iff in Hr as (r0 & <- & Hr0).
      rewrite !length_zip_with. simpl.
      rewrite Forall_forall in Hw. rewrite (Hw r0) by (by apply list_elem_of_In). by rewrite Hlen.
  - rewrite np_rows_same by done. simpl.
    rewrite np_rows_same.
    + by rewrite map_map.
    + apply Forall_forall. intros r Hr. apply list_elem_of_In, in_map_iff in Hr as (r0 & <- & Hr0).
      rewrite !length_zip_with. simpl.
      rewrite Forall_forall in Hw. rewrite (Hw r0) by (by apply list_elem_of_In). by rewrite Hlen.
Qed.

Lemma position_scene_fl_keeps_wf rnd use_color xsize ysize i j scene ps :
  wf_scene (grid_width use_color) scene ->
  position_scene_fl rnd use_color xsize ysize i j scene = Some ps ->
  wf_scene (grid_width use_color) ps.
Proof.
  intros Hwf Hps.
  destruct (position_scene_fl_wf rnd use_color xsize ysize i j scene Hwf)
    as (mn & _ & Hlen & Heq).
  rewrite Heq in Hps. injection Hps as <-.
  destruct Hwf as [Hne Hw]. split.
  - destruct scene; [done|]. done.
  - apply Forall_forall. intros r Hr. apply list_elem_of_In, in_map_iff in Hr as (r0 & <- & Hr0).
    rewrite !length_zip_with.
    rewrite Forall_forall in Hw. rewrite (Hw r0) by (by apply list_elem_of_In).
    destruct use_color; simpl in *; rewrite ?length_zip_with, Hlen; reflexivity.
Qed.

Lemma column_min_within (B : Q) (k w : nat) (scene : list (list Q)) (mn : list Q) (m : Q) :
  wf_scene w scene -> (k < w)%nat -> coords_within B scene ->
  np_min_axis0 scene = Some mn -> mn !! k = Some m -> - B <= m <= B.
Proof.
  intros Hwf Hk Hin Hmn Hm.
  destruct (np_min_axis0_column k scene w Hwf Hk) as (mn' & m' & Hmn' & Hm' & Hlo & Hglb).
  assert (mn' = mn) as -> by congruence. assert (m' = m) as -> by congruence.
  unfold coords_within in Hin. rewrite Forall_forall in Hin.
  split.
  - apply Hglb. intros r v Hr Hv. specialize (Hin r Hr). rewrite Forall_forall in Hin.
    destruct (Hin v) as [? _]; [by apply list_elem_of_lookup_2 in Hv|]. done.
  - destruct Hwf as [Hne Hl]. destruct scene as [|r0 rows]; [done|].
    assert (k < length r0)%nat as Hk0.
    { rewrite Forall_forall in Hl. rewrite (Hl r0); [done|apply list_elem_of_here]. }
    destruct (lookup_lt_is_Some_2 r0 k Hk0) as [v Hv].
    pose proof (Hlo r0 v (list_elem_of_here _ _) Hv).
    specialize (Hin r0 (list_elem_of_here _ _)). rewrite Forall_forall in Hin.
    destruct (Hin v) as [_ ?]; [by apply list_elem_of_lookup_2 in Hv|]. lra.
Qed.

Lemma position_scene_fl_rows rnd eps B use_color xsize ysize i j scene :
  wf_scene (grid_width use_color) scene ->
  0 <= eps -> eps <= B -> rounds_within rnd eps (6 * B) ->
  coords_within B scene -> cell_within B xsize ysize i j ->
  exists xm ym zm mrest ps,
    np_min_axis0 scene = Some (xm :: ym :: zm :: mrest)
    /\ position_scene_fl rnd use_color xsize ysize i j scene = Some ps
    /\ wf_scene (grid_width use_color) ps
    /\ length ps = length scene
    /\ forall p x y z chans,
         scene !! p = Some (x :: y :: z :: chans) ->
         exists x' y' z' chans',
           ps !! p = Some (x' :: y' :: z' :: chans')
           /\ x + (inject_Z (Z.of_nat j) * xsize - xm) - 4 * eps <= x'
              <= x + (inject_Z (Z.of_nat j) * xsize - xm) + 4 * eps
           /\ y + (inject_Z (Z.of_nat i) * ysize - ym) - 4 * eps <= y'
              <= y + (inject_Z (Z.of_nat i) * ysize - ym) + 4 * eps
           /\ z + (0 - zm) - 4 * eps <= z' <= z + (0 - zm) + 4 * eps.
Proof.
  intros Hwf He HeB Hr Hin [Hcx Hcy].
  destruct (position_scene_fl_wf rnd use_color xsize ysize i j scene Hwf)
    as (mn & Hmn & Hlen & Hps).
  pose proof (position_scene_fl_keeps_wf rnd use_color xsize ysize i j scene _ Hwf Hps)
    as Hwfp.
  pose proof (grid_width_ge use_color) as Hw3.
  assert (exists xm ym zm mrest, mn = xm :: ym :: zm :: mrest) as (xm & ym & zm & mrest & ->).
  { destruct mn as [|xm [|ym [|zm mrest]]]; simpl in Hlen; try lia. by eexists _, _, _, _. }
  pose proof (column_min_within B 0 _ scene _ xm Hwf ltac:(lia) Hin Hmn eq_refl) as Hxm.
  pose proof (column_min_within B 1 _ scene _ ym Hwf ltac:(lia) Hin Hmn eq_refl) as Hym.
  pose proof (column_min_within B 2 _ scene _ zm Hwf ltac:(lia) Hin Hmn eq_refl) as Hzm.
  assert (forall v, - B <= v <= B -> v - eps <= fl_mul rnd v 1 <= v + eps) as Hone.
  { intros v [? ?]. unfold fl_mul. destruct (Hr (v * 1)) as [? ?]; [split; lra|]. split; lra. }
  assert (forall n s, - B <= inject_Z (Z.of_nat n) * s <= B ->
            inject_Z (Z.of_nat n) * s - eps <= fl_mul rnd (inject_Z (Z.of_nat n)) s
            <= inject_Z (Z.of_nat n) * s + eps) as Horigin.
  { intros n s [? ?]. unfold fl_mul. apply Hr. split; lra. }
  eexists xm, ym, zm, mrest, _. split; [exact Hmn|]. split; [exact Hps|].
  split; [exact Hwfp|]. split; [by rewrite length_map|].
  intros p x y z chans Hp.
  assert (- B <= x <= B /\ - B <= y <= B /\ - B <= z <= B) as (Hx & Hy & Hz).
  { unfold coords_within in Hin. rewrite Forall_forall in Hin.
    pose proof (Hin _ (list_elem_of_lookup_2 _ _ _ Hp)) as Hrow.
    inversion Hrow as [|? ? ? Hrow1]; subst. inversion Hrow1 as [|? ? ? Hrow2]; subst.
    inversion Hrow2; subst. done. }
  assert (length (x :: y :: z :: chans) = grid_width use_color) as Hl.
  { destruct Hwf as [_ Hl]. rewrite Forall_forall in Hl.
    apply Hl. by apply list_elem_of_lookup_2 in Hp. }
  rewrite list_lookup_fmap, Hp.
  destruct use_color; simpl in Hl, Hlen.
  - destruct mrest as [|rm [|gm [|bm [|? ?]]]]; try done.
    destruct chans as [|r [|g [|b [|? ?]]]]; try done.
    simpl. eexists _, _, _, _. split; [reflexivity|].
    split; [|split].
    + apply (rounded_coordinate rnd eps B); try done; [by apply Horigin|by apply Hone].
    + apply (rounded_coordinate rnd eps B); try done; [by apply Horigin|by apply Hone].
    + apply (rounded_coordinate rnd eps B); try done; [split; lra|split; lra|by apply Hone].
  - destruct mrest as [|? ?]; try done.
    destruct chans as [|? ?]; try done.
    simpl. eexists _, _, _, _. split; [reflexivity|].
    split; [|split].
    + apply (rounded_coordinate rnd eps B); try done; [by apply Horigin|split; lra].
    + apply (rounded_coordinate rnd eps B); try done; [by apply Horigin|split; lra].
    + apply (rounded_coordinate rnd eps B); try done; split; lra.
Qed.

Lemma positioned_fl_box rnd eps B use_color xsize ysize i j scene :
  wf_scene (grid_width use_color) scene ->
  0 <= eps -> eps <= B -> rounds_within rnd eps (6 * B) ->
  coords_within B scene -> cell_within B xsize ysize i j ->
  exists ps xm ym zm mr xM yM zM Mr x1 y1 z1 r1 X1 Y1 Z1 R1,
    position_scene_fl rnd use_color xsize ysize i j scene = Some ps
    /\ np_min_axis0 scene = Some (xm :: ym :: zm :: mr)
    /\ np_max_axis0 scene = Some (xM :: yM :: zM :: Mr)
    /\ np_min_axis0 ps = Some (x1 :: y1 :: z1 :: r1)
    /\ np_max_axis0 ps = Some (X1 :: Y1 :: Z1 :: R1)
    /\ (xm <= xM /\ ym <= yM /\ zm <= zM)
    /\ (xm + (inject_Z (Z.of_nat j) * xsize - xm) - 4 * eps <= x1
        <= xm + (inject_Z (Z.of_nat j) * xsize - xm) + 4 * eps)
    /\ (xM + (inject_Z (Z.of_nat j) * xsize - xm) - 4 * eps <= X1
        <= xM + (inject_Z (Z.of_nat j) * xsize - xm) + 4 * eps)
    /\ (ym + (inject_Z (Z.of_nat i) * ysize - ym) - 4 * eps <= y1
        <= ym + (inject_Z (Z.of_nat i) * ysize - ym) + 4 * eps)
    /\ (yM + (inject_Z (Z.of_nat i) * ysize - ym) - 4 * eps <= Y1
        <= yM + (inject_Z (Z.of_nat i) * ysize - ym) + 4 * eps)
    /\ (zm + (0 - zm) - 4 * eps <= z1 <= zm + (0 - zm) + 4 * eps)
    /\ (zM + (0 - zm) - 4 * eps <= Z1 <= zM + (0 - zm) + 4 * eps).
Proof.
  intros Hwf He HeB Hr Hin Hcell.
  destruct (position_scene_fl_rows rnd eps B use_color xsize ysize i j scene
              Hwf He HeB Hr Hin Hcell)
    as (xm & ym & zm & mr & ps & Hmn & Hps & Hwfp & Hlen & Hrows).
  pose proof (grid_width_ge use_color) as Hw.
  assert (forall p r, scene !! p = Some r ->
            exists x y z chans x' y' z' chans',
              r = x :: y :: z :: chans /\ ps !! p = Some (x' :: y' :: z' :: chans')
              /\ x + (inject_Z (Z.of_nat j) * xsize - xm) - 4 * eps <= x'
                 <= x + (inject_Z (Z.of_nat j) * xsize - xm) + 4 * eps
              /\ y + (inject_Z (Z.of_nat i) * ysize - ym) - 4 * eps <= y'
                 <= y + (inject_Z (Z.of_nat i) * ysize - ym) + 4 * eps
              /\ z + (0 - zm) - 4 * eps <= z' <= z + (0 - zm) + 4 * eps) as Hrow.
  { intros p r Hp.
    assert (length r = grid_width use_color) as Hl.
    { destruct Hwf as [_ Hl]. rewrite Forall_forall in Hl.
      apply Hl. by apply list_elem_of_lookup_2 in Hp. }
    destruct r as [|x [|y [|z chans]]]; simpl in Hl; try lia.
    destruct (Hrows p x y z chans Hp) as (x' & y' & z' & chans' & Hp' & Hx & Hy & Hz).
    by exists x, y, z, chans, x', y', z', chans'. }
  destruct (shifted_column 0 _ scene ps (inject_Z (Z.of_nat j) * xsize - xm) (4 * eps)
              Hwf Hwfp) as (mn0 & m0 & mx0 & M0 & mn0' & m0' & mx0' & M0'
                            & H1 & H2 & H3 & H4 & H5 & H6 & H7 & H8 & Hox & Hmx & HMx);
    [lia|done| |].
  { intros p r r' v v' Hp Hp' Hv Hv'.
    destruct (Hrow p r Hp) as (x & y & z & ch & x' & y' & z' & ch' & -> & Hq & Hx & _).
    rewrite Hq in Hp'. injection Hp' as <-. simpl in Hv, Hv'.
    injection Hv as <-. injection Hv' as <-. exact Hx. }
  destruct (shifted_column 1 _ scene ps (inject_Z (Z.of_nat i) * ysize - ym) (4 * eps)
              Hwf Hwfp) as (mn1 & m1 & mx1 & M1 & mn1' & m1' & mx1' & M1'
                            & G1 & G2 & G3 & G4 & G5 & G6 & G7 & G8 & Hoy & Hmy & HMy);
    [lia|done| |].
  { intros p r r' v v' Hp Hp' Hv Hv'.
    destruct (Hrow p r Hp) as (x & y & z & ch & x' & y' & z' & ch' & -> & Hq & _ & Hy & _).
    rewrite Hq in Hp'. injection Hp' as <-. simpl in Hv, Hv'.
    injection Hv as <-. injection Hv' as <-. exact Hy. }
  destruct (shifted_column 2 _ scene ps (0 - zm) (4 * eps)
              Hwf Hwfp) as (mn2 & m2 & mx2 & M2 & mn2' & m2' & mx2' & M2'
                            & K1 & K2 & K3 & K4 & K5 & K6 & K7 & K8 & Hoz & Hmz & HMz);
    [lia|done| |].
  { intros p r r' v v' Hp Hp' Hv Hv'.
    destruct (Hrow p r Hp) as (x & y & z & ch & x' & y' & z' & ch' & -> & Hq & _ & _ & Hz).
    rewrite Hq in Hp'. injection Hp' as <-. simpl in Hv, Hv'.
    injection Hv as <-. injection Hv' as <-. exact Hz. }
  assert (mn1 = mn0 /\ mn2 = mn0 /\ mx1 = mx0 /\ mx2 = mx0
          /\ mn1' = mn0' /\ mn2' = mn0' /\ mx1' = mx0' /\ mx2' = mx0')
    as (-> & -> & -> & -> & -> & -> & -> & ->) by (repeat split; congruence).
  assert (mn0 = xm :: ym :: zm :: mr) as -> by congruence.
  simpl in H2, G2, K2. injection H2 as <-. injection G2 as <-. injection K2 as <-.
  destruct mx0 as [|xM [|yM [|zM Mr]]]; try done.
  destruct mn0' as [|x1 [|y1 [|z1 r1]]]; try done.
  destruct mx0' as [|X1 [|Y1 [|Z1 R1]]]; try done.
  simpl in H4, G4, K4, H6, G6, K6, H8, G8, K8.
  injection H4 as <-. injection G4 as <-. injection K4 as <-.
  injection H6 as <-. injection G6 as <-. injection K6 as <-.
  injection H8 as <-. injection G8 as <-. injection K8 as <-.
  exists ps, xm, ym, zm, mr, xM, yM, zM, Mr, x1, y1, z1, r1, X1, Y1, Z1, R1.
  do 5 (split; [done|]). split; [done|].
  split; [done|]. split; [done|]. split; [done|]. split; [done|]. split; done.
Qed.

(** C7, as amended.  Two scenes of the width the grid expects, placed in
    two distinct cells, have repositioned bounding boxes with no point in
    common provided the extent of each scene along the first axis is less
    than [xsize] and along the second axis less than [ysize] by more than
    eight times the error [eps] of one rounding.  The arithmetic of lines
    240-246 is any rounding that is within [eps] on numbers up to [6 * B]
    in magnitude, where [B] bounds the coordinates of the two scenes and of
    the two cell origins; exact arithmetic is the case [eps = 0]. *)
Theorem grid_cells_disjoint rnd eps B use_color xsize ysize i1 j1 i2 j2 s1 s2
  ex1 ey1 ex2 ey2 :
  (i1, j1) <> (i2, j2) ->
  wf_scene (grid_width use_color) s1 -> wf_scene (grid_width use_color) s2 ->
  0 <= eps -> eps <= B -> rounds_within rnd eps (6 * B) ->
  coords_within B s1 -> coords_within B s2 ->
  cell_within B xsize ysize i1 j1 -> cell_within B xsize ysize i2 j2 ->
  extent_xy s1 = Some (ex1, ey1) -> extent_xy s2 = Some (ex2, ey2) ->
  ex1 + 8 * eps < xsize -> ey1 + 8 * eps < ysize ->
  ex2 + 8 * eps < xsize -> ey2 + 8 * eps < ysize ->
  exists p1 p2,
    position_scene_fl rnd use_color xsize ysize i1 j1 s1 = Some p1
    /\ position_scene_fl rnd use_color xsize ysize i2 j2 s2 = Some p2
    /\ boxes_overlap p1 p2 = Some false.
Proof.
  intros Hcell Hwf1 Hwf2 He HeB Hr Hin1 Hin2 Hc1 Hc2 He1 He2 Hx1 Hy1 Hx2 Hy2.
  destruct (positioned_fl_box rnd eps B use_color xsize ysize i1 j1 s1
              Hwf1 He HeB Hr Hin1 Hc1)
    as (p1 & xm1 & ym1 & zm1 & mr1 & xM1 & yM1 & zM1 & Mr1
        & a1 & b1 & c1 & r1 & A1 & B1 & C1 & R1
        & Hp1 & Hsmn1 & Hsmx1 & Hmn1 & Hmx1 & (? & ? & ?) & ? & ? & ? & ? & _).
  destruct (positioned_fl_box rnd eps B use_color xsize ysize i2 j2 s2
              Hwf2 He HeB Hr Hin2 Hc2)
    as (p2 & xm2 & ym2 & zm2 & mr2 & xM2 & yM2 & zM2 & Mr2
        & a2 & b2 & c2 & r2 & A2 & B2 & C2 & R2
        & Hp2 & Hsmn2 & Hsmx2 & Hmn2 & Hmx2 & (? & ? & ?) & ? & ? & ? & ? & _).
  unfold extent_xy in He1, He2.
  rewrite Hsmn1, Hsmx1 in He1. rewrite Hsmn2, Hsmx2 in He2. simpl in He1, He2.
  injection He1 as <- <-. injection He2 as <- <-.
  exists p1, p2. split; [exact Hp1|]. split; [exact Hp2|].
  unfold boxes_overlap. rewrite Hmn1, Hmx1, Hmn2, Hmx2. simpl. f_equal.
  destruct (Nat.lt_trichotomy j1 j2) as [Hj|[Hj|Hj]].
  - rewrite (intervals_apart_l a1 A1 a2 A2); [done|].
    pose proof (cell_gap j1 j2 xsize (xM1 - xm1 + 8 * eps) Hj). lra.
  - subst j2. destruct (Nat.lt_trichotomy i1 i2) as [Hi|[Hi|Hi]].
    + rewrite (intervals_apart_l b1 B1 b2 B2); [by rewrite andb_false_r|].
      pose proof (cell_gap i1 i2 ysize (yM1 - ym1 + 8 * eps) Hi). lra.
    + by subst i2.
    + rewrite (intervals_apart_r b1 B1 b2 B2); [by rewrite andb_false_r|].
      pose proof (cell_gap i2 i1 ysize (yM2 - ym2 + 8 * eps) Hi). lra.
  - rewrite (intervals_apart_r a1 A1 a2 A2); [done|].
    pose proof (cell_gap j2 j1 xsize (xM2 - xm2 + 8 * eps) Hj). lra.
Qed.

Lemma grid_cells_disjoint_witness :
  (1%nat, 1%nat) <> (0%nat, 1%nat)
  /\ wf_scene (grid_width false) [[23 # 10; 3; 0]; [123 # 10; 13; 1]]
  /\ wf_scene (grid_width false) [[-5; 0; 0]; [5; 21 # 2; 2]]
  /\ rounds_within round_eighths (1 # 8) (6 * 100)
  /\ coords_within 100 [[23 # 10; 3; 0]; [123 # 10; 13; 1]]
  /\ coords_within 100 [[-5; 0; 0]; [5; 21 # 2; 2]]
  /\ cell_within 100 25 25 1 1 /\ cell_within 100 25 25 0 1
  /\ extent_xy [[23 # 10; 3; 0]; [123 # 10; 13; 1]]
     = Some ((123 # 10) - (23 # 10), 13 - 3)
  /\ extent_xy [[-5; 0; 0]; [5; 21 # 2; 2]] = Some (5 - -5, (21 # 2) - 0)
  /\ (21 # 2) - 0 + 8 * (1 # 8) < 25
  /\ exists p1 p2,
       position_scene_fl round_eighths false 25 25 1 1 [[23 # 10; 3; 0]; [123 # 10; 13; 1]]
       = Some p1
       /\ position_scene_fl round_eighths false 25 25 0 1 [[-5; 0; 0]; [5; 21 # 2; 2]]
          = Some p2
       /\ boxes_overlap p1 p2 = Some false.
Proof.
  assert (wf_scene (grid_width false) [[23 # 10; 3; 0]; [123 # 10; 13; 1]]) as Hwf1.
  { split; [done|]. repeat constructor. }
  assert (wf_scene (grid_width false) [[-5; 0; 0]; [5; 21 # 2; 2]]) as Hwf2.
  { split; [done|]. repeat constructor. }
  assert (coords_within 100 [[23 # 10; 3; 0]; [123 # 10; 13; 1]]) as Hin1.
  { repeat (constructor; [repeat (constructor; [split; discriminate|]); constructor|]).
    constructor. }
  assert (coords_within 100 [[-5; 0; 0]; [5; 21 # 2; 2]]) as Hin2.
  { repeat (constructor; [repeat (constructor; [split; discriminate|]); constructor|]).
    constructor. }
  assert (cell_within 100 25 25 1 1) as Hc1 by (repeat split; discriminate).
  assert (cell_within 100 25 25 0 1) as Hc2 by (repeat split; discriminate).
  split; [done|]. split; [exact Hwf1|]. split; [exact Hwf2|].
  split; [apply round_eighths_within|].
  split; [exact Hin1|]. split; [exact Hin2|]. split; [exact Hc1|]. split; [exact Hc2|].
  split; [reflexivity|]. split; [reflexivity|]. split; [reflexivity|].
  apply (grid_cells_disjoint round_eighths (1 # 8) 100 false 25 25 1 1 0 1 _ _
           ((123 # 10) - (23 # 10)) (13 - 3) (5 - -5) ((21 # 2) - 0));
    try done; try reflexivity; try discriminate.
  apply round_eighths_within.
Defined.

(** The margin of the amended claim is needed once results are rounded:
    with results rounded down to eighths and the spacing 25, a scene of
    extent 24.875 in cell (0, 0) and a scene starting at 7.3 in cell (0, 1)
    are both narrower than the spacing, and their repositioned boxes meet
    at 24.875. *)
Lemma rounded_cells_touch :
  extent_xy [[0; 0; 0]; [199 # 8; 0; 0]] = Some ((199 # 8) - 0, 0 - 0)
  /\ extent_xy [[73 # 10; 0; 0]; [83 # 10; 0; 0]] = Some ((83 # 10) - (73 # 10), 0 - 0)
  /\ (199 # 8) - 0 < 25 /\ (83 # 10) - (73 # 10) < 25
  /\ exists p1 p2,
       position_scene_fl round_eighths false 25 25 0 0 [[0; 0; 0]; [199 # 8; 0; 0]]
       = Some p1
       /\ position_scene_fl round_eighths false 25 25 0 1 [[73 # 10; 0; 0]; [83 # 10; 0; 0]]
          = Some p2
       /\ boxes_overlap p1 p2 = Some true.
Proof.
  split; [reflexivity|]. split; [reflexivity|]. split; [reflexivity|].
  split; [reflexivity|].
  eexists _, _. split; [vm_compute; reflexivity|]. split; vm_compute; reflexivity.
Qed.

(** The batch [wide_batch] refutes C7 as stated: with the spacing 25 by 25
    that the probe of [square_batch] gives, its first scene, thirty wide,
    reaches from cell (0, 0) into cell (0, 1), and the bounding boxes of the
    two repositioned scenes have points in common. *)
Lemma grid_cells_overlap_counterexample :
  grid_probe (b_data square_batch) = Some (25, 25)
  /\ (0%nat, 0%nat) <> (0%nat, 1%nat)
  /\ exists p1 p2,
       position_scene false 25 25 0 0 [[0; 0; 0]; [30; 10; 0]] = Some p1
       /\ position_scene false 25 25 0 1 [[0; 0; 0]; [10; 10; 0]] = Some p2
       /\ batch_points false 25 25 0 (b_data wide_batch) = Some (p1 ++ p2)
       /\ boxes_overlap p1 p2 = Some true.
Proof.
  split; [reflexivity|]. split; [done|].
  eexists _, _. split; [vm_compute; reflexivity|]. split; [vm_compute; reflexivity|].
  split; vm_compute; reflexivity.
Qed.

(** ** The fallback mode *)

(** C9 fails on the code.  The two paths written for scene [j] of a batch
    are built from [j] alone, so every batch writes the same paths as the
    batch before it.  A run over the two batches [square_batch] and
    [wide_batch] of two scenes each makes eight writes and leaves four files,
    which hold the scenes of the last batch: the exports of the first batch
    are gone. *)
Theorem fallback_exports_overwritten :
  (forall SET DATASET_NAME NUM_CLASSES use_color b j scene,
      (default [] (scene_export SET DATASET_NAME NUM_CLASSES use_color b j scene)).*1
      = if b_labels b !! j is Some _ then
          [ (batches_dir SET DATASET_NAME ++ "/" ++ SET ++ "_" ++ "trueColors" ++ "_"
               ++ pretty j ++ ".txt")%string;
            (batches_dir SET DATASET_NAME ++ "/" ++ SET ++ "_" ++ "labelColors" ++ "_"
               ++ pretty j ++ ".txt")%string ]
        else [])
  /\ let run := fallback_pass (list Batch) (scripted idle_batch) "train" "semantic" 4 false 2
                  [square_batch; wide_batch] in
     snd run = true
     /\ length (fst run) = 8%nat
     /\ size (write_all (fst run) ∅) = 4%nat
     /\ write_all (fst run) ∅ !! "visu/semantic_train/grouped_by_batches/train_trueColors_0.txt"%string
        = Some (true_color_ply false [[0; 0; 0]; [30; 10; 0]])
     /\ write_all (fst run) ∅
        = write_all (fst (fallback_pass (list Batch) (scripted idle_batch) "train" "semantic"
                            4 false 1 [wide_batch])) ∅.
Proof.
  split.
  - intros SET DATASET_NAME NUM_CLASSES use_color b j scene.
    unfold scene_export. by destruct (b_labels b !! j).
  - split; [vm_compute; reflexivity|]. split; [vm_compute; reflexivity|].
    split; [vm_compute; reflexivity|]. split; vm_compute; reflexivity.
Qed.

(** * Further properties *)

(** ** The accumulation loop on arbitrary draws *)

Lemma np_iadd_is_Some (a b : list Q) :
  is_Some (np_iadd a b) <-> length b = length a \/ length b = 1%nat.
Proof.
  unfold np_iadd. destruct (length b =? length a)%nat eqn:E.
  - apply Nat.eqb_eq in E. split; [by left|by eexists].
  - apply Nat.eqb_neq in E. destruct b as [|y [|? ?]]; simpl in *.
    + split; [by intros [? ?]|intros [?|?]; congruence].
    + split; [by right|by eexists].
    + split; [by intros [? ?]|intros [?|?]; [congruence|lia]].
Qed.

Lemma np_iadd_length (a b c : list Q) : np_iadd a b = Some c -> length c = length a.
Proof.
  unfold np_iadd. destruct (length b =? length a)%nat eqn:E.
  - apply Nat.eqb_eq in E. intros [= <-]. rewrite length_zip_with. lia.
  - destruct b as [|y [|? ?]]; try done. intros [= <-]. by rewrite length_map.
Qed.

Section LoopFacts.
Context {Seed : Type}.
Variable Accessor : Type.
Variable next_input : Accessor -> Draw Seed * Accessor.
Variable filenames : list string.
Variable get_scene_shape : nat -> nat.
Variable NUM_CLASSES : nat.

Abbreviation shaped := (@stats_shaped Seed filenames get_scene_shape NUM_CLASSES).
Abbreviation ok := (@draw_ok Seed filenames get_scene_shape NUM_CLASSES).
Abbreviation init := (@stats_init Seed filenames get_scene_shape NUM_CLASSES).
Abbreviation loop := (stats_loop Accessor next_input).
Abbreviation draws := (draw_seq Accessor next_input).

Lemma stats_init_shaped : shaped init.
Proof.
  unfold stats_shaped, stats_init. simpl.
  rewrite !length_fmap, !length_seq, !length_np_zeros.
  repeat split; try done.
  intros f h Hh. rewrite list_lookup_fmap in Hh.
  destruct (seq 0 (length filenames) !! f) as [g|] eqn:E; [|done].
  apply lookup_seq in E as [-> _]. injection Hh as <-. apply length_np_zeros.
Qed.

Lemma stats_step_shaped st d st' :
  shaped st -> stats_step st d = Some st' -> shaped st'.
Proof.
  intros (Lh & Lc & Ls & Ll & Hrows) Hstep. unfold stats_step in Hstep.
  apply bind_Some in Hstep as (fh & Hfh & Hstep).
  apply bind_Some in Hstep as (h & Hh & Hstep).
  apply bind_Some in Hstep as (h' & Hh' & Hstep).
  apply bind_Some in Hstep as (fc & Hfc & Hstep).
  apply bind_Some in Hstep as (c & Hc & Hstep).
  apply bind_Some in Hstep as (fs & Hfs & Hstep).
  apply bind_Some in Hstep as (s & Hs & Hstep).
  apply bind_Some in Hstep as (lh & Hlh & Hstep).
  injection Hstep as <-. unfold stats_shaped. simpl. rewrite !length_insert.
  split; [done|]. split; [done|]. split; [done|]. split.
  - apply np_iadd_length in Hlh. congruence.
  - intros f g Hg. destruct (decide (f = fh)) as [->|Hne].
    + rewrite list_lookup_insert_eq in Hg by (by apply lookup_lt_Some in Hh).
      injection Hg as <-. apply np_iadd_length in Hh'. rewrite Hh'. by apply Hrows.
    + rewrite list_lookup_insert_ne in Hg by done. by apply Hrows.
Qed.

Lemma stats_step_is_Some st d :
  shaped st -> is_Some (stats_step st d) <-> ok d = true.
Proof.
  intros (Lh & Lc & Ls & Ll & Hrows). unfold stats_step, draw_ok.
  rewrite Lh, Lc, Ls.
  destruct (py_index (length filenames) (d_scene d)) as [f|] eqn:Hf; simpl.
  2:{ split; [by intros [? ?]|done]. }
  pose proof (py_index_lt _ _ _ Hf) as Hlt.
  destruct (lookup_lt_is_Some_2 (hist_list st) f) as [h Hh]; [lia|].
  destruct (lookup_lt_is_Some_2 (scene_counters st) f) as [c Hc]; [lia|].
  destruct (lookup_lt_is_Some_2 (seeds_list st) f) as [s Hs]; [lia|].
  rewrite Hh, Hc, Hs. simpl.
  pose proof (np_iadd_is_Some h (d_mask d)) as Hm.
  pose proof (np_iadd_is_Some (label_hist st) (d_label_hist d)) as Hl.
  rewrite (Hrows f h Hh) in Hm. rewrite Ll in Hl.
  rewrite andb_true_iff, !orb_true_iff, !Nat.eqb_eq.
  destruct (np_iadd h (d_mask d)) as [h'|]; simpl.
  - destruct (np_iadd (label_hist st) (d_label_hist d)) as [lh|]; simpl.
    + split; [|by eexists]. intros _. split; [apply Hm|apply Hl]; by eexists.
    + split; [by intros [? ?]|]. intros [_ H]. by apply Hl in H as [? ?].
  - split; [by intros [? ?]|]. intros [H _]. by apply Hm in H as [? ?].
Qed.

Lemma stats_loop_shaped n : forall st a st' a',
  shaped st -> loop n st a = Some (st', a') -> shaped st'.
Proof.
  induction n as [|n IH]; intros st a st' a' Hst Hloop; simpl in Hloop.
  - by injection Hloop as <- <-.
  - destruct (next_input a) as [d a1]. apply bind_Some in Hloop as (st1 & Hstep & Hloop).
    eapply IH; [|exact Hloop]. by eapply stats_step_shaped.
Qed.

Lemma stats_loop_is_Some n : forall st a,
  shaped st -> is_Some (loop n st a) <-> forallb ok (draws n a) = true.
Proof.
  induction n as [|n IH]; intros st a Hst; simpl.
  - split; [done|by eexists].
  - destruct (next_input a) as [d a1] eqn:E. simpl.
    rewrite andb_true_iff, <- (stats_step_is_Some st d Hst).
    destruct (stats_step st d) as [st1|] eqn:Hstep; simpl.
    + rewrite (IH st1 a1) by (by eapply stats_step_shaped).
      split; [intros H; split; [by eexists|done]|by intros [_ H]].
    + split; [by intros [? ?]|by intros [[? ?] _]].
Qed.

(** X1.  Whatever the accessor returns, a run of the accumulation loop that
    ends without error leaves the accumulators with the shapes they were
    created with: one counter vector, one draw counter and one seed list per
    scene, [NUM_CLASSES] class bins, and as many counters for scene [f] as
    [get_scene_shape(f)] announced. *)
Theorem stats_loop_keeps_shapes n a st a' :
  stats_loop Accessor next_input n (stats_init filenames get_scene_shape NUM_CLASSES) a
  = Some (st, a') ->
  stats_shaped filenames get_scene_shape NUM_CLASSES st.
Proof. apply stats_loop_shaped, stats_init_shaped. Qed.

(** X2.  The accumulation loop ends without error exactly when every draw
    names a scene by an index Python accepts (from [-F] to [F - 1]) and
    brings a mask and class counts that either have the length of their
    accumulator or one entry; one draw outside that makes every run that
    reaches it fail. *)
Theorem stats_loop_succeeds_iff n a :
  is_Some (stats_loop Accessor next_input n
             (stats_init filenames get_scene_shape NUM_CLASSES) a)
  <-> forallb (draw_ok filenames get_scene_shape NUM_CLASSES)
        (draw_seq Accessor next_input n a) = true.
Proof. apply stats_loop_is_Some, stats_init_shaped. Qed.

Lemma concat_insert_snoc {A : Type} (l : list (list A)) (i : nat) (s : list A) (x : A) :
  l !! i = Some s ->
  length (concat (<[i := s ++ [x]]> l)) = S (length (concat l)).
Proof.
  revert i. induction l as [|y l IH]; intros i Hi; [done|].
  destruct i as [|i]; simpl in *.
  - injection Hi as ->. rewrite !length_app. simpl. lia.
  - rewrite !length_app, (IH i Hi). lia.
Qed.

Lemma stats_step_seeds st d st' :
  shaped st -> stats_step st d = Some st' ->
  (forall f c s, scene_counters st !! f = Some c -> seeds_list st !! f = Some s ->
                 c = inject_Z (Z.of_nat (length s))) ->
  (forall f c s, scene_counters st' !! f = Some c -> seeds_list st' !! f = Some s ->
                 c = inject_Z (Z.of_nat (length s)))
  /\ length (concat (seeds_list st')) = S (length (concat (seeds_list st))).
Proof.
  intros (Lh & Lc & Ls & Ll & Hrows) Hstep Hinv. unfold stats_step in Hstep.
  apply bind_Some in Hstep as (fh & Hfh & Hstep).
  apply bind_Some in Hstep as (h & Hh & Hstep).
  apply bind_Some in Hstep as (h' & Hh' & Hstep).
  apply bind_Some in Hstep as (fc & Hfc & Hstep).
  apply bind_Some in Hstep as (c & Hc & Hstep).
  apply bind_Some in Hstep as (fs & Hfs & Hstep).
  apply bind_Some in Hstep as (s & Hs & Hstep).
  apply bind_Some in Hstep as (lh & Hlh & Hstep).
  injection Hstep as <-. simpl.
  assert (fs = fc) as -> by congruence.
  split; [|by apply concat_insert_snoc].
  intros f c' s' Hc' Hs'. destruct (decide (f = fc)) as [->|Hne].
  - rewrite list_lookup_insert_eq in Hc' by (by apply lookup_lt_Some in Hc).
    rewrite list_lookup_insert_eq in Hs' by (by apply lookup_lt_Some in Hs).
    injection Hc' as <-. injection Hs' as <-.
    rewrite (Hinv fc c s Hc Hs), length_app. simpl.
    rewrite Nat.add_1_r. apply inject_Z_succ.
  - rewrite list_lookup_insert_ne in Hc' by done.
    rewrite list_lookup_insert_ne in Hs' by done. by apply (Hinv f).
Qed.

Lemma stats_loop_seeds n : forall st a st' a',
  shaped st -> loop n st a = Some (st', a') ->
  (forall f c s, scene_counters st !! f = Some c -> seeds_list st !! f = Some s ->
                 c = inject_Z (Z.of_nat (length s))) ->
  (forall f c s, scene_counters st' !! f = Some c -> seeds_list st' !! f = Some s ->
                 c = inject_Z (Z.of_nat (length s)))
  /\ length (concat (seeds_list st')) = (length (concat (seeds_list st)) + n)%nat.
Proof.
  induction n as [|n IH]; intros st a st' a' Hst Hloop Hinv; simpl in Hloop.
  - injection Hloop as <- <-. split; [done|lia].
  - destruct (next_input a) as [d a1]. apply bind_Some in Hloop as (st1 & Hstep & Hloop).
    destruct (stats_step_seeds st d st1 Hst Hstep Hinv) as [Hinv1 Hlen1].
    destruct (IH st1 a1 st' a' (stats_step_shaped st d st1 Hst Hstep) Hloop Hinv1)
      as [Hinv' Hlen'].
    split; [done|]. rewrite Hlen', Hlen1. lia.
Qed.

(** X3.  Whatever the accessor returns, after [n] iterations that ended
    without error the draw counter of every scene is the number of seeds
    recorded for it, so the seeds table of a scene has one row per draw of
    that scene, and the seed lists hold [n] seeds in all. *)
Theorem seeds_follow_draws n a st a' :
  stats_loop Accessor next_input n (stats_init filenames get_scene_shape NUM_CLASSES) a
  = Some (st, a') ->
  (forall f c s, scene_counters st !! f = Some c -> seeds_list st !! f = Some s ->
                 c = inject_Z (Z.of_nat (length s)))
  /\ length (concat (seeds_list st)) = n.
Proof.
  intros Hloop.
  destruct (stats_loop_seeds n init a st a' stats_init_shaped Hloop) as [Hinv Hlen].
  - intros f c s Hc Hs. unfold stats_init in Hc, Hs. simpl in Hc, Hs.
    rewrite list_lookup_fmap in Hs.
    destruct (seq 0 (length filenames) !! f) as [g|] eqn:E; [|done].
    injection Hs as <-. unfold np_zeros in Hc.
    apply lookup_replicate in Hc as [-> _]. done.
  - split; [exact Hinv|]. rewrite Hlen.
    assert (concat (seeds_list init) = @nil Seed) as ->; [|done].
    unfold stats_init. simpl. generalize (seq 0 (length filenames)).
    intros l. induction l as [|x l IH]; [done|]. simpl. exact IH.
Qed.

End LoopFacts.

Lemma stats_loop_keeps_shapes_witness :
  stats_loop (list (Draw nat)) (scripted idle_draw) 6
    (stats_init two_scenes two_scenes_shape 2) two_scenes_draws
  = Some (two_scenes_stats, [])
  /\ stats_shaped two_scenes two_scenes_shape 2 two_scenes_stats.
Proof.
  split; [exact two_scenes_run|].
  exact (stats_loop_keeps_shapes (list (Draw nat)) (scripted idle_draw) two_scenes
           two_scenes_shape 2 6 two_scenes_draws two_scenes_stats [] two_scenes_run).
Defined.

Lemma seeds_follow_draws_witness :
  stats_loop (list (Draw nat)) (scripted idle_draw) 6
    (stats_init two_scenes two_scenes_shape 2) two_scenes_draws
  = Some (two_scenes_stats, [])
  /\ (forall f c s,
        scene_counters two_scenes_stats !! f = Some c ->
        seeds_list two_scenes_stats !! f = Some s ->
        c = inject_Z (Z.of_nat (length s)))
  /\ length (concat (seeds_list two_scenes_stats)) = 6%nat.
Proof.
  split; [exact two_scenes_run|].
  exact (seeds_follow_draws (list (Draw nat)) (scripted idle_draw) two_scenes
           two_scenes_shape 2 6 two_scenes_draws two_scenes_stats [] two_scenes_run).
Defined.

Lemma py_index_wrap (len : nat) (f : Z) :
  (0 <= f < Z.of_nat len)%Z -> py_index len (f - Z.of_nat len) = py_index len f.
Proof.
  intros Hf. unfold py_index.
  replace ((0 <=? f - Z.of_nat len)%Z && (f - Z.of_nat len <? Z.of_nat len)%Z)%bool
    with false by (symmetry; apply andb_false_iff; left; lia).
  replace ((- Z.of_nat len <=? f - Z.of_nat len)%Z && (f - Z.of_nat len <? 0)%Z)%bool
    with true by (symmetry; apply andb_true_iff; lia).
  replace ((0 <=? f)%Z && (f <? Z.of_nat len)%Z)%bool
    with true by (symmetry; apply andb_true_iff; lia).
  f_equal. lia.
Qed.

(** X4.  The loop body does not inspect the scene index it is given: a draw
    that names scene [f - F], for [f] from [0] to [F - 1], is added to the
    accumulators of scene [f] exactly as the draw that names [f], by
    Python's indexing from the end. *)
Theorem negative_scene_index_wraps {Seed : Type} (filenames : list string)
  (get_scene_shape : nat -> nat) (NUM_CLASSES : nat) (st : Stats Seed) (d : Draw Seed) :
  stats_shaped filenames get_scene_shape NUM_CLASSES st ->
  (0 <= d_scene d < Z.of_nat (length filenames))%Z ->
  stats_step st {| d_scene := d_scene d - Z.of_nat (length filenames);
                   d_mask := d_mask d;
                   d_label_hist := d_label_hist d;
                   d_seed := d_seed d |}
  = stats_step st d.
Proof.
  intros (Lh & Lc & Ls & _) Hf. unfold stats_step. simpl.
  rewrite Lh, Lc, Ls. by rewrite (py_index_wrap _ _ Hf).
Qed.

Lemma two_scenes_stats_shaped :
  stats_shaped two_scenes two_scenes_shape 2 two_scenes_stats.
Proof.
  apply (stats_loop_shaped (list (Draw nat)) (scripted idle_draw) two_scenes
           two_scenes_shape 2 6 (stats_init two_scenes two_scenes_shape 2)
           two_scenes_draws two_scenes_stats []).
  - apply stats_init_shaped.
  - exact two_scenes_run.
Defined.

Lemma negative_scene_index_wraps_witness :
  stats_shaped two_scenes two_scenes_shape 2 two_scenes_stats
  /\ (0 <= 1 < Z.of_nat (length two_scenes))%Z
  /\ stats_step two_scenes_stats
       {| d_scene := 1 - Z.of_nat (length two_scenes); d_mask := [1; 1];
          d_label_hist := [1; 1]; d_seed := 0%nat |}
     = stats_step two_scenes_stats
         {| d_scene := 1; d_mask := [1; 1]; d_label_hist := [1; 1]; d_seed := 0%nat |}.
Proof.
  split; [exact two_scenes_stats_shaped|]. split; [simpl; lia|].
  apply (negative_scene_index_wraps two_scenes two_scenes_shape 2 two_scenes_stats
           {| d_scene := 1; d_mask := [1; 1]; d_label_hist := [1; 1]; d_seed := 0%nat |}
           two_scenes_stats_shaped).
  simpl. lia.
Defined.

(** ** Totals and bounds of the counts *)

Lemma fold_left_Qplus_acc (l : list Q) (a : Q) :
  fold_left Qplus l a == a + fold_left Qplus l 0.
Proof.
  revert a. induction l as [|x l IH]; intros a; simpl; [ring|].
  rewrite (IH (a + x)), (IH (0 + x)). ring.
Qed.

Lemma np_sum_cons (x : Q) (l : list Q) : np_sum (x :: l) == x + np_sum l.
Proof. unfold np_sum. simpl. rewrite fold_left_Qplus_acc. ring. Qed.

Lemma np_sum_snoc (l : list Q) (x : Q) : np_sum (l ++ [x]) == np_sum l + x.
Proof. unfold np_sum. rewrite fold_left_app. simpl. reflexivity. Qed.

Lemma np_sum_zip_with (a : list Q) : forall b,
  length a = length b -> np_sum (zip_with Qplus a b) == np_sum a + np_sum b.
Proof.
  induction a as [|x a IH]; intros [|y b] Hlen; try done.
  simpl zip_with. rewrite !np_sum_cons, IH by (simpl in Hlen; lia). ring.
Qed.

Lemma np_sum_vsum n (vs : list (list Q)) :
  Forall (fun v => length v = n) vs ->
  np_sum (vsum n vs) == np_sum (map np_sum vs).
Proof.
  induction vs as [|v vs IH] using rev_ind; intros Hvs.
  - unfold vsum. simpl. by rewrite np_sum_zeros.
  - apply Forall_app in Hvs as [Hvs Hv]. inversion Hv as [|? ? Hlen _]; subst.
    rewrite vsum_snoc, map_app. simpl map. rewrite np_sum_snoc, <- IH by done.
    apply np_sum_zip_with. by rewrite length_vsum.
Qed.

Lemma vsum_bounded n (vs : list (list Q)) :
  Forall (fun v => length v = n /\ Forall (fun x => 0 <= x /\ x <= 1) v) vs ->
  forall p x, vsum n vs !! p = Some x ->
              0 <= x /\ x <= inject_Z (Z.of_nat (length vs)).
Proof.
  induction vs as [|v vs IH] using rev_ind; intros Hvs p x Hx.
  - unfold vsum, np_zeros in Hx. simpl in Hx.
    apply lookup_replicate in Hx as [-> _]. simpl. split; apply Qle_refl.
  - apply Forall_app in Hvs as [Hvs Hv]. inversion Hv as [|? ? [Hlen Hrange] _]; subst.
    rewrite vsum_snoc in Hx. apply lookup_zip_with_Some in Hx as (x1 & x2 & -> & Hx1 & Hx2).
    destruct (IH Hvs p x1 Hx1) as [Hlo Hhi].
    rewrite Forall_forall in Hrange.
    destruct (Hrange x2 (list_elem_of_lookup_2 _ _ _ Hx2)) as [Hlo2 Hhi2].
    rewrite length_app. simpl. rewrite Nat.add_1_r, <- inject_Z_succ. split; lra.
Qed.

Section TotalsFacts.
Context {Seed : Type}.
Variable Accessor : Type.
Variable next_input : Accessor -> Draw Seed * Accessor.
Variable filenames : list string.
Variable get_scene_shape : nat -> nat.
Variable NUM_CLASSES : nat.

Abbreviation wf := (@wf_draw Seed filenames get_scene_shape NUM_CLASSES).
Abbreviation init := (@stats_init Seed filenames get_scene_shape NUM_CLASSES).
Abbreviation loop := (stats_loop Accessor next_input).
Abbreviation draws := (draw_seq Accessor next_input).

(** X5.  After [N] draws that fit the dataset, the bins of [label_hist] sum
    to the total of the class counts the draws brought, and the counters of
    every scene sum to the total of the masks drawn for that scene: the
    accumulation neither loses nor invents a count. *)
Theorem histogram_totals N a st a' :
  Forall (wf_draw filenames get_scene_shape NUM_CLASSES) (draw_seq Accessor next_input N a) ->
  stats_loop Accessor next_input N (stats_init filenames get_scene_shape NUM_CLASSES) a
  = Some (st, a') ->
  np_sum (label_hist st)
  == np_sum (map (fun d => np_sum (d_label_hist d)) (draw_seq Accessor next_input N a))
  /\ forall f h,
       hist_list st !! f = Some h ->
       np_sum h == np_sum (map (fun d => np_sum (d_mask d))
                             (draws_on filenames f (draw_seq Accessor next_input N a))).
Proof.
  intros Hwf Hloop.
  pose proof (accumulated_after_loop Accessor next_input filenames get_scene_shape
                NUM_CLASSES N a st a' Hwf Hloop) as (Hlab & Lh & _ & _ & Hsc).
  split.
  - rewrite Hlab, np_sum_vsum.
    + by rewrite map_map.
    + apply Forall_fmap. eapply Forall_impl; [exact Hwf|].
      intros d (? & _ & _ & Hd). exact Hd.
  - intros f h Hh.
    assert (f < length filenames)%nat as Hf.
    { rewrite <- Lh. by apply lookup_lt_Some in Hh. }
    destruct (Hsc f Hf) as (Hh' & _).
    assert (h = vsum (get_scene_shape f) (d_mask <$> draws_on filenames f (draws N a)))
      as -> by congruence.
    rewrite np_sum_vsum.
    + by rewrite map_map.
    + by apply (draws_on_wf filenames get_scene_shape NUM_CLASSES).
Qed.

(** X6.  When, besides, every mask entry lies between 0 and 1 (a boolean
    mask), no point of a scene is counted more often than the scene was
    drawn: every counter lies between 0 and [scene_counters[f]], and the
    occurrence likelihood [100 * count / scene_counters[f]] of a drawn scene
    lies between 0 and 100. *)
Theorem selection_counts_bounded N a st a' :
  Forall (wf_draw filenames get_scene_shape NUM_CLASSES) (draw_seq Accessor next_input N a) ->
  Forall (fun d => Forall (fun x => 0 <= x /\ x <= 1) (d_mask d))
    (draw_seq Accessor next_input N a) ->
  stats_loop Accessor next_input N (stats_init filenames get_scene_shape NUM_CLASSES) a
  = Some (st, a') ->
  forall f h c p x,
    hist_list st !! f = Some h -> scene_counters st !! f = Some c ->
    h !! p = Some x ->
    0 <= x /\ x <= c
    /\ (0 < c -> 0 <= 100 * x / c /\ 100 * x / c <= 100).
Proof.
  intros Hwf Hmask Hloop f h c p x Hh Hc Hx.
  pose proof (accumulated_after_loop Accessor next_input filenames get_scene_shape
                NUM_CLASSES N a st a' Hwf Hloop) as (_ & Lh & _ & _ & Hsc).
  assert (f < length filenames)%nat as Hf.
  { rewrite <- Lh. by apply lookup_lt_Some in Hh. }
  destruct (Hsc f Hf) as (Hh' & Hc' & _).
  assert (h = vsum (get_scene_shape f) (d_mask <$> draws_on filenames f (draws N a)))
    as -> by congruence.
  assert (c = inject_Z (Z.of_nat (length (draws_on filenames f (draws N a)))))
    as -> by congruence.
  destruct (vsum_bounded (get_scene_shape f)
              (d_mask <$> draws_on filenames f (draws N a))) with (p := p) (x := x)
    as [Hlo Hhi]; [|exact Hx|].
  { apply Forall_fmap. apply Forall_forall. intros d Hd.
    apply list_elem_of_In in Hd. unfold draws_on in Hd. apply filter_In in Hd as [Hd Hon].
    apply list_elem_of_In in Hd. simpl. split.
    - unfold on_scene in Hon. apply bool_decide_eq_true in Hon.
      rewrite Forall_forall in Hwf. destruct (Hwf d Hd) as (f' & Hf' & Hm & _). congruence.
    - rewrite Forall_forall in Hmask. by apply Hmask. }
  rewrite length_fmap in Hhi.
  split; [done|]. split; [done|]. intros Hpos. split.
  - apply Qle_shift_div_l; [done|]. lra.
  - apply Qle_shift_div_r; [done|]. lra.
Qed.

End TotalsFacts.

Lemma two_scenes_masks_boolean :
  Forall (fun d : Draw nat => Forall (fun x => 0 <= x /\ x <= 1) (d_mask d))
    (draw_seq (list (Draw nat)) (scripted idle_draw) 6 two_scenes_draws).
Proof. repeat (constructor; [repeat (constructor; [split; discriminate|]); constructor|]). constructor. Defined.

Lemma histogram_totals_witness :
  Forall (wf_draw two_scenes two_scenes_shape 2)
    (draw_seq (list (Draw nat)) (scripted idle_draw) 6 two_scenes_draws)
  /\ stats_loop (list (Draw nat)) (scripted idle_draw) 6
       (stats_init two_scenes two_scenes_shape 2) two_scenes_draws
     = Some (two_scenes_stats, [])
  /\ np_sum (label_hist two_scenes_stats)
     == np_sum (map (fun d => np_sum (d_label_hist d))
                  (draw_seq (list (Draw nat)) (scripted idle_draw) 6 two_scenes_draws)).
Proof.
  split; [exact two_scenes_draws_wf|]. split; [exact two_scenes_run|].
  exact (proj1 (histogram_totals (list (Draw nat)) (scripted idle_draw) two_scenes
                  two_scenes_shape 2 6 two_scenes_draws two_scenes_stats []
                  two_scenes_draws_wf two_scenes_run)).
Defined.

Lemma selection_counts_bounded_witness :
  Forall (wf_draw two_scenes two_scenes_shape 2)
    (draw_seq (list (Draw nat)) (scripted idle_draw) 6 two_scenes_draws)
  /\ Forall (fun d : Draw nat => Forall (fun x => 0 <= x /\ x <= 1) (d_mask d))
       (draw_seq (list (Draw nat)) (scripted idle_draw) 6 two_scenes_draws)
  /\ stats_loop (list (Draw nat)) (scripted idle_draw) 6
       (stats_init two_scenes two_scenes_shape 2) two_scenes_draws
     = Some (two_scenes_stats, [])
  /\ hist_list two_scenes_stats !! 0%nat = Some [2; 1; 1; 0]
  /\ scene_counters two_scenes_stats !! 0%nat = Some 3
  /\ 0 < 3
  /\ 0 <= 100 * 2 / 3 /\ 100 * 2 / 3 <= 100.
Proof.
  split; [exact two_scenes_draws_wf|]. split; [exact two_scenes_masks_boolean|].
  split; [exact two_scenes_run|]. split; [reflexivity|]. split; [reflexivity|].
  split; [reflexivity|].
  destruct (selection_counts_bounded (list (Draw nat)) (scripted idle_draw) two_scenes
              two_scenes_shape 2 6 two_scenes_draws two_scenes_stats []
              two_scenes_draws_wf two_scenes_masks_boolean two_scenes_run
              0%nat [2; 1; 1; 0] 3 0%nat 2 eq_refl eq_refl eq_refl) as (_ & _ & Hpct).
  apply Hpct. reflexivity.
Defined.

(** ** The occurrence histogram keeps every point *)

(** X7.  For a scene that was drawn at least once, the histogram loop bins
    one percentage per point of the scene and no point falls outside the 20
    bins: the bin counts add up to the number of points. *)
Theorem occurrence_histogram_counts_all {Seed : Type} (filenames : list string)
  (SET DATASET_NAME : string) (st : Stats Seed) (f : nat) (name : string)
  (h : list Q) (c : Q) :
  hist_list st !! f = Some h -> scene_counters st !! f = Some c -> ~ c == 0 ->
  exists plot,
    occurrence_scene filenames SET DATASET_NAME st f name = Some [plot]
    /\ length (plot_values plot) = length h
    /\ length (plot_counts plot) = 20%nat
    /\ sum_list (plot_counts plot) = length h.
Proof.
  intros Hh Hc Hn0. unfold occurrence_scene. rewrite Hc. simpl.
  destruct (Qeq_bool c 0) eqn:E.
  { apply Qeq_bool_iff in E. contradiction. }
  rewrite Hh. simpl.
  assert (occurrence_density h c = map Fin (map (fun x => 100 * x / c) h)) as ->.
  { unfold occurrence_density. rewrite map_map. apply map_ext. intros x.
    by apply np_div_nonzero. }
  unfold plt_hist. rewrite finite_values_Fin. simpl.
  eexists. split; [reflexivity|]. simpl. rewrite !length_map.
  split; [done|]. split; [apply length_np_histogram|].
  rewrite np_histogram_total by lia. by rewrite length_map.
Qed.

Lemma occurrence_histogram_counts_all_witness :
  hist_list two_scenes_stats !! 0%nat = Some [2; 1; 1; 0]
  /\ scene_counters two_scenes_stats !! 0%nat = Some 3
  /\ ~ 3 == 0
  /\ exists plot,
       occurrence_scene two_scenes "train" "semantic" two_scenes_stats 0 "scenes/a.npy"
       = Some [plot]
       /\ length (plot_values plot) = 4%nat
       /\ length (plot_counts plot) = 20%nat
       /\ sum_list (plot_counts plot) = 4%nat.
Proof.
  split; [reflexivity|]. split; [reflexivity|].
  assert (~ 3 == 0) as Hn0 by (intros H; discriminate H).
  split; [exact Hn0|].
  exact (occurrence_histogram_counts_all two_scenes "train" "semantic" two_scenes_stats
           0 "scenes/a.npy" [2; 1; 1; 0] 3 eq_refl eq_refl Hn0).
Defined.

(** ** Volume and failure of the export loop *)

Lemma enum_loop_length {A B : Type} (body : nat -> A -> option (list B)) (m : nat)
  (l : list A) : forall i,
  (forall k x out, body k x = Some out -> (length out <= m)%nat) ->
  (length (enum_loop body i l).1 <= m * length l)%nat.
Proof.
  induction l as [|x l IH]; intros i Hm; simpl; [lia|].
  destruct (body i x) as [out|] eqn:E; simpl; [|lia].
  specialize (IH (S i) Hm). destruct (enum_loop body (S i) l) as [rest ok]. simpl in *.
  rewrite length_app. pose proof (Hm i x out E). lia.
Qed.

Lemma enum_loop_stops {A B : Type} (body : nat -> A -> option (list B)) (l : list A) :
  forall i k x,
    (forall j y, (j < k)%nat -> l !! j = Some y -> is_Some (body (i + j)%nat y)) ->
    l !! k = Some x -> body (i + k)%nat x = None ->
    enum_loop body i l
    = (concat (imap (fun j y => default [] (body (i + j)%nat y)) (take k l)), false).
Proof.
  induction l as [|y l IH]; intros i k x Hbefore Hk Hnone; [done|].
  destruct k as [|k]; simpl in *.
  - injection Hk as ->. rewrite Nat.add_0_r in Hnone. by rewrite Hnone.
  - destruct (Hbefore 0%nat y) as [out Hout]; [lia|done|].
    rewrite Nat.add_0_r in Hout. rewrite Hout.
    rewrite (IH (S i) k x).
    + rewrite Nat.add_0_r, Hout. simpl. do 3 f_equal.
      apply imap_ext. intros j z _. simpl. by rewrite Nat.add_succ_r.
    + intros j z Hj Hz. rewrite Nat.add_succ_l, <- Nat.add_succ_r.
      apply (Hbefore (S j)); [lia|done].
    + exact Hk.
    + by rewrite Nat.add_succ_l, <- Nat.add_succ_r.
Qed.

Section VolumeFacts.
Context {Seed : Type}.
Variable filenames : list string.
Variable get_scene : nat -> list (list Q).
Variable SET : string.
Variable DATASET_NAME : string.

Abbreviation visited := (filenamesForExport filenames).
Abbreviation exported := (@export_scene Seed get_scene SET DATASET_NAME).

Lemma length_visited : (length visited <= MAX_EXPORT)%nat.
Proof. unfold filenamesForExport. rewrite length_take. lia. Qed.

(** X8.  Whatever the accumulators hold and whether or not the loops end
    with an error, the histogram loop saves at most one histogram and the
    export loop writes at most three files per scene among the first 20: at
    most 20 histograms and 60 files, however many scenes the dataset has. *)
Theorem export_volume_bounded (st : Stats Seed) :
  (length (occurrence_loop filenames SET DATASET_NAME st).1
   <= Nat.min (length filenames) MAX_EXPORT)%nat
  /\ (length (export_loop filenames get_scene SET DATASET_NAME st).1
      <= 3 * Nat.min (length filenames) MAX_EXPORT)%nat
  /\ (length (occurrence_loop filenames SET DATASET_NAME st).1 <= 20)%nat
  /\ (length (export_loop filenames get_scene SET DATASET_NAME st).1 <= 60)%nat.
Proof.
  assert (length visited = Nat.min (length filenames) MAX_EXPORT) as Hv.
  { unfold filenamesForExport. rewrite length_take. lia. }
  assert (length (occurrence_loop filenames SET DATASET_NAME st).1
          <= 1 * length visited)%nat as Hocc.
  { apply enum_loop_length. intros k x out Hout. unfold occurrence_scene in Hout.
    apply bind_Some in Hout as (c & _ & Hout).
    destruct (Qeq_bool c 0); [injection Hout as <-; simpl; lia|].
    apply bind_Some in Hout as (h & _ & Hout).
    apply bind_Some in Hout as (counts & _ & Hout). injection Hout as <-. simpl. lia. }
  assert (length (export_loop filenames get_scene SET DATASET_NAME st).1
          <= 3 * length visited)%nat as Hexp.
  { apply enum_loop_length. intros k x out Hout. unfold export_scene in Hout.
    apply bind_Some in Hout as (h & _ & Hout).
    destruct (Qeq_bool (np_sum h) 0); [injection Hout as <-; simpl; lia|].
    apply bind_Some in Hout as (table & _ & Hout).
    apply bind_Some in Hout as (seeds & _ & Hout). injection Hout as <-. simpl. lia. }
  unfold MAX_EXPORT in *. lia.
Qed.

(** X9.  The export loop stops at the first scene it visits whose counters
    do not sum to zero and whose table [DATA.get_scene(f)] has another number
    of rows than the scene has counters ([np.hstack] raises): the files of
    the scenes before it are written, and no file of that scene or of a
    later scene is. *)
Theorem export_stops_at_mismatch (st : Stats Seed) (f : nat) (name : string) (h : list Q) :
  visited !! f = Some name ->
  hist_list st !! f = Some h ->
  ~ np_sum h == 0 ->
  length (get_scene f) <> length h ->
  (forall g name', (g < f)%nat -> visited !! g = Some name' ->
                   is_Some (exported st g name')) ->
  exported st f name = None
  /\ export_loop filenames get_scene SET DATASET_NAME st
     = (concat (imap (fun g name' => default [] (exported st g name')) (take f visited)),
        false).
Proof.
  intros Hv Hh Hn0 Hlen Hbefore.
  assert (exported st f name = None) as Hnone.
  { unfold export_scene. rewrite Hh. simpl.
    destruct (Qeq_bool (np_sum h) 0) eqn:E.
    { apply Qeq_bool_iff in E. contradiction. }
    unfold np_hstack_col, export_density. rewrite length_map.
    apply Nat.eqb_neq in Hlen. by rewrite Hlen. }
  split; [exact Hnone|].
  unfold export_loop. apply (enum_loop_stops (exported st) visited 0%nat f name).
  - intros g name' Hg Hname. simpl. by apply Hbefore.
  - exact Hv.
  - exact Hnone.
Qed.

End VolumeFacts.

Lemma export_stops_at_mismatch_witness :
  filenamesForExport two_scenes !! 1%nat = Some "scenes/b.npy"%string
  /\ hist_list two_scenes_stats !! 1%nat = Some [2; 1]
  /\ ~ np_sum [2; 1] == 0
  /\ length (truncated_cloud 1) <> length [2; 1]
  /\ export_scene truncated_cloud "train" "semantic" two_scenes_stats 1 "scenes/b.npy" = None
  /\ export_loop two_scenes truncated_cloud "train" "semantic" two_scenes_stats
     = (concat (imap (fun g name' =>
                        default [] (export_scene truncated_cloud "train" "semantic"
                                      two_scenes_stats g name'))
                  (take 1 (filenamesForExport two_scenes))), false).
Proof.
  assert (~ np_sum [2; 1] == 0) as Hn0 by (intros H; discriminate H).
  assert (length (truncated_cloud 1) <> length [2; 1]) as Hlen by (simpl; lia).
  split; [reflexivity|]. split; [reflexivity|]. split; [exact Hn0|]. split; [exact Hlen|].
  apply (export_stops_at_mismatch two_scenes truncated_cloud "train" "semantic"
           two_scenes_stats 1 "scenes/b.npy" [2; 1] eq_refl eq_refl Hn0 Hlen).
  intros g name' Hg Hname. destruct g as [|g]; [|lia].
  injection Hname as <-. by eexists.
Defined.

(** ** The cleaned table *)

Lemma np_gt0_quotient (c t : Q) : 0 < t -> np_gt0 (Fin (c / t)) = negb (Qle_bool c 0).
Proof.
  intros Ht. simpl. f_equal.
  destruct (Qle_bool (c / t) 0) eqn:E1, (Qle_bool c 0) eqn:E2; try done.
  - apply Qle_bool_iff in E1. exfalso.
    assert (~ c <= 0) as Hc by (intros H; apply Qle_bool_iff in H; congruence).
    apply Hc. apply Qnot_lt_le. intros Hpos.
    assert (0 < c / t) by (apply Qlt_shift_div_l; lra). lra.
  - apply Qle_bool_iff in E2. exfalso.
    assert (~ c / t <= 0) as Hc by (intros H; apply Qle_bool_iff in H; congruence).
    apply Hc. apply Qle_shift_div_r; lra.
Qed.

Lemma length_np_select {A : Type} (table : list A) : forall mask : list bool,
  length table = length mask ->
  length (np_select table mask) = length (List.filter (fun b => b) mask).
Proof.
  unfold np_select. induction table as [|x table IH]; intros [|b mask] Hlen; try done.
  simpl in *. destruct b; simpl; rewrite IH by lia; done.
Qed.

Lemma positive_entry_exists (h : list Q) :
  0 < np_sum h ->
  (0 < length (List.filter (fun b => b) (map (fun c => negb (Qle_bool c 0)) h)))%nat.
Proof.
  induction h as [|x h IH]; intros Hpos.
  - unfold np_sum in Hpos. simpl in Hpos. exfalso. by apply (Qlt_irrefl 0).
  - simpl. destruct (Qle_bool x 0) eqn:E; simpl; [|lia].
    apply Qle_bool_iff in E. apply IH. rewrite np_sum_cons in Hpos. lra.
Qed.

(** X10.  For a scene whose counters sum to more than zero the second
    exported table keeps exactly the rows of the points whose counter is
    positive, in order, and it is never empty: at least one point of an
    exported scene was selected. *)
Theorem cleaned_table_rows {Seed : Type} (get_scene : nat -> list (list Q))
  (SET DATASET_NAME : string) (st : Stats Seed) (f : nat) (name : string)
  (h : list Q) (seeds : list Seed) :
  hist_list st !! f = Some h -> seeds_list st !! f = Some seeds ->
  length (get_scene f) = length h ->
  0 < np_sum h ->
  exists table path1 path2 last,
    export_scene get_scene SET DATASET_NAME st f name
    = Some [ (path1, Rows table);
             (path2, Rows (np_select table (map (fun c => negb (Qle_bool c 0)) h)));
             last ]
    /\ length table = length h
    /\ length (np_select table (map (fun c => negb (Qle_bool c 0)) h))
       = length (List.filter (fun c => negb (Qle_bool c 0)) h)
    /\ (0 < length (np_select table (map (fun c => negb (Qle_bool c 0)) h)))%nat.
Proof.
  intros Hh Hs Hlen Hpos.
  assert (~ np_sum h == 0) as Hn0 by lra.
  pose proof (export_scene_written get_scene SET DATASET_NAME st f name h seeds
                Hh Hs Hlen Hn0) as Hw. simpl in Hw.
  assert (np_gt0 <$> map (fun c => Fin (c / np_sum h)) h
          = map (fun c => negb (Qle_bool c 0)) h) as Hmask.
  { rewrite <- list_fmap_compose. apply list_fmap_ext. intros _ c _. simpl.
    by apply (np_gt0_quotient c (np_sum h)). }
  rewrite Hmask in Hw.
  eexists _, _, _, _. split; [exact Hw|].
  assert (length (zip_with (fun r d => (Fin <$> r) ++ [d]) (get_scene f)
                    (map (fun c => Fin (c / np_sum h)) h)) = length h) as Ht.
  { rewrite length_zip_with, length_map. lia. }
  split; [exact Ht|]. split.
  - rewrite length_np_select by (by rewrite Ht, length_map).
    clear. induction h as [|x h IH]; [done|]. simpl.
    destruct (negb (Qle_bool x 0)); simpl; by rewrite IH.
  - rewrite length_np_select by (by rewrite Ht, length_map).
    by apply positive_entry_exists.
Qed.

Lemma cleaned_table_rows_witness :
  hist_list two_scenes_stats !! 0%nat = Some [2; 1; 1; 0]
  /\ seeds_list two_scenes_stats !! 0%nat = Some [0; 1; 0]%nat
  /\ length (two_scenes_cloud 0) = length [2; 1; 1; 0]
  /\ 0 < np_sum [2; 1; 1; 0]
  /\ exists table path1 path2 last,
       export_scene two_scenes_cloud "train" "semantic" two_scenes_stats 0 "scenes/a.npy"
       = Some [ (path1, Rows table);
                (path2, Rows (np_select table
                                (map (fun c => negb (Qle_bool c 0)) [2; 1; 1; 0])));
                last ]
       /\ length table = 4%nat
       /\ length (np_select table (map (fun c => negb (Qle_bool c 0)) [2; 1; 1; 0]))
          = 3%nat
       /\ (0 < length (np_select table
                         (map (fun c => negb (Qle_bool c 0)) [2; 1; 1; 0]%Q)))%nat.
Proof.
  split; [reflexivity|]. split; [reflexivity|]. split; [reflexivity|].
  split; [reflexivity|].
  exact (cleaned_table_rows two_scenes_cloud "train" "semantic" two_scenes_stats 0
           "scenes/a.npy" [2; 1; 1; 0] [0; 1; 0]%nat eq_refl eq_refl eq_refl eq_refl).
Defined.

(** ** The bounding box of a repositioned scene *)

(** X11.  Up to the rounding of lines 240-246, a repositioned scene has
    the corner of least coordinates of its bounding box on the origin of
    its cell, [(j * xsize, i * ysize, 0)], and keeps its extent along the
    three spatial axes: the corner is within four rounding errors [eps] of
    the origin and each extent within eight of the extent of the scene.
    The arithmetic is any rounding that is within [eps] on numbers up to
    [6 * B] in magnitude, where [B] bounds the coordinates of the scene and
    of the cell origin; in exact arithmetic, [eps = 0], the scene is
    translated onto the cell origin. *)
Theorem repositioned_min_near_cell_origin rnd eps B use_color xsize ysize i j scene :
  wf_scene (grid_width use_color) scene ->
  0 <= eps -> eps <= B -> rounds_within rnd eps (6 * B) ->
  coords_within B scene -> cell_within B xsize ysize i j ->
  exists ps xm ym zm mr xM yM zM Mr x1 y1 z1 r1 X1 Y1 Z1 R1,
    position_scene_fl rnd use_color xsize ysize i j scene = Some ps
    /\ np_min_axis0 scene = Some (xm :: ym :: zm :: mr)
    /\ np_max_axis0 scene = Some (xM :: yM :: zM :: Mr)
    /\ np_min_axis0 ps = Some (x1 :: y1 :: z1 :: r1)
    /\ np_max_axis0 ps = Some (X1 :: Y1 :: Z1 :: R1)
    /\ inject_Z (Z.of_nat j) * xsize - 4 * eps <= x1
       <= inject_Z (Z.of_nat j) * xsize + 4 * eps
    /\ inject_Z (Z.of_nat i) * ysize - 4 * eps <= y1
       <= inject_Z (Z.of_nat i) * ysize + 4 * eps
    /\ - (4 * eps) <= z1 <= 4 * eps
    /\ (xM - xm) - 8 * eps <= X1 - x1 <= (xM - xm) + 8 * eps
    /\ (yM - ym) - 8 * eps <= Y1 - y1 <= (yM - ym) + 8 * eps
    /\ (zM - zm) - 8 * eps <= Z1 - z1 <= (zM - zm) + 8 * eps.
Proof.
  intros Hwf He HeB Hr Hin Hcell.
  destruct (positioned_fl_box rnd eps B use_color xsize ysize i j scene
              Hwf He HeB Hr Hin Hcell)
    as (ps & xm & ym & zm & mr & xM & yM & zM & Mr & x1 & y1 & z1 & r1 & X1 & Y1 & Z1 & R1
        & Hps & Hmn & Hmx & Hmn' & Hmx' & _ & [? ?] & [? ?] & [? ?] & [? ?] & [? ?] & [? ?]).
  exists ps, xm, ym, zm, mr, xM, yM, zM, Mr, x1, y1, z1, r1, X1, Y1, Z1, R1.
  do 5 (split; [done|]).
  repeat split; lra.
Qed.

Lemma repositioned_min_near_cell_origin_witness :
  wf_scene (grid_width false) [[73 # 10; 0; 0]; [83 # 10; 10; 2]]
  /\ rounds_within round_eighths (1 # 8) (6 * 100)
  /\ coords_within 100 [[73 # 10; 0; 0]; [83 # 10; 10; 2]]
  /\ cell_within 100 25 25 1 1
  /\ exists ps x1 y1 z1 r1 X1 Y1 Z1 R1,
       position_scene_fl round_eighths false 25 25 1 1 [[73 # 10; 0; 0]; [83 # 10; 10; 2]]
       = Some ps
       /\ np_min_axis0 ps = Some (x1 :: y1 :: z1 :: r1)
       /\ np_max_axis0 ps = Some (X1 :: Y1 :: Z1 :: R1)
       /\ 25 - 4 * (1 # 8) <= x1 <= 25 + 4 * (1 # 8)
       /\ 25 - 4 * (1 # 8) <= y1 <= 25 + 4 * (1 # 8)
       /\ - (4 * (1 # 8)) <= z1 <= 4 * (1 # 8)
       /\ 1 - 8 * (1 # 8) <= X1 - x1 <= 1 + 8 * (1 # 8)
       /\ 10 - 8 * (1 # 8) <= Y1 - y1 <= 10 + 8 * (1 # 8)
       /\ 2 - 8 * (1 # 8) <= Z1 - z1 <= 2 + 8 * (1 # 8)
       /\ x1 == 199 # 8.
Proof.
  assert (wf_scene (grid_width false) [[73 # 10; 0; 0]; [83 # 10; 10; 2]]) as Hwf.
  { split; [done|]. repeat constructor. }
  assert (coords_within 100 [[73 # 10; 0; 0]; [83 # 10; 10; 2]]) as Hin.
  { repeat (constructor; [repeat (constructor; [split; discriminate|]); constructor|]).
    constructor. }
  assert (cell_within 100 25 25 1 1) as Hc by (repeat split; discriminate).
  split; [exact Hwf|]. split; [apply round_eighths_within|].
  split; [exact Hin|]. split; [exact Hc|].
  destruct (repositioned_min_near_cell_origin round_eighths (1 # 8) 100 false 25 25 1 1 _
              Hwf ltac:(discriminate) ltac:(discriminate)
              (round_eighths_within (6 * 100)) Hin Hc)
    as (ps & xm & ym & zm & mr & xM & yM & zM & Mr & x1 & y1 & z1 & r1 & X1 & Y1 & Z1 & R1
        & Hps & Hmn & Hmx & Hmn' & Hmx' & Hx & Hy & Hz & HX & HY & HZ).
  vm_compute in Hmn, Hmx.
  injection Hmn as <- <- <- <-. injection Hmx as <- <- <- <-.
  exists ps, x1, y1, z1, r1, X1, Y1, Z1, R1.
  split; [exact Hps|]. split; [exact Hmn'|]. split; [exact Hmx'|].
  split; [exact Hx|]. split; [exact Hy|]. split; [exact Hz|].
  split; [split; lra|]. split; [split; lra|]. split; [split; lra|].
  vm_compute in Hps. injection Hps as <-. vm_compute in Hmn'.
  injection Hmn' as <- _ _ _. reflexivity.
Defined.

(** ** Scenes the grid cannot place *)

Lemma position_scene_refuses use_color xsize ysize i j scene w :
  scene = [] \/ (Forall (fun r => length r = w) scene
                 /\ w <> grid_width use_color /\ w <> 1%nat) ->
  position_scene use_color xsize ysize i j scene = None.
Proof.
  intros [->|(Hw & Hgw & H1)]; [done|].
  destruct scene as [|r rest]; [done|].
  inversion Hw as [|? ? Hr _]; subst.
  unfold position_scene. simpl np_min_axis0. cbn [mbind option_bind].
  assert (forall off : list Q, length off = grid_width use_color ->
            np_rows Qplus (r :: rest) off = None) as Hrows.
  { intros off Hoff. unfold np_rows. simpl.
    assert (np_broadcast Qplus r off = None) as ->; [|done].
    unfold np_broadcast.
    destruct (length r =? length off)%nat eqn:E.
    { apply Nat.eqb_eq in E. congruence. }
    destruct r as [|x [|? ?]]; simpl in H1; try lia.
    - destruct off as [|? [|? ?]]; try done. destruct use_color; simpl in Hoff; lia.
    - destruct off as [|? [|? ?]]; try done. destruct use_color; simpl in Hoff; lia. }
  destruct use_color.
  - rewrite Hrows; [done|]. reflexivity.
  - rewrite Hrows; [done|]. reflexivity.
Qed.

(** X12.  In grid mode a batch with a scene that has no point, or whose rows
    have neither the width the grid expects (three, or six with color) nor
    width one, makes the iteration raise: the composite is not extended and
    nothing is exported.  Scenes with a fourth feature column are such
    scenes. *)
Theorem unexpected_scene_aborts_batch use_color xsize ysize i st b j scene w :
  b_data b !! j = Some scene ->
  scene = [] \/ (Forall (fun r => length r = w) scene
                 /\ w <> grid_width use_color /\ w <> 1%nat) ->
  batch_points use_color xsize ysize i (b_data b) = None
  /\ grid_step use_color xsize ysize i st b = None.
Proof.
  intros Hj Hbad.
  assert (batch_points use_color xsize ysize i (b_data b) = None) as Hnone.
  { unfold batch_points.
    assert (mapM (fun js => position_scene use_color xsize ysize i js.1 js.2)
              (imap pair (b_data b)) = None) as ->; [|done].
    apply mapM_None. apply Exists_exists. exists (j, scene). split.
    - apply list_elem_of_lookup. exists j. by rewrite list_lookup_imap, Hj.
    - simpl. by apply (position_scene_refuses _ _ _ _ _ _ w). }
  split; [exact Hnone|]. unfold grid_step. by rewrite Hnone.
Qed.

Lemma unexpected_scene_aborts_batch_witness :
  b_data four_column_batch !! 0%nat = Some [[2; 3; 0; 7]; [12; 13; 1; 8]]
  /\ (Forall (fun r : list Q => length r = 4%nat) [[2; 3; 0; 7]; [12; 13; 1; 8]]
      /\ 4%nat <> grid_width false /\ 4%nat <> 1%nat)
  /\ batch_points false 25 25 0 (b_data four_column_batch) = None
  /\ grid_step false 25 25 0 (grid_init false) four_column_batch = None.
Proof.
  assert (Forall (fun r : list Q => length r = 4%nat) [[2; 3; 0; 7]; [12; 13; 1; 8]]
          /\ 4%nat <> grid_width false /\ 4%nat <> 1%nat) as Hbad.
  { split; [repeat constructor|]. split; simpl; lia. }
  split; [reflexivity|]. split; [exact Hbad|].
  apply (unexpected_scene_aborts_batch false 25 25 0 (grid_init false) four_column_batch
           0 [[2; 3; 0; 7]; [12; 13; 1; 8]] 4 eq_refl).
  right. exact Hbad.
Defined.

(** ** Lengths of the composite *)

Section CompositeFacts.
Variable Accessor : Type.
Variable next_batch : Accessor -> Batch * Accessor.
Variable use_color : bool.
Variables xsize ysize : Q.

Abbreviation batches := (batch_seq Accessor next_batch).
Abbreviation loop := (grid_loop Accessor next_batch use_color xsize ysize).

Lemma grid_loop_totals n : forall i st a st' a',
  loop n i st a = Some (st', a') ->
  length (visu_cloud st')
  = (length (visu_cloud st) + length (concat (concat (b_data <$> batches n a))))%nat
  /\ length (visu_labels st')
     = (length (visu_labels st) + length (concat (concat (b_labels <$> batches n a))))%nat
  /\ a' = batch_calls Accessor next_batch n a.
Proof.
  induction n as [|n IH]; intros i st a st' a' Hloop; simpl in Hloop.
  - injection Hloop as <- <-. csimpl. split; [lia|]. split; [lia|done].
  - simpl. destruct (next_batch a) as [b a1] eqn:E. csimpl.
    apply bind_Some in Hloop as (st1 & Hstep & Hloop).
    destruct (IH (S i) st1 a1 st' a' Hloop) as (Hc & Hl & Ha).
    apply grid_step_inv in Hstep as (pts & Hpts & Hcloud & Hlabels).
    apply batch_points_length in Hpts.
    rewrite Hc, Hl, Hcloud, Hlabels, !concat_app, !length_app, Hpts.
    split; [lia|]. split; [lia|done].
Qed.

(** X13.  The grid loop never compares the labels of a batch with its
    points: whenever [n] iterations end without error the composite cloud
    has one row more than the batches have points and the composite labels
    one entry more than the batches have labels, whatever the two totals
    are, and [next_batch] was called [n] times. *)
Theorem composite_lengths n a st a' :
  grid_loop Accessor next_batch use_color xsize ysize n 0 (grid_init use_color) a
  = Some (st, a') ->
  length (visu_cloud st)
  = S (length (concat (concat (b_data <$> batch_seq Accessor next_batch n a))))
  /\ length (visu_labels st)
     = S (length (concat (concat (b_labels <$> batch_seq Accessor next_batch n a))))
  /\ a' = batch_calls Accessor next_batch n a.
Proof.
  intros Hloop. apply grid_loop_totals in Hloop as (Hc & Hl & Ha).
  split; [exact Hc|]. split; [exact Hl|exact Ha].
Qed.

End CompositeFacts.

Lemma square_batches_loop :
  grid_loop (list Batch) (scripted idle_batch) false 25 25 2 0 (grid_init false)
    (tail square_batches)
  = Some (square_composite, []).
Proof. vm_compute. reflexivity. Defined.

Lemma composite_lengths_witness :
  grid_loop (list Batch) (scripted idle_batch) false 25 25 2 0 (grid_init false)
    (tail square_batches)
  = Some (square_composite, [])
  /\ length (visu_cloud square_composite) = 9%nat
  /\ length (visu_labels square_composite) = 9%nat.
Proof.
  split; [exact square_batches_loop|].
  destruct (composite_lengths (list Batch) (scripted idle_batch) false 25 25 2
              (tail square_batches) square_composite [] square_batches_loop)
    as (Hc & Hl & _).
  split; [exact Hc|exact Hl].
Defined.

(** ** The files of the fallback mode *)

Lemma enum_loop_elem {A B : Type} (body : nat -> A -> option (list B)) (l : list A) :
  forall i w,
    w ∈ (enum_loop body i l).1 ->
    exists k x out, l !! k = Some x /\ body (i + k)%nat x = Some out /\ w ∈ out.
Proof.
  induction l as [|x l IH]; intros i w Hw; simpl in Hw.
  - by apply elem_of_nil in Hw.
  - destruct (body i x) as [out|] eqn:E; simpl in Hw.
    2:{ by apply elem_of_nil in Hw. }
    destruct (enum_loop body (S i) l) as [rest ok] eqn:Er. simpl in Hw.
    apply elem_of_app in Hw as [Hw|Hw].
    + exists 0%nat, x, out. rewrite Nat.add_0_r. done.
    + destruct (IH (S i) w) as (k & y & out' & Hk & Hb & Hin).
      { by rewrite Er. }
      exists (S k), y, out'. rewrite Nat.add_succ_r. done.
Qed.

Lemma enum_loop_complete_length {A B : Type} (body : nat -> A -> option (list B))
  (c : nat) (l : list A) : forall i,
  (forall k x out, body k x = Some out -> length out = c) ->
  (enum_loop body i l).2 = true ->
  length (enum_loop body i l).1 = (c * length l)%nat.
Proof.
  induction l as [|x l IH]; intros i Hc Hok; simpl in *; [lia|].
  destruct (body i x) as [out|] eqn:E; simpl in *; [|done].
  specialize (IH (S i) Hc). destruct (enum_loop body (S i) l) as [rest ok]. simpl in *.
  rewrite length_app, (Hc i x out E), IH by done. lia.
Qed.

Lemma dom_write_all (log : list (string * Ply)) : forall disk : gmap string Ply,
  dom (write_all log disk) = dom disk ∪ list_to_set log.*1.
Proof.
  unfold write_all. induction log as [|[p d] log IH]; intros disk; csimpl.
  - by rewrite (right_id_L ∅ (∪)).
  - rewrite IH, dom_insert_L.
    by rewrite (comm_L (∪) {[p]} (dom disk)), <- (assoc_L (∪)).
Qed.

Lemma size_list_to_set_le (l : list string) :
  (size (list_to_set l : gset string) <= length l)%nat.
Proof.
  induction l as [|x l IH].
  - change (list_to_set [] : gset string) with (∅ : gset string).
    by rewrite size_empty.
  - rewrite list_to_set_cons, size_union_alt, size_singleton. simpl.
    assert (size (list_to_set l ∖ {[x]} : gset string) <= size (list_to_set l : gset string))%nat
      by (apply subseteq_size, subseteq_difference_l; reflexivity).
    lia.
Qed.

Lemma length_fallback_paths SET DATASET_NAME m :
  length (fallback_paths SET DATASET_NAME m) = (2 * m)%nat.
Proof.
  unfold fallback_paths.
  set (f := fun j : nat => _).
  assert (forall s, length (flat_map f (seq s m)) = (m + m)%nat) as H; [|rewrite H; lia].
  induction m as [|m IH]; intros s; [done|].
  change (seq s (S m)) with (s :: seq (S s) m).
  cbn [flat_map]. rewrite length_app, IH. simpl. lia.
Qed.

Section FallbackFacts.
Variable Accessor : Type.
Variable next_batch : Accessor -> Batch * Accessor.
Variable SET : string.
Variable DATASET_NAME : string.
Variable NUM_CLASSES : nat.
Variable use_color : bool.

Abbreviation batches := (batch_seq Accessor next_batch).
Abbreviation run :=
  (fallback_loop Accessor next_batch SET DATASET_NAME NUM_CLASSES use_color).
Abbreviation paths := (fallback_paths SET DATASET_NAME).

Lemma scene_export_paths b j scene out w m :
  scene_export SET DATASET_NAME NUM_CLASSES use_color b j scene = Some out ->
  w ∈ out -> (j < m)%nat -> w.1 ∈ paths m.
Proof.
  intros Hout Hw Hj. unfold scene_export in Hout.
  apply bind_Some in Hout as (labels & _ & Hout). injection Hout as <-.
  unfold fallback_paths. apply list_elem_of_In, in_flat_map.
  exists j. split; [apply in_seq; lia|].
  apply list_elem_of_In.
  apply elem_of_cons in Hw as [->|Hw]; [simpl; apply list_elem_of_here|].
  apply elem_of_cons in Hw as [->|Hw]; [simpl; apply list_elem_of_further, list_elem_of_here|].
  by apply elem_of_nil in Hw.
Qed.

Lemma fallback_loop_paths m n : forall a w,
  Forall (fun b => (length (b_data b) <= m)%nat) (batches n a) ->
  w ∈ (run n a).1 -> w.1 ∈ paths m.
Proof.
  induction n as [|n IH]; intros a w Hm Hw; simpl in *.
  - by apply elem_of_nil in Hw.
  - destruct (next_batch a) as [b a1] eqn:E. simpl in *.
    inversion Hm as [|? ? Hb Hrest]; subst.
    assert (forall v, v ∈ (enum_loop (scene_export SET DATASET_NAME NUM_CLASSES use_color b)
                             0 (b_data b)).1 -> v.1 ∈ paths m) as Hbatch.
    { intros v Hv. apply enum_loop_elem in Hv as (k & x & out & Hk & Hbody & Hin).
      apply (scene_export_paths b k x out v m Hbody Hin).
      apply lookup_lt_Some in Hk. lia. }
    destruct (enum_loop (scene_export SET DATASET_NAME NUM_CLASSES use_color b)
                0 (b_data b)) as [out ok] eqn:Eb.
    destruct ok; simpl in *.
    + destruct (run n a1) as [rest ok'] eqn:Er. simpl in *.
      apply elem_of_app in Hw as [Hw|Hw]; [by apply Hbatch|].
      apply (IH a1 w Hrest). by rewrite Er.
    + by apply Hbatch.
Qed.

Lemma fallback_loop_complete n : forall a,
  (run n a).2 = true ->
  length (run n a).1 = (2 * length (concat (b_data <$> batches n a)))%nat.
Proof.
  induction n as [|n IH]; intros a Hok; simpl in *; [done|].
  destruct (next_batch a) as [b a1] eqn:E. csimpl in *.
  pose proof (enum_loop_complete_length
                (scene_export SET DATASET_NAME NUM_CLASSES use_color b) 2 (b_data b) 0) as Hb.
  destruct (enum_loop (scene_export SET DATASET_NAME NUM_CLASSES use_color b)
              0 (b_data b)) as [out ok] eqn:Eb.
  destruct ok; simpl in *; [|done].
  specialize (IH a1). destruct (run n a1) as [rest ok'] eqn:Er. simpl in *.
  rewrite !length_app, IH, Hb; [lia| |done|done].
  intros k x o Ho. unfold scene_export in Ho.
  apply bind_Some in Ho as (labels & _ & Ho). by injection Ho as <-.
Qed.

(** X14.  A fallback run that ends without error makes two writes for each
    scene of each batch, but the paths it writes only depend on the position
    of the scene in its batch: when no batch has more than [m] scenes, every
    file on disk after the run has one of the [2 * m] paths of
    [fallback_paths], so at most [2 * m] files exist, however many batches
    were drawn. *)
Theorem fallback_files_bounded (m n : nat) (a : Accessor) :
  Forall (fun b => (length (b_data b) <= m)%nat) (batch_seq Accessor next_batch n a) ->
  ((fallback_loop Accessor next_batch SET DATASET_NAME NUM_CLASSES use_color n a).2 = true ->
   length (fallback_loop Accessor next_batch SET DATASET_NAME NUM_CLASSES use_color n a).1
   = (2 * length (concat (b_data <$> batch_seq Accessor next_batch n a)))%nat)
  /\ (forall p,
        is_Some (write_all
                   (fallback_loop Accessor next_batch SET DATASET_NAME NUM_CLASSES
                      use_color n a).1 ∅ !! p) ->
        p ∈ fallback_paths SET DATASET_NAME m)
  /\ (size (write_all
              (fallback_loop Accessor next_batch SET DATASET_NAME NUM_CLASSES
                 use_color n a).1 ∅) <= 2 * m)%nat.
Proof.
  intros Hm.
  assert (dom (write_all (run n a).1 ∅) ⊆ (list_to_set (paths m) : gset string)) as Hdom.
  { rewrite dom_write_all, dom_empty_L. intros p Hp.
    apply elem_of_union in Hp as [Hp|Hp]; [by apply elem_of_empty in Hp|].
    apply elem_of_list_to_set. apply elem_of_list_to_set in Hp.
    apply list_elem_of_fmap in Hp as (w & -> & Hw).
    by apply (fallback_loop_paths m n a w Hm). }
  split; [apply fallback_loop_complete|]. split.
  - intros p Hp. apply elem_of_dom in Hp. apply Hdom in Hp.
    by apply elem_of_list_to_set in Hp.
  - rewrite <- size_dom. etransitivity; [apply subseteq_size, Hdom|].
    etransitivity; [apply size_list_to_set_le|]. by rewrite length_fallback_paths.
Qed.

End FallbackFacts.

Lemma fallback_files_bounded_witness :
  Forall (fun b => (length (b_data b) <= 2)%nat)
    (batch_seq (list Batch) (scripted idle_batch) 2 [square_batch; wide_batch])
  /\ (fallback_loop (list Batch) (scripted idle_batch) "train" "semantic" 4 false 2
        [square_batch; wide_batch]).2 = true
  /\ length (fallback_loop (list Batch) (scripted idle_batch) "train" "semantic" 4 false 2
               [square_batch; wide_batch]).1 = 8%nat
  /\ (size (write_all (fallback_loop (list Batch) (scripted idle_batch) "train" "semantic"
                         4 false 2 [square_batch; wide_batch]).1 ∅) <= 4)%nat.
Proof.
  assert (Forall (fun b => (length (b_data b) <= 2)%nat)
            (batch_seq (list Batch) (scripted idle_batch) 2 [square_batch; wide_batch]))
    as Hm by (repeat constructor).
  assert ((fallback_loop (list Batch) (scripted idle_batch) "train" "semantic" 4 false 2
             [square_batch; wide_batch]).2 = true) as Hok by (vm_compute; reflexivity).
  split; [exact Hm|]. split; [exact Hok|].
  destruct (fallback_files_bounded (list Batch) (scripted idle_batch) "train" "semantic"
              4 false 2 2 [square_batch; wide_batch] Hm) as (Hlen & _ & Hsize).
  split; [exact (Hlen Hok)|exact Hsize].
Defined.

(** ** Export paths and scene names *)

Lemma has_slash_join (dir name : string) : has_slash (dir +:+ "/" +:+ name) = true.
Proof.
  induction dir as [|c dir IH]; [done|].
  simpl. by destruct (Ascii.eqb c "/").
Qed.

Lemma basename_join (dir name : string) :
  has_slash name = false -> basename (dir +:+ "/" +:+ name) = name.
Proof.
  intros Hname. induction dir as [|c dir IH].
  - change ("" +:+ "/" +:+ name) with (String "/" name).
    cbn [basename]. by rewrite Hname.
  - change (String c dir +:+ "/" +:+ name) with (String c (dir +:+ "/" +:+ name)).
    cbn [basename]. by rewrite has_slash_join.
Qed.

(** X15.  The three files of a scene are named after the last component of
    its file name alone: two scenes whose files have the same name in two
    directories are exported to the same three paths, so the export of the
    later one replaces the export of the earlier one. *)
Theorem same_name_same_export_paths {Seed : Type} (get_scene : nat -> list (list Q))
  (SET DATASET_NAME : string) (st : Stats Seed) (f1 f2 : nat) (dir1 dir2 name : string)
  (out1 out2 : list (string * FileData Seed)) :
  has_slash name = false ->
  export_scene get_scene SET DATASET_NAME st f1 (dir1 +:+ "/" +:+ name) = Some out1 ->
  export_scene get_scene SET DATASET_NAME st f2 (dir2 +:+ "/" +:+ name) = Some out2 ->
  out1 <> [] -> out2 <> [] ->
  out1.*1 = out2.*1.
Proof.
  intros Hname H1 H2 Hne1 Hne2.
  unfold export_scene in H1, H2.
  apply bind_Some in H1 as (h1 & _ & H1). apply bind_Some in H2 as (h2 & _ & H2).
  destruct (Qeq_bool (np_sum h1) 0); [by injection H1 as <-|].
  destruct (Qeq_bool (np_sum h2) 0); [by injection H2 as <-|].
  apply bind_Some in H1 as (t1 & _ & H1). apply bind_Some in H1 as (s1 & _ & H1).
  apply bind_Some in H2 as (t2 & _ & H2). apply bind_Some in H2 as (s2 & _ & H2).
  injection H1 as <-. injection H2 as <-.
  unfold stats_file. by rewrite !basename_join.
Qed.

Lemma same_name_same_export_paths_witness :
  has_slash "s.npy" = false
  /\ exists out1 out2,
       export_scene two_scenes_cloud "train" "semantic" two_scenes_stats 0
         ("a" +:+ "/" +:+ "s.npy") = Some out1
       /\ export_scene two_scenes_cloud "train" "semantic" two_scenes_stats 1
            ("b" +:+ "/" +:+ "s.npy") = Some out2
       /\ out1 <> [] /\ out2 <> []
       /\ out1.*1 = out2.*1.
Proof.
  split; [reflexivity|].
  destruct (export_scene two_scenes_cloud "train" "semantic" two_scenes_stats 0
              ("a" +:+ "/" +:+ "s.npy")) as [out1|] eqn:E1; [|discriminate E1].
  destruct (export_scene two_scenes_cloud "train" "semantic" two_scenes_stats 1
              ("b" +:+ "/" +:+ "s.npy")) as [out2|] eqn:E2; [|discriminate E2].
  assert (out1 <> []) as Hne1.
  { intros ->. vm_compute in E1. discriminate E1. }
  assert (out2 <> []) as Hne2.
  { intros ->. vm_compute in E2. discriminate E2. }
  exists out1, out2. split; [reflexivity|]. split; [reflexivity|].
  split; [exact Hne1|]. split; [exact Hne2|].
  exact (same_name_same_export_paths two_scenes_cloud "train" "semantic"
           two_scenes_stats 0 1 "a" "b" "s.npy" out1 out2 eq_refl E1 E2 Hne1 Hne2).
Defined.

(** ** Exported colors *)

Lemma astype_int_byte (c : Q) :
  0 <= c -> c <= 1 -> (0 <= astype_int (255 * c) <= 255)%Z.
Proof.
  intros H0 H1. unfold astype_int.
  assert (0 <= 255 * c) as Hlo by lra.
  assert (255 * c <= 255) as Hhi by lra.
  destruct (255 * c) as [n d]. unfold Qle in Hlo, Hhi. simpl in *.
  rewrite Z.quot_div_nonneg by lia. split.
  - apply Z.div_pos; lia.
  - apply Z.div_le_upper_bound; lia.
Qed.

(** X16.  When the color channels of a cloud lie between 0 and 1, the colors
    handed to the writer are whole numbers between 0 and 255. *)
Theorem color_channels_are_bytes (cloud : list (list Q)) :
  Forall (fun row => Forall (fun c => 0 <= c /\ c <= 1) (drop 3 (take 6 row))) cloud ->
  Forall (fun row' => Forall (fun v => exists k : Z, v = inject_Z k /\ (0 <= k <= 255)%Z) row')
    (color_channels cloud).
Proof.
  intros H. unfold color_channels, columns.
  induction H as [|row cloud Hrow _ IH]; [constructor|].
  csimpl. constructor; [|exact IH].
  induction Hrow as [|c cs [Hc0 Hc1] _ IHr]; [constructor|].
  constructor; [|exact IHr].
  exists (astype_int (255 * c)). split; [done|]. by apply astype_int_byte.
Qed.

Lemma color_channels_are_bytes_witness :
  Forall (fun row : list Q => Forall (fun c => 0 <= c /\ c <= 1) (drop 3 (take 6 row)))
    [[0; 0; 0; 1; 1 # 2; 0]]
  /\ Forall (fun row' : list Q =>
               Forall (fun v => exists k : Z, v = inject_Z k /\ (0 <= k <= 255)%Z) row')
       (color_channels [[0; 0; 0; 1; 1 # 2; 0]]).
Proof.
  assert (Forall (fun row : list Q => Forall (fun c => 0 <= c /\ c <= 1) (drop 3 (take 6 row)))
            [[0; 0; 0; 1; 1 # 2; 0]]) as H.
  { repeat (constructor; [repeat (constructor; [split; discriminate|]); constructor|]).
    constructor. }
  split; [exact H|]. exact (color_channels_are_bytes _ H).
Defined.

(** ** Parameters *)

(** X18.  After [PARAMS.update(CUSTOM)] every key of the custom
    configuration has the custom value and every other key keeps its default
    value; when [default.json] has the five keys the dataset is built from,
    no custom configuration can make one of them miss, and each of the five
    values is the custom one if the custom configuration has the key and the
    default one otherwise. *)
Theorem custom_params_override {Json : Type} (default custom : gmap string Json) :
  Forall (fun k => is_Some (default !! k)) dataset_keys ->
  (forall k, merge_params Json default custom !! k
             = match custom !! k with
               | Some v => Some v
               | None => default !! k
               end)
  /\ exists box_size use_color input_dropout data_path use_z_feature,
       dataset_params Json (merge_params Json default custom)
       = Some (box_size, use_color, input_dropout, data_path, use_z_feature)
       /\ Some box_size = merge_params Json default custom !! "box_size"%string
       /\ Some use_color = merge_params Json default custom !! "use_color"%string
       /\ Some input_dropout = merge_params Json default custom !! "input_dropout"%string
       /\ Some data_path = merge_params Json default custom !! "data_path"%string
       /\ Some use_z_feature = merge_params Json default custom !! "use_z_feature"%string.
Proof.
  intros Hkeys.
  assert (forall k, merge_params Json default custom !! k
                    = match custom !! k with
                      | Some v => Some v
                      | None => default !! k
                      end) as Hmerge.
  { intros k. unfold merge_params. rewrite lookup_union.
    destruct (custom !! k), (default !! k); done. }
  split; [exact Hmerge|].
  assert (forall k, k ∈ dataset_keys ->
            is_Some (merge_params Json default custom !! k)) as Hsome.
  { intros k Hk. rewrite Hmerge. rewrite Forall_forall in Hkeys.
    destruct (custom !! k); [by eexists|by apply Hkeys]. }
  unfold dataset_keys in Hsome.
  destruct (Hsome "box_size"%string) as [v1 H1]; [repeat constructor|].
  destruct (Hsome "use_color"%string) as [v2 H2]; [repeat constructor|].
  destruct (Hsome "input_dropout"%string) as [v3 H3]; [repeat constructor|].
  destruct (Hsome "data_path"%string) as [v4 H4]; [repeat constructor|].
  destruct (Hsome "use_z_feature"%string) as [v5 H5]; [repeat constructor|].
  exists v1, v2, v3, v4, v5. unfold dataset_params.
  rewrite H1, H2, H3, H4, H5. done.
Qed.

Lemma default_params_complete :
  Forall (fun k => is_Some (default_params !! k)) dataset_keys.
Proof. repeat (constructor; [by eexists|]). constructor. Defined.

Lemma custom_params_override_witness :
  Forall (fun k => is_Some (default_params !! k)) dataset_keys
  /\ exists box_size use_color input_dropout data_path use_z_feature,
       dataset_params nat (merge_params nat default_params custom_params)
       = Some (box_size, use_color, input_dropout, data_path, use_z_feature)
       /\ Some box_size = merge_params nat default_params custom_params !! "box_size"%string
       /\ Some use_color = merge_params nat default_params custom_params !! "use_color"%string
       /\ Some input_dropout
          = merge_params nat default_params custom_params !! "input_dropout"%string
       /\ Some data_path = merge_params nat default_params custom_params !! "data_path"%string
       /\ Some use_z_feature
          = merge_params nat default_params custom_params !! "use_z_feature"%string.
Proof.
  split; [exact default_params_complete|].
  exact (proj2 (custom_params_override default_params custom_params
                  default_params_complete)).
Defined.
